(** * Tensile/BenchmarkProblems.py: solution enumeration and the benchmark pipeline

    A shallow embedding of [src/Tensile/BenchmarkProblems.py].  The module is
    Python code that threads three pieces of process-wide state through
    every call: the [globalParameters] dictionary (with its [WorkingPath]),
    the file system, and the calls made to collaborating modules.  The
    embedding makes that state explicit in a [World] and writes the code in
    a state-and-error monad [M]. *)

From stdpp Require Import base option list gmap strings sorting pretty.
From Stdlib Require Import ZArith Lia.

Local Open Scope string_scope.
Local Open Scope list_scope.
Local Open Scope Z_scope.

(** ** Python values *)

Module Py.

(** Scalars found in YAML configurations. *)
Inductive scalar :=
  | SNone
  | SBool (b : bool)
  | SInt (z : Z)
  | SStr (s : string).

(** A parameter value of a problem type or of a kernel configuration: a
    scalar or a list, whose elements are values again (a list of lists is a
    value).  The equality of problem types and of solutions belongs to
    classes that are not in this module and is taken structurally; the sets
    of lines 86-89 compare their members as Python does, see [hashKey]
    below. *)
#[local] Unset Elimination Schemes.
Inductive value :=
  | Scalar (s : scalar)
  | List (l : list value).
#[local] Set Elimination Schemes.

(** [ProblemType.state]: the dictionary behind a [ProblemType] object.  A
    [ProblemType] compares equal to another one when the states are equal. *)
Abbreviation state := (gmap string value).

(** An entry of a solution dictionary: a plain value, or, under the key
    ["ProblemType"], the problem type. *)
Inductive param :=
  | Param (v : value)
  | ProblemTypeParam (pt : state).

(** A solution dictionary, as built in [generateForkedSolutions] and as kept
    by a [Solution] object. *)
Abbreviation config := (gmap string param).

#[global] Instance scalar_eq_dec : EqDecision scalar.
Proof. solve_decision. Defined.

#[global] Instance value_eq_dec : EqDecision value.
Proof.
  refine (fix go (v1 v2 : value) : Decision (v1 = v2) :=
            let _ : EqDecision value := go in
            match v1, v2 with
            | Scalar s1, Scalar s2 => cast_if (decide (s1 = s2))
            | List l1, List l2 => cast_if (decide (l1 = l2))
            | _, _ => right _
            end); congruence.
Defined.

#[global] Instance param_eq_dec : EqDecision param.
Proof. solve_decision. Defined.

Definition scalar_to_sum (s : scalar) : unit + bool + Z + string :=
  match s with
  | SNone => inl (inl (inl tt))
  | SBool b => inl (inl (inr b))
  | SInt z => inl (inr z)
  | SStr s => inr s
  end.

Definition scalar_of_sum (x : unit + bool + Z + string) : scalar :=
  match x with
  | inl (inl (inl _)) => SNone
  | inl (inl (inr b)) => SBool b
  | inl (inr z) => SInt z
  | inr s => SStr s
  end.

#[global] Instance scalar_countable : Countable scalar.
Proof.
  apply (inj_countable' scalar_to_sum scalar_of_sum).
  by intros [].
Defined.

(** A value as a tree with scalars at its leaves, and back. *)
Fixpoint value_to_tree (v : value) : gen_tree scalar :=
  match v with
  | Scalar s => GenLeaf s
  | List l => GenNode 0 (map value_to_tree l)
  end.

Fixpoint tree_to_value (t : gen_tree scalar) : value :=
  match t with
  | GenLeaf s => Scalar s
  | GenNode _ ts => List (map tree_to_value ts)
  end.

#[global] Instance value_countable : Countable value.
Proof.
  apply (inj_countable' value_to_tree tree_to_value).
  fix go 1. intros [s|l]; cbn; [done|]. f_equal.
  induction l as [|v l IH]; cbn; [done|]. by rewrite go, IH.
Defined.

#[global] Instance param_countable : Countable param.
Proof.
  apply (inj_countable'
    (λ p, match p with Param v => inl v | ProblemTypeParam pt => inr pt end)
    (λ x, match x with inl v => Param v | inr pt => ProblemTypeParam pt end)).
  by intros [].
Defined.

(** Truth value of a Python object in an [if]. *)
Definition scalar_truthy (s : scalar) : bool :=
  match s with
  | SNone => false
  | SBool b => b
  | SInt z => negb (z =? 0)
  | SStr s => negb (bool_decide (s = EmptyString))
  end.

Definition value_truthy (v : value) : bool :=
  match v with
  | Scalar s => scalar_truthy s
  | List l => negb (bool_decide (l = []))
  end.

Definition truthy (p : param) : bool :=
  match p with
  | Param v => value_truthy v
  | ProblemTypeParam _ => true
  end.

(** A Python set finds its members by [hash] and [==].  [True] and [1] are
    equal and hash alike, as are [False] and [0]; no other two scalars of
    the model are equal.  [scalarKey] picks one scalar for each class of
    equal ones. *)
Definition scalarKey (s : scalar) : scalar :=
  match s with
  | SBool b => SInt (Z.b2z b)
  | _ => s
  end.

(** An element of the tuple made of a list value: a scalar can be hashed, a
    list cannot. *)
Definition elementKey (v : value) : option value :=
  match v with
  | Scalar s => Some (Scalar (scalarKey s))
  | List _ => None
  end.

(** The value [v] of an item [(k, v)], or [(k, tuple(v))] when [v] is a
    list, as the set sees it: equal values have the same key, and a value
    that cannot be hashed has none.  A list and the tuple made of it are
    the same [List]. *)
Definition hashKey (v : value) : option value :=
  match v with
  | Scalar s => Some (Scalar (scalarKey s))
  | List l => List <$> mapM elementKey l
  end.

(** A set of items: the members, each under the key it is found by. *)
Abbreviation itemset := (gmap (string * value) (string * value)).

Definition hashed (kv : string * value) : option ((string * value) * (string * value)) :=
  (λ key, ((kv.1, key), kv)) <$> hashKey kv.2.

(** Exceptions the module can run into. *)
Inductive exn :=
  | KeyError (key : string)
  | IndexError
  | TypeError
  | AttributeError
  | FileNotFoundError (p : list string)
  | SystemExit (code : Z).

End Py.
Export Py.

(** ** Paths ([os.path]) *)

Module Path.

(** A path is the list of its components; the working directory the process
    starts in is the empty list. *)
Abbreviation path := (list string).

(** [os.path.join(a, b)] for a relative [b]. *)
Definition join (a b : path) : path := a ++ b.

Fixpoint normpath_go (acc : path) (p : path) : path :=
  match p with
  | [] => rev acc
  | c :: p =>
      if bool_decide (c = "." ∨ c = EmptyString) then normpath_go acc p
      else if bool_decide (c = "..") then
        match acc with
        | a :: acc' =>
            if bool_decide (a = "..") then normpath_go (c :: acc) p
            else normpath_go acc' p
        | [] => normpath_go [c] p
        end
      else normpath_go (c :: acc) p
  end.

(** [os.path.normpath]: [acc] holds the components kept so far, last one
    first. *)
Definition normpath (p : path) : path :=
  match normpath_go [] p with
  | [] => ["."]
  | q => q
  end.

(** [base + ext] for a path held as a string: the text is added to the last
    component. *)
Definition add_ext (base : path) (ext : string) : path :=
  match base with
  | [] => [ext]
  | _ => removelast base ++ [List.last base EmptyString +:+ ext]
  end.

Fixpoint strip_common (p start : path) : path * path :=
  match p, start with
  | c :: p', d :: start' =>
      if bool_decide (c = d) then strip_common p' start' else (p, start)
  | _, _ => (p, start)
  end.

(** [os.path.relpath(p, start)]. *)
Definition relpath (p start : path) : path :=
  let '(p', s') := strip_common (normpath_go [] p) (normpath_go [] start) in
  match replicate (length s') ".." ++ p' with
  | [] => ["."]
  | q => q
  end.

End Path.
Export Path.

(** ** Data handed between the modules *)

(** One entry of a problem-size list: [{"Exact": [...]}] or
    [{"Range": [...]}]. *)
Inductive sizeEntry :=
  | Exact (dims : list Z)
  | Range (dims : list (list Z)).

(** A [ProblemSizes] object: the problem type and the size entries it was
    constructed from. *)
Record problemSizes := ProblemSizes {
  ps_problemType : state;
  ps_config : list sizeEntry;
}.

(** A YAML document, as the configuration file is loaded. *)
#[local] Unset Elimination Schemes.
Inductive yaml :=
  | YScalar (s : scalar)
  | YList (l : list yaml)
  | YDict (d : list (string * yaml)).
#[local] Set Elimination Schemes.

(** A piece of a printed message.  A message is the list of its pieces in
    order; how a value is rendered ([str], [format]) is left to Python. *)
Inductive piece :=
  | Str (s : string)
  | Num (z : Z)
  | Elapsed
  | Values (l : list value)
  | Items (l : list (string * value))
  | Yaml (y : yaml).

Abbreviation message := (list piece).

(** One step of a [BenchmarkProcess] (class [BenchmarkStep] of
    BenchmarkStructs), with the attributes this module reads; [stepName] is
    [str(benchmarkStep)]. *)
Record benchmarkStep := BenchmarkStep {
  forkParams : list (string * list value);
  constantParams : config;
  customKernels : list string;
  customKernelWildcard : bool;
  problemSizes_of : problemSizes;
  isFinal : bool;
  stepName : string;
}.

(** A [BenchmarkProcess]: [len] and indexing go to [steps]. *)
Record benchmarkProcess := {
  problemType : state;
  steps : list benchmarkStep;
}.

(** The entries of [globalParameters] this module reads or writes. *)
Record globalParameters := {
  WorkingPath : path;
  PrintSolutionRejectionReason : bool;
  MergeFiles : bool;
  CxxCompiler : string;
  LibraryFormat : string;
  PrintLevel : Z;
  ForceRedoBenchmarkProblems : bool;
  CustomKernelDirectory : string;
  BenchmarkDataPath : string;
  BenchmarkProblemsPath : string;
  CSVExportWinner : bool;
  ConfigPath : string;
  ExitOnFails : bool;
  EnableHalf : bool;
}.

Definition set_WorkingPath (p : path) (g : globalParameters) : globalParameters :=
  {| WorkingPath := p;
     PrintSolutionRejectionReason := PrintSolutionRejectionReason g;
     MergeFiles := MergeFiles g;
     CxxCompiler := CxxCompiler g;
     LibraryFormat := LibraryFormat g;
     PrintLevel := PrintLevel g;
     ForceRedoBenchmarkProblems := ForceRedoBenchmarkProblems g;
     CustomKernelDirectory := CustomKernelDirectory g;
     BenchmarkDataPath := BenchmarkDataPath g;
     BenchmarkProblemsPath := BenchmarkProblemsPath g;
     CSVExportWinner := CSVExportWinner g;
     ConfigPath := ConfigPath g;
     ExitOnFails := ExitOnFails g;
     EnableHalf := EnableHalf g |}.

Definition set_EnableHalf (b : bool) (g : globalParameters) : globalParameters :=
  {| WorkingPath := WorkingPath g;
     PrintSolutionRejectionReason := PrintSolutionRejectionReason g;
     MergeFiles := MergeFiles g;
     CxxCompiler := CxxCompiler g;
     LibraryFormat := LibraryFormat g;
     PrintLevel := PrintLevel g;
     ForceRedoBenchmarkProblems := ForceRedoBenchmarkProblems g;
     CustomKernelDirectory := CustomKernelDirectory g;
     BenchmarkDataPath := BenchmarkDataPath g;
     BenchmarkProblemsPath := BenchmarkProblemsPath g;
     CSVExportWinner := CSVExportWinner g;
     ConfigPath := ConfigPath g;
     ExitOnFails := ExitOnFails g;
     EnableHalf := b |}.

(** How a call ends: with a value, through [printExit] (a fatal abort with
    its diagnostic), or with a Python exception. *)
Inductive outcome (A : Type) :=
  | Ok (a : A)
  | Exit (msg : message)
  | Raise (e : exn).
Arguments Ok {A} a.
Arguments Exit {A} msg.
Arguments Raise {A} e.

(** ** The world the module runs in

    The types below take as parameter the type [naming] of the values of
    [Solution.getSerialNaming] and [Solution.getMinNaming], which this
    module only passes on. *)

(** The benchmarking library built from a solution list
    ([MasterSolutionLibrary.BenchmarkingLibrary(solutions)]) with the kernel
    naming applied to it. *)
Record library_over (naming : Type) := Library {
  lib_solutions : list config;
  lib_naming : naming;
}.
Arguments Library {naming} lib_solutions lib_naming.
Arguments lib_solutions {naming} l.
Arguments lib_naming {naming} l.

(** Calls that leave the module, with their arguments. *)
Inductive event_over (naming : Type) :=
  | Print1 (m : message)
  | Print2 (m : message)
  | PrintWarning (m : message)
  | Print (m : message)
  | PushWorkingPath (foldername : string)
  | PopWorkingPath
  | GetClientExecutable
  | CopyStaticFiles
  | WriteSolutionsAndKernels (outputPath : path) (problemTypes : list param)
      (solutions kernels kernelHelperObjs : list config) (errorTolerant : bool)
  | LibraryWrite (file : path) (lib : library_over naming) (format : string)
  | WriteClientConfig (forBenchmark : bool) (solutions : list config)
      (sizes : problemSizes) (name : string) (stepBaseDir : path)
      (newLibrary : library_over naming) (codeObjectFiles : list path)
      (tileAwareSelection : bool)
  | RunClient (libraryLogicPath : option path) (forBenchmark : bool)
      (enableTileSelection : value) (returncode : Z)
  | WriteSolutions (file : path) (sizes : problemSizes) (solutions : list config)
  | Copy (src dst : path).
Arguments Print1 {naming} m.
Arguments Print2 {naming} m.
Arguments PrintWarning {naming} m.
Arguments Print {naming} m.
Arguments PushWorkingPath {naming} foldername.
Arguments PopWorkingPath {naming}.
Arguments GetClientExecutable {naming}.
Arguments CopyStaticFiles {naming}.
Arguments WriteSolutionsAndKernels {naming} outputPath problemTypes solutions
  kernels kernelHelperObjs errorTolerant.
Arguments LibraryWrite {naming} file lib format.
Arguments WriteClientConfig {naming} forBenchmark solutions sizes name
  stepBaseDir newLibrary codeObjectFiles tileAwareSelection.
Arguments RunClient {naming} libraryLogicPath forBenchmark enableTileSelection
  returncode.
Arguments WriteSolutions {naming} file sizes solutions.
Arguments Copy {naming} src dst.

(** [globals] is [globalParameters], [files] the paths that exist, [trace]
    the calls made so far, the latest one first. *)
Record World_over (naming : Type) := {
  globals : globalParameters;
  files : gset path;
  trace : list (event_over naming);
}.
Arguments Build_World_over {naming} globals files trace.
Arguments globals {naming} w.
Arguments files {naming} w.
Arguments trace {naming} w.

(** ** The collaborating modules

    What the other modules of Tensile do is not part of this file: their
    functions are taken as given.  Modelled from the spec: a [Solution]
    object is held as its state dictionary, with a "Valid" entry, and two of
    them are equal when the dictionaries are. *)
Class Collaborators := {
  (** the value of [Solution.getSerialNaming] and [Solution.getMinNaming] *)
  naming : Type;
  (** [Solution(config)]: the state after the derived parameters are
      assigned *)
  Solution : config → config;
  (** every [Solution] carries a [Valid] flag *)
  Solution_has_Valid : ∀ c, is_Some (Solution c !! "Valid");
  (** [str(solution)] and [str(problemType)] *)
  Solution_str : config → string;
  ProblemType_str : state → string;
  getKernels : config → list config;
  getNameFull : config → string;
  getHelperKernelObjects : config → list config;
  getKernelName : config → string;
  getSerialNaming : list config → naming;
  getMinNaming : list config → naming;
  totalProblemSizes : problemSizes → Z;
  (** [ProblemType(problemTypeConfig)] and [DataType.isHalf()] *)
  ProblemType : yaml → state;
  isHalf : value → bool;
  (** CustomKernels.getCustomKernelConfig(name, directory) *)
  getCustomKernelConfig : string → string → outcome config;
  (** BenchmarkStructs *)
  checkParametersAreValid : gmap string (list param) → outcome unit;
  constructForkPermutations : list (string * list value) → list config;
  BenchmarkProcess : yaml → yaml → outcome benchmarkProcess;
  (** TensileCreateLibrary.writeSolutionsAndKernels(outputPath, cxxCompiler,
      problemTypes, solutions, kernels, kernelHelperObjs, ..., errorTolerant):
      the code object files it returns and the solution list as it leaves
      it *)
  writeSolutionsAndKernels :
    path → string → list param → list config → list config → list config →
    naming * naming * naming * naming → bool → list path * list config;
  (** ClientWriter.runClient(libraryLogicPath, forBenchmark,
      enableTileSelection), started in a working path: its return code and
      the files the client leaves behind *)
  runClient : path → option path → bool → value → Z * list path;
}.

(** The world, its calls and libraries for given collaborators. *)
Abbreviation library := (library_over naming).
Abbreviation event := (event_over naming).
Abbreviation World := (World_over naming).

(** ** The monad *)

Declare Scope py_scope.

Section Model.
Context `{C : Collaborators}.

(** The calls in the order they were made. *)
Definition history (w : World) : list event := rev (trace w).

Definition M (A : Type) : Type := World → outcome A * World.

Definition ret {A} (a : A) : M A := λ w, (Ok a, w).

(** A fatal abort or an exception ends the run: what follows is skipped. *)
Definition bind {A B} (m : M A) (f : A → M B) : M B := λ w,
  match m w with
  | (Ok a, w') => f a w'
  | (Exit msg, w') => (Exit msg, w')
  | (Raise e, w') => (Raise e, w')
  end.

Notation "x ← y ; z" := (bind y (λ x, z))
  (at level 20, y at level 100, z at level 200, only parsing) : py_scope.
Notation "' x ← y ; z" := (bind y (λ x, z))
  (at level 20, x pattern, y at level 100, z at level 200, only parsing) : py_scope.
Notation "x ;; z" := (bind x (λ _, z))
  (at level 100, z at level 200, only parsing, right associativity) : py_scope.
Local Open Scope py_scope.

Definition raise {A} (e : exn) : M A := λ w, (Raise e, w).

(** [Common.printExit]: print the message and leave the process. *)
Definition printExit {A} (msg : message) : M A := λ w, (Exit msg, w).

(** The result of a collaborator that can fail. *)
Definition lift {A} (o : outcome A) : M A := λ w, (o, w).

Definition get_globals : M globalParameters := λ w, (Ok (globals w), w).

Definition put_globals (g : globalParameters) : M unit := λ w,
  (Ok tt, {| globals := g; files := files w; trace := trace w |}).

Definition emit (e : event) : M unit := λ w,
  (Ok tt, {| globals := globals w; files := files w; trace := e :: trace w |}).

Definition create (ps : list path) : M unit := λ w,
  (Ok tt, {| globals := globals w; files := list_to_set ps ∪ files w;
             trace := trace w |}).

(** [os.path.exists] *)
Definition path_exists (p : path) : M bool := λ w,
  (Ok (bool_decide (p ∈ files w)), w).

Definition print1 (m : message) : M unit := emit (Print1 m).
Definition print2 (m : message) : M unit := emit (Print2 m).
Definition printWarning (m : message) : M unit := emit (PrintWarning m).

(** [d[key]] on a dictionary. *)
Definition getitem {A} (d : gmap string A) (key : string) : M A :=
  match d !! key with
  | Some a => ret a
  | None => raise (KeyError key)
  end.

(** [Common.ensurePath]: make the directory and return its path. *)
Definition ensurePath (p : path) : M path := create [p];; ret p.

(** Modelled from the spec: [Common.pushWorkingPath] and
    [Common.popWorkingPath] are not in this module.  The working path is a
    stack of directory names: a push enters (and creates) a sub-directory,
    a pop returns to the directory above. *)
Definition pushWorkingPath (foldername : string) : M path :=
  emit (PushWorkingPath foldername);;
  g ← get_globals;
  put_globals (set_WorkingPath (join (WorkingPath g) [foldername]) g);;
  ensurePath (join (WorkingPath g) [foldername]).

Definition popWorkingPath : M unit :=
  emit PopWorkingPath;;
  g ← get_globals;
  put_globals (set_WorkingPath (removelast (WorkingPath g)) g).

(** [shutil.copy] *)
Definition copy (src dst : path) : M unit :=
  e ← path_exists src;
  if e then emit (Copy src dst);; create [dst]
  else raise (FileNotFoundError src).

(** A number in a comparison or a product; a [bool] counts as 0 or 1. *)
Definition as_num (p : param) : M Z :=
  match p with
  | Param (Scalar (SInt z)) => ret z
  | Param (Scalar (SBool b)) => ret (Z.b2z b)
  | _ => raise TypeError
  end.

(** [key in obj] *)
Definition contains (key : string) (obj : param) : M bool :=
  match obj with
  | ProblemTypeParam pt => ret (bool_decide (is_Some (pt !! key)))
  | Param (Scalar (SStr s)) => ret (bool_decide (is_Some (String.index 0 key s)))
  | Param (List l) => ret (bool_decide (Scalar (SStr key) ∈ l))
  | Param (Scalar _) => raise TypeError
  end.

(** [obj[key]] where [obj] is expected to be a problem type. *)
Definition pt_getitem (obj : param) (key : string) : M value :=
  match obj with
  | ProblemTypeParam pt => getitem pt key
  | Param _ => raise TypeError
  end.

(** [obj.items()] *)
Definition items (obj : param) : M state :=
  match obj with
  | ProblemTypeParam pt => ret pt
  | Param _ => raise AttributeError
  end.

(** Common.HR *)
Definition HR : string :=
  "################################################################################".

Definition nl : string := String (Ascii.ascii_of_nat 10) EmptyString.
Definition tab : string := String (Ascii.ascii_of_nat 9) EmptyString.
Definition dquote : string := String (Ascii.ascii_of_nat 34) EmptyString.

(** ** generateForkedSolutions (lines 45-65) *)

(** The body of the loop over [forkPermutations], on the pair
    ([solutions], [solutionSet]). *)
Definition forkedSolution (problemType : state) (constantParams perm : config)
    (acc : list config * gset config) : M (list config * gset config) :=
  let solution :=
    perm ∪ constantParams ∪ {[ "ProblemType" := ProblemTypeParam problemType ]} in
  let solutionObject := Solution solution in
  valid ← getitem solutionObject "Valid";
  if truthy valid then
    if bool_decide (solutionObject ∉ acc.2) then
      ret (acc.1 ++ [solutionObject], {[ solutionObject ]} ∪ acc.2)
    else ret acc
  else
    g ← get_globals;
    if PrintSolutionRejectionReason g then
      print1 [Str "rejecting solution "; Str (Solution_str solutionObject)];;
      ret acc
    else ret acc.

Fixpoint forkedSolutions (problemType : state) (constantParams : config)
    (forkPermutations : list config) (acc : list config * gset config)
    : M (list config) :=
  match forkPermutations with
  | [] => ret acc.1
  | perm :: rest =>
      acc' ← forkedSolution problemType constantParams perm acc;
      forkedSolutions problemType constantParams rest acc'
  end.

Definition generateForkedSolutions (problemType : state)
    (constantParams : config) (forkPermutations : list config)
    : M (list config) :=
  print1 [Str "# Enumerating Solutions"];;
  forkedSolutions problemType constantParams forkPermutations ([], ∅).

(** ** getCustomKernelSolutionObj (lines 67-75)

    The only caller passes no [directory], so the default is used.  Python
    evaluates it once, when the function is defined; here it is read from
    the global parameters at the call, which is the same directory as long
    as "CustomKernelDirectory" is not reassigned in between (nothing in this
    file assigns it). *)

Definition getCustomKernelSolutionObj (kernelName : string) : M config :=
  g ← get_globals;
  kernelConfig ← lift (getCustomKernelConfig kernelName (CustomKernelDirectory g));
  lift (checkParametersAreValid
          ((λ p : param, [p]) <$> delete "ProblemType" kernelConfig));;
  let kernelConfig :=
    <[ "CustomKernelName" := Param (Scalar (SStr kernelName)) ]>
      (<[ "KernelLanguage" := Param (Scalar (SStr "Assembly")) ]> kernelConfig) in
  ret (Solution kernelConfig).

(** ** generateCustomKernelSolutions (lines 77-108) *)

(** [set([(k, tuple(v)) if type(v) is list else (k, v) for k, v in
    pt.items()])]: a TypeError when an item cannot be hashed.  The keys of
    a dictionary are distinct, so no two items are equal and the order they
    are put in does not matter. *)
Definition itemSet (pt : state) : M itemset :=
  match mapM hashed (map_to_list pt) with
  | Some l => ret (list_to_map l)
  | None => raise TypeError
  end.

(** The order [sorted] puts the items of one dictionary in: by key, the
    keys being distinct. *)
Definition item_le (a b : string * value) : Prop := String.leb a.1 b.1.

(** [sorted(s)].  On sets [a - b] keeps the members of [a] not found in
    [b], and [a & b] the members found in both: these are [∖] and [∩] of
    the maps.  Which of two equal members [a & b] keeps plays no part, the
    intersection being only taken away from a set. *)
Definition sorted (s : itemset) : list (string * value) :=
  merge_sort item_le (map_to_list s).*2.

Definition mismatchMessage (kernelName : string)
    (benchmarkSet customSet : itemset) : message :=
  [ Str "The problem type in the config file does not match that of the custom kernel, ";
    Str kernelName; Str ".";
    Str (nl +:+ "Differing parameters:" +:+ nl);
    Str (tab +:+ "Config values:" +:+ nl +:+ tab);
    Items (sorted (benchmarkSet ∖ (customSet ∩ benchmarkSet)));
    Str (nl +:+ tab +:+ "Custom kernel values:" +:+ nl +:+ tab);
    Items (sorted (customSet ∖ (customSet ∩ benchmarkSet))) ].

(** The body of the loop over [customKernels], on [solutions]. *)
Definition customKernelSolution (problemType : state) (failOnMismatch : bool)
    (kernelName : string) (solutions : list config) : M (list config) :=
  print1 [Str "# Processing custom kernel "; Str kernelName];;
  solution ← getCustomKernelSolutionObj kernelName;
  solutionProblemType ← getitem solution "ProblemType";
  if bool_decide (solutionProblemType ≠ ProblemTypeParam problemType) then
    if failOnMismatch then
      benchmarkSet ← itemSet problemType;
      customItems ← items solutionProblemType;
      customSet ← itemSet customItems;
      printExit (mismatchMessage kernelName benchmarkSet customSet)
    else
      print1 [Str "# Rejected "; Str kernelName;
              Str ": Problem Type doesn't match"];;
      ret solutions
  else
    print1 [Str "# Added "; Str kernelName; Str " to solutions"];;
    valid ← getitem solution "Valid";
    if truthy valid then ret (solutions ++ [solution])
    else
      g ← get_globals;
      if PrintSolutionRejectionReason g then
        print1 [Str "rejecting solution "; Str (Solution_str solution)];;
        ret solutions
      else ret solutions.

Fixpoint customKernelSolutions (problemType : state) (failOnMismatch : bool)
    (customKernels : list string) (solutions : list config) : M (list config) :=
  match customKernels with
  | [] => ret solutions
  | kernelName :: rest =>
      solutions' ← customKernelSolution problemType failOnMismatch kernelName solutions;
      customKernelSolutions problemType failOnMismatch rest solutions'
  end.

Definition generateCustomKernelSolutions (problemType : state)
    (customKernels : list string) (failOnMismatch : bool) : M (list config) :=
  customKernelSolutions problemType failOnMismatch customKernels [].

(** ** writeBenchmarkFiles (lines 110-195) *)

(** Lines 127-131 and 134-138: keep an object when its name is new. *)
Definition addUnique (name : config → string)
    (acc : list config * gset string) (obj : config) : list config * gset string :=
  if bool_decide (name obj ∉ acc.2) then (acc.1 ++ [obj], {[ name obj ]} ∪ acc.2)
  else acc.

(** Lines 125-138: the unique kernels and kernel helpers of the solutions,
    each with the set of names seen. *)
Definition uniqueKernels (solutions : list config)
    : (list config * gset string) * (list config * gset string) :=
  foldl (λ acc solution,
           (foldl (addUnique getNameFull) acc.1 (getKernels solution),
            foldl (addUnique getKernelName) acc.2 (getHelperKernelObjects solution)))
        (([], ∅), ([], ∅)) solutions.

(** Lines 169-175: the largest [MacroTile0] and [MacroTile1], from 0. *)
Fixpoint maxMacroTiles (solutions : list config) (maxMacroTile0 maxMacroTile1 : Z)
    : M (Z * Z) :=
  match solutions with
  | [] => ret (maxMacroTile0, maxMacroTile1)
  | solution :: rest =>
      p0 ← getitem solution "MacroTile0";
      p1 ← getitem solution "MacroTile1";
      macroTile0 ← as_num p0;
      let maxMacroTile0 :=
        if macroTile0 >? maxMacroTile0 then macroTile0 else maxMacroTile0 in
      macroTile1 ← as_num p1;
      let maxMacroTile1 :=
        if macroTile1 >? maxMacroTile1 then macroTile1 else maxMacroTile1 in
      maxMacroTiles rest maxMacroTile0 maxMacroTile1
  end.

(** Lines 178-186 *)
Definition idealSizes (batched : bool) (idealM idealN : Z)
    (solutionSummationSizes : list Z) : list sizeEntry :=
  if batched then
    map (λ idealK, Exact [idealM; idealN; 1; idealK]) solutionSummationSizes
  else
    map (λ idealK, Exact [idealM; idealN; idealK]) solutionSummationSizes.

(** The solution list is changed in place by [writeSolutionsAndKernels]; the
    list as it is at the end is returned, which is what the caller sees
    through its own reference afterwards. *)
Definition writeBenchmarkFiles (stepBaseDir : path) (solutions : list config)
    (problemSizes : problemSizes) (name : string)
    (solutionSummationSizes : list Z) : M (list config) :=
  g ← get_globals;
  (if negb (MergeFiles g) then
     ensurePath (join (WorkingPath g) ["Solutions"]);;
     ensurePath (join (WorkingPath g) ["Kernels"]);;
     ret tt
   else ret tt);;
  emit CopyStaticFiles;;
  let kernels := (uniqueKernels solutions).1.1 in
  let kernelHelperOjbs := (uniqueKernels solutions).2.1 in
  let solutionSerialNaming := getSerialNaming solutions in
  let kernelSerialNaming := getSerialNaming kernels in
  let solutionMinNaming := getMinNaming solutions in
  let kernelMinNaming := getMinNaming kernels in
  first ← match solutions with
          | s :: _ => ret s
          | [] => raise IndexError
          end;
  problemType ← getitem first "ProblemType";
  let written :=
    writeSolutionsAndKernels (WorkingPath g) (CxxCompiler g) [problemType]
      solutions kernels kernelHelperOjbs
      (solutionMinNaming, solutionSerialNaming, kernelMinNaming, kernelSerialNaming)
      true in
  emit (WriteSolutionsAndKernels (WorkingPath g) [problemType] solutions
          kernels kernelHelperOjbs true);;
  let solutions := written.2 in
  newLibraryDir ← ensurePath (join (WorkingPath g) ["library"]);
  let newLibraryFile := join newLibraryDir ["TensileLibrary"] in
  let newLibrary := Library solutions kernelMinNaming in
  emit (LibraryWrite newLibraryFile newLibrary (LibraryFormat g));;
  let codeObjectFiles := map (λ f, relpath f (WorkingPath g)) written.1 in
  has ← contains "TileAwareSelection" problemType;
  tile ← (if has then
            v ← pt_getitem problemType "TileAwareSelection";
            ret (value_truthy v)
          else ret false);
  (if tile then
     '(maxMacroTile0, maxMacroTile1) ← maxMacroTiles solutions 0 0;
     let idealM := 36 * maxMacroTile0 in
     let idealN := 36 * maxMacroTile1 in
     batched ← pt_getitem problemType "Batched";
     let idealSizes :=
       idealSizes (value_truthy batched) idealM idealN solutionSummationSizes in
     pt ← items problemType;
     let idealProblemSizes := ProblemSizes pt idealSizes in
     emit (WriteClientConfig true solutions idealProblemSizes name stepBaseDir
             newLibrary codeObjectFiles true)
   else
     emit (WriteClientConfig true solutions problemSizes name stepBaseDir
             newLibrary codeObjectFiles false));;
  if bool_decide (length solutions = 0%nat) then
    printExit [Str "write solutions and kernels results 0 valid soultion."]
  else ret solutions.

(** ** benchmarkProblemType (lines 197-314) *)

(** ["{:02d}".format(n)] *)
Definition fmt02d (n : nat) : string :=
  if bool_decide (n < 10)%nat then "0" +:+ pretty n else pretty n.

(** Line 209 *)
Definition groupName_of (problemType : state) (problemSizeGroupIdx : nat) : string :=
  ProblemType_str problemType +:+ "_" +:+ fmt02d problemSizeGroupIdx.

(** Lines 234-235 *)
Fixpoint printForkParams (forkParams : list (string * list value)) : M unit :=
  match forkParams with
  | [] => ret tt
  | (k, v) :: rest =>
      print1 [Str "#     "; Str k; Str ": "; Values v];;
      printForkParams rest
  end.

(** Lines 268-269 *)
Fixpoint printSolutionNames (solutions : list config) : M unit :=
  match solutions with
  | [] => ret tt
  | solution :: rest =>
      print2 [Str "#    ("; Num 0; Str ":"; Num 0; Str ") ";
              Str (getNameFull solution)];;
      printSolutionNames rest
  end.

(** Lines 257-265 *)
Definition noSolutionsMessage (g : globalParameters) : message :=
  Str "Your parameters resulted in 0 valid solutions." ::
  (if PrintSolutionRejectionReason g then
     [Str (nl +:+ "Examine reject and backtrace messages above to see why" +:+
           "and where solutions were rejected.")]
   else
     [Str (nl +:+ "You should re-run with " +:+ dquote +:+
           "PrintSolutionRejectionReason: True" +:+ dquote +:+
           "to see why each parameter combination was rejected.")]).

(** Lines 284-285: the base name of the step's result files, from the
    working path of the step. *)
Definition resultsFileBase_of (workingPath : path) (shortName : string) : path :=
  normpath (join workingPath [".."; "Data"; shortName]).

(** Lines 241-279: enumerate the solutions of the step and write the
    benchmark files.  The value is the solution list as
    [writeBenchmarkFiles] leaves it. *)
Definition enumerateSolutions (benchmarkProcess : benchmarkProcess)
    (benchmarkStep : benchmarkStep) (stepBaseDir : path) : M (list config) :=
  let shortName := stepName benchmarkStep in
  let forkPermutations := constructForkPermutations (forkParams benchmarkStep) in
  let maxPossibleSolutions := length forkPermutations in
  regSolutions ← generateForkedSolutions (problemType benchmarkProcess)
                   (constantParams benchmarkStep) forkPermutations;
  kcSolutions ← generateCustomKernelSolutions (problemType benchmarkProcess)
                  (customKernels benchmarkStep)
                  (negb (customKernelWildcard benchmarkStep));
  let maxPossibleSolutions := (maxPossibleSolutions + length kcSolutions)%nat in
  let solutions := regSolutions ++ kcSolutions in
  print1 [Str "# Actual Solutions: "; Num (Z.of_nat (length solutions)); Str " / ";
          Num (Z.of_nat maxPossibleSolutions); Str (" after SolutionStructs" +:+ nl)];;
  g ← get_globals;
  (if bool_decide (length solutions = 0%nat) then
     printExit (noSolutionsMessage g)
   else ret tt);;
  (if PrintLevel g >=? 1 then
     printSolutionNames solutions;;
     print2 [Str HR]
   else ret tt);;
  let prevCount := length solutions in
  solutions ← writeBenchmarkFiles stepBaseDir solutions
                (problemSizes_of benchmarkStep) shortName [];
  print1 [Str "# Actual Solutions: "; Num (Z.of_nat (length solutions)); Str " / ";
          Num (Z.of_nat prevCount); Str (" after KernelWriter" +:+ nl)];;
  ret solutions.

(** Lines 237-281, the first half of the loop body: enter the directories
    of the step, enumerate and write, leave the source directory. *)
Definition enumerateAndWrite (benchmarkProcess : benchmarkProcess)
    (benchmarkStep : benchmarkStep) : M (list config) :=
  let shortName := stepName benchmarkStep in
  pushWorkingPath shortName;;
  g ← get_globals;
  let stepBaseDir := WorkingPath g in
  pushWorkingPath "source";;
  solutions ← enumerateSolutions benchmarkProcess benchmarkStep stepBaseDir;
  popWorkingPath;;
  ret solutions.

(** Lines 283-311, the second half of the loop body: run the client unless
    the results are there, write the solutions file, leave the step.  The
    value is the pair ([resultsFileBaseFinal], [benchmarkTestFails]). *)
Definition runAndPersist (groupName : string) (enableTileSelection : value)
    (benchmarkStep : benchmarkStep) (solutions : list config)
    (acc : option path * Z) : M (option path * Z) :=
  let shortName := stepName benchmarkStep in
  g ← get_globals;
  let resultsFileBase := resultsFileBase_of (WorkingPath g) shortName in
  let resultsFileBaseFinal :=
    if isFinal benchmarkStep then Some resultsFileBase else acc.1 in
  let resultsFileName := add_ext resultsFileBase ".csv" in
  let solutionsFileName := add_ext resultsFileBase ".yaml" in
  cached ← path_exists resultsFileName;
  benchmarkTestFails ←
    (if negb cached || ForceRedoBenchmarkProblems g then
       let libraryLogicPath : option path := None in
       let forBenchmark := true in
       let ran :=
         runClient (WorkingPath g) libraryLogicPath forBenchmark enableTileSelection in
       emit (RunClient libraryLogicPath forBenchmark enableTileSelection ran.1);;
       create ran.2;;
       let returncode := ran.1 in
       if negb (returncode =? 0) then
         printWarning [Str "BenchmarkProblems: Benchmark Process exited with code ";
                       Num returncode];;
         ret (acc.2 + 1)
       else ret acc.2
     else
       print1 [Str "# Already benchmarked; skipping."];;
       ret acc.2);
  emit (WriteSolutions solutionsFileName (problemSizes_of benchmarkStep) solutions);;
  create [solutionsFileName];;
  popWorkingPath;;
  print1 [Str HR; Str (nl +:+ "# "); Str groupName; Str (nl +:+ "# ");
          Str shortName; Str ": End - "; Elapsed; Str ("s" +:+ nl); Str HR;
          Str nl];;
  ret (resultsFileBaseFinal, benchmarkTestFails).

(** One pass of the loop over the steps (lines 222-311). *)
Definition benchmarkStepIteration (benchmarkProcess : benchmarkProcess)
    (groupName : string) (enableTileSelection : value)
    (acc : option path * Z) (benchmarkStep : benchmarkStep)
    : M (option path * Z) :=
  print1 [Str (nl +:+ nl)];;
  print1 [Str HR];;
  print1 [Str "# Benchmark Step: "; Str groupName; Str " - ";
          Str (stepName benchmarkStep); Str " "; Elapsed; Str "s"];;
  print1 [Str "# Num Sizes: ";
          Num (totalProblemSizes (problemSizes_of benchmarkStep))];;
  print1 [Str "# Fork Parameters:"];;
  printForkParams (forkParams benchmarkStep);;
  solutions ← enumerateAndWrite benchmarkProcess benchmarkStep;
  runAndPersist groupName enableTileSelection benchmarkStep solutions acc.

Fixpoint benchmarkSteps (benchmarkProcess : benchmarkProcess)
    (groupName : string) (enableTileSelection : value)
    (todo : list benchmarkStep) (acc : option path * Z) : M (option path * Z) :=
  match todo with
  | [] => ret acc
  | benchmarkStep :: rest =>
      acc' ← benchmarkStepIteration benchmarkProcess groupName
               enableTileSelection acc benchmarkStep;
      benchmarkSteps benchmarkProcess groupName enableTileSelection rest acc'
  end.

Definition benchmarkProblemType (problemTypeConfig problemSizeGroupConfig : yaml)
    (problemSizeGroupIdx : nat) : M (option path * Z) :=
  let benchmarkTestFails := 0 in
  print1 [];;
  print1 [Str HR];;
  print1 [Str "# Converting Config to BenchmarkProcess Object"];;
  print1 [Str HR];;
  print1 [];;
  benchmarkProcess ← lift (BenchmarkProcess problemTypeConfig problemSizeGroupConfig);
  enableTileSelection ← getitem (problemType benchmarkProcess) "TileAwareSelection";
  let groupName := groupName_of (problemType benchmarkProcess) problemSizeGroupIdx in
  pushWorkingPath groupName;;
  g ← get_globals;
  ensurePath (join (WorkingPath g) ["Data"]);;
  let totalBenchmarkSteps := length (steps benchmarkProcess) in
  let resultsFileBaseFinal : option path := None in
  print1 [Str "# NumBenchmarkSteps: "; Num (Z.of_nat totalBenchmarkSteps)];;
  print1 [];;
  print1 [Str HR];;
  print1 [Str "# Done Creating BenchmarkProcess Object"];;
  print1 [Str HR];;
  result ← benchmarkSteps benchmarkProcess groupName enableTileSelection
             (steps benchmarkProcess) (resultsFileBaseFinal, benchmarkTestFails);
  popWorkingPath;;
  ret result.

(** ** main (lines 317-377) *)

(** Lines 334-372, the body of the loop over the size groups of one
    problem type, on [totalTestFails]. *)
Definition mainGroup (dataPath : path) (problemTypeConfig : yaml)
    (idx : nat) (problemSizeGroupConfig : yaml) (totalTestFails : Z) : M Z :=
  print2 [Str "ProblemTypeConfig: "; Yaml problemTypeConfig];;
  let problemTypeObj := ProblemType problemTypeConfig in
  dataType ← getitem problemTypeObj "DataType";
  g ← get_globals;
  put_globals (set_EnableHalf (isHalf dataType) g);;
  g ← get_globals;
  let csvSuffix := if CSVExportWinner g then "_CSVWinner" else EmptyString in
  let stem := ProblemType_str problemTypeObj +:+ "_" +:+ fmt02d idx +:+ csvSuffix in
  let newResultsFileName := join dataPath [stem +:+ ".csv"] in
  let newSolutionsFileName := join dataPath [stem +:+ ".yaml"] in
  let newGranularityFileName := join dataPath [stem +:+ ".gsp"] in
  cached ← path_exists newResultsFileName;
  if ForceRedoBenchmarkProblems g || negb cached then
    '(resultsFileBaseFinal, benchmarkErrors) ←
      benchmarkProblemType problemTypeConfig problemSizeGroupConfig idx;
    let totalTestFails := totalTestFails + benchmarkErrors in
    emit (Print [Str "clientExit="; Num totalTestFails; Str " ";
                 Str (if negb (totalTestFails =? 0) then "(ERROR)" else "(PASS)");
                 Str " for "; Str (ConfigPath g)]);;
    resultsFileBase ← match resultsFileBaseFinal with
                      | Some base => ret base
                      | None => raise TypeError
                      end;
    let resultsFileName := add_ext resultsFileBase ".csv" in
    let solutionsFileName := add_ext resultsFileBase ".yaml" in
    let granularityFileName := add_ext resultsFileBase "_Granularity.csv" in
    copy resultsFileName newResultsFileName;;
    copy solutionsFileName newSolutionsFileName;;
    isfile ← path_exists granularityFileName;
    (if isfile then copy granularityFileName newGranularityFileName else ret tt);;
    ret totalTestFails
  else
    print1 [Str "# "; Str (ProblemType_str problemTypeObj); Str "_";
            Str (fmt02d idx); Str " already benchmarked; skipping."];;
    ret totalTestFails.

Fixpoint mainGroups (dataPath : path) (problemTypeConfig : yaml) (idx : nat)
    (problemSizeGroupConfigs : list yaml) (totalTestFails : Z) : M Z :=
  match problemSizeGroupConfigs with
  | [] => ret totalTestFails
  | problemSizeGroupConfig :: rest =>
      totalTestFails ← mainGroup dataPath problemTypeConfig idx
                         problemSizeGroupConfig totalTestFails;
      mainGroups dataPath problemTypeConfig (S idx) rest totalTestFails
  end.

(** Lines 327-333: one entry of the configuration, a list whose head is the
    problem type and whose tail holds the size groups. *)
Definition mainEntry (dataPath : path) (benchmarkProblemTypeConfig : list yaml)
    (totalTestFails : Z) : M Z :=
  match benchmarkProblemTypeConfig with
  | [] => raise IndexError
  | problemTypeConfig :: groups =>
      let problemSizeGroupConfigs :=
        if bool_decide (length benchmarkProblemTypeConfig < 2)%nat
        then [YDict []] else groups in
      mainGroups dataPath problemTypeConfig 0 problemSizeGroupConfigs totalTestFails
  end.

Fixpoint mainEntries (dataPath : path) (config : list (list yaml))
    (totalTestFails : Z) : M Z :=
  match config with
  | [] => ret totalTestFails
  | entry :: rest =>
      totalTestFails ← mainEntry dataPath entry totalTestFails;
      mainEntries dataPath rest totalTestFails
  end.

Definition main (config : list (list yaml)) : M unit :=
  emit GetClientExecutable;;
  g ← get_globals;
  let dataPath := join (WorkingPath g) [BenchmarkDataPath g] in
  pushWorkingPath (BenchmarkProblemsPath g);;
  ensurePath dataPath;;
  totalTestFails ← mainEntries dataPath config 0;
  popWorkingPath;;
  g ← get_globals;
  if ExitOnFails g && negb (totalTestFails =? 0) then raise (SystemExit 1)
  else ret tt.

End Model.

Arguments M {C} A.

(** ** Notions the properties are stated with *)

Section Notions.
Context `{C : Collaborators}.

(** [solution["Valid"]] holds a true value. *)
Definition Valid (s : config) : bool :=
  match s !! "Valid" with
  | Some v => truthy v
  | None => false
  end.

(** The solution object built for one fork permutation (lines 52-57). *)
Definition candidate (problemType : state) (constantParams perm : config) : config :=
  Solution (perm ∪ constantParams ∪
            {[ "ProblemType" := ProblemTypeParam problemType ]}).

(** The solution objects of the fork permutations, in their order. *)
Definition candidates (problemType : state) (constantParams : config)
    (forkPermutations : list config) : list config :=
  map (candidate problemType constantParams) forkPermutations.

(** What lines 58-61 do to ([solutions], [solutionSet]) for one solution
    object. *)
Definition accept (acc : list config * gset config) (s : config)
    : list config * gset config :=
  if Valid s then
    if bool_decide (s ∉ acc.2) then (acc.1 ++ [s], {[ s ]} ∪ acc.2) else acc
  else acc.

(** The invariant of the loop of [generateForkedSolutions]: [solutionSet] holds the members of
    [solutions]. *)
Definition set_of (acc : list config * gset config) : Prop :=
  ∀ s, s ∈ acc.2 ↔ s ∈ acc.1.

(** The notice of line 63. *)
Definition rejectionNotice (s : config) : event :=
  Print1 [Str "rejecting solution "; Str (Solution_str s)].

Definition is_rejectionNotice (e : event) : bool :=
  match e with
  | Print1 (Str "rejecting solution " :: _) => true
  | _ => false
  end.

(** The world with one more call recorded. *)
Definition record (e : event) (w : World) : World :=
  {| globals := globals w; files := files w; trace := e :: trace w |}.

(** The custom kernel [getCustomKernelSolutionObj] gives under the global
    parameters [g]. *)
Definition loadedKernel (g : globalParameters) (kernelName : string)
    : outcome config :=
  (getCustomKernelSolutionObj kernelName
     {| globals := g; files := ∅; trace := [] |}).1.

(** Every value of the problem type can be hashed: it is a scalar or a list
    of scalars. *)
Definition hashable (pt : state) : Prop :=
  map_Forall (λ _ v, is_Some (hashKey v)) pt.

#[global] Instance hashable_dec (pt : state) : Decision (hashable pt).
Proof. unfold hashable. apply _. Defined.




(** A computation is oblivious when it leaves the global parameters alone
    and its outcome depends on nothing else in the world. *)
Definition oblivious {A} (m : M A) : Prop :=
  (∀ w, globals (m w).2 = globals w) ∧
  (∀ w1 w2, globals w1 = globals w2 → (m w1).1 = (m w2).1).

(** Lines printed with [print1] or [print2] only. *)
Definition is_print (e : event) : Prop :=
  match e with
  | Print1 _ | Print2 _ => True
  | _ => False
  end.

Definition is_WriteClientConfig (e : event) : bool :=
  match e with WriteClientConfig _ _ _ _ _ _ _ _ => true | _ => false end.

(** The problem type asks for tile-aware selection. *)
Definition tileAware (pt : state) : Prop :=
  ∃ v, pt !! "TileAwareSelection" = Some v ∧ value_truthy v = true.

(** The calls [writeBenchmarkFiles] makes when it is given the summation
    sizes [sizes]; a client configuration written for tile-aware selection
    holds the ideal sizes made from [sizes], for a problem type that asks
    for it. *)
Definition written_for (sizes : list Z) (e : event) : Prop :=
  match e with
  | Print1 _ | Print2 _ | CopyStaticFiles
  | WriteSolutionsAndKernels _ _ _ _ _ _ | LibraryWrite _ _ _ => True
  | WriteClientConfig _ _ ps _ _ _ _ tile =>
      tile = true →
      tileAware (ps_problemType ps) ∧
      ∃ batched idealM idealN, ps_config ps = idealSizes batched idealM idealN sizes
  | _ => False
  end.

(** [w'] comes after [w]: the global parameters are the same, no file is
    gone, and the calls made in between all satisfy [P]. *)
Definition advances (P : event → Prop) (w w' : World) : Prop :=
  globals w' = globals w ∧ files w ⊆ files w' ∧
  ∃ d, trace w' = d ++ trace w ∧ Forall P d.

Definition framed (P : event → Prop) {A} (m : M A) : Prop :=
  ∀ w, advances P w (m w).2.

(** What [writeSolutionsAndKernels] returns when [writeBenchmarkFiles] calls
    it under the global parameters [g] (lines 119-154). *)
Definition written (g : globalParameters) (problemType : param)
    (solutions : list config) : list path * list config :=
  let kernels := (uniqueKernels solutions).1.1 in
  let kernelHelperOjbs := (uniqueKernels solutions).2.1 in
  writeSolutionsAndKernels (WorkingPath g) (CxxCompiler g) [problemType]
    solutions kernels kernelHelperOjbs
    (getMinNaming solutions, getSerialNaming solutions,
     getMinNaming kernels, getSerialNaming kernels) true.

(** An integer parameter of a solution. *)
Definition has_int (key : string) (z : Z) (s : config) : Prop :=
  s !! key = Some (Param (Scalar (SInt z))).

(** The global parameters agree on everything but the working path. *)
Definition same_flags (g g' : globalParameters) : Prop :=
  set_WorkingPath [] g = set_WorkingPath [] g'.

(** The result file of a step with the extension [ext], seen from the
    world the step starts in (lines 284-289). *)
Definition resultsFile (w : World) (benchmarkStep : benchmarkStep)
    (ext : string) : path :=
  add_ext (resultsFileBase_of
             (join (WorkingPath (globals w)) [stepName benchmarkStep])
             (stepName benchmarkStep)) ext.

(** The last lines a step prints (lines 310-311). *)
Definition endOfStep (groupName shortName : string) : event :=
  Print1 [Str HR; Str (nl +:+ "# "); Str groupName; Str (nl +:+ "# ");
          Str shortName; Str ": End - "; Elapsed; Str ("s" +:+ nl); Str HR;
          Str nl].

(** The calls of lines 291-301 for a client that is run and returns
    [returncode], the latest first. *)
Definition clientCalls (enableTileSelection : value) (returncode : Z) : list event :=
  (if negb (returncode =? 0) then
     [PrintWarning [Str "BenchmarkProblems: Benchmark Process exited with code ";
                    Num returncode]]
   else []) ++
  [RunClient None true enableTileSelection returncode].

(** The world after [popWorkingPath]. *)
Definition popped (w : World) : World :=
  {| globals := set_WorkingPath (removelast (WorkingPath (globals w))) (globals w);
     files := files w;
     trace := PopWorkingPath :: trace w |}.

(** The world after [pushWorkingPath foldername]. *)
Definition pushed (foldername : string) (w : World) : World :=
  {| globals := set_WorkingPath (join (WorkingPath (globals w)) [foldername]) (globals w);
     files := list_to_set [join (WorkingPath (globals w)) [foldername]] ∪ files w;
     trace := PushWorkingPath foldername :: trace w |}.

Definition is_RunClient (e : event) : bool :=
  match e with RunClient _ _ _ _ => true | _ => false end.

Definition is_WriteSolutions (e : event) : bool :=
  match e with WriteSolutions _ _ _ => true | _ => false end.

Definition is_push (e : event) : bool :=
  match e with PushWorkingPath _ => true | _ => false end.

Definition is_pop (e : event) : bool :=
  match e with PopWorkingPath => true | _ => false end.

(** How many calls of a kind a trace holds. *)
Definition count (f : event → bool) (d : list event) : nat :=
  length (filter (λ e, f e = true) d).

End Notions.

(** ** Further notions

    For the properties of the enumeration, of the files written and of
    the driver that are proved after those above. *)

Section MoreNotions.
Context `{C : Collaborators}.

(** How a call fails, if it does: the diagnostic of a fatal abort or the
    exception. *)
Definition failure {A} (o : outcome A) : option (message + exn) :=
  match o with
  | Ok _ => None
  | Exit msg => Some (inl msg)
  | Raise e => Some (inr e)
  end.

(** The lines of lines 81, 100 and 102. *)
Definition processingLine (kernelName : string) : event :=
  Print1 [Str "# Processing custom kernel "; Str kernelName].

Definition rejectedLine (kernelName : string) : event :=
  Print1 [Str "# Rejected "; Str kernelName; Str ": Problem Type doesn't match"].

Definition addedLine (kernelName : string) : event :=
  Print1 [Str "# Added "; Str kernelName; Str " to solutions"].

Definition is_addedLine (e : event) : bool :=
  match e with
  | Print1 [Str "# Added "; _; Str " to solutions"] => true
  | _ => false
  end.

(** The problem type of a custom kernel is the benchmark's (line 83). *)
Definition matches (problemType : state) (s : config) : bool :=
  bool_decide (s !! "ProblemType" = Some (ProblemTypeParam problemType)).

(** The solution objects of the kernels that can be loaded, in the order
    of their names. *)
Definition loaded (g : globalParameters) (customKernels : list string) : list config :=
  omap (λ k, match loadedKernel g k with Ok s => Some s | _ => None end)
       customKernels.

(** The lines printed for one custom kernel that was loaded as [s], the
    latest first. *)
Definition kernelLines (g : globalParameters) (problemType : state)
    (kernelName : string) (s : config) : list event :=
  (if matches problemType s then
     (if Valid s then []
      else if PrintSolutionRejectionReason g then [rejectionNotice s] else []) ++
     [addedLine kernelName]
   else [rejectedLine kernelName]) ++
  [processingLine kernelName].

(** [sols ++ l] for the list [l] a call returns. *)
Definition prepend (sols : list config) (o : outcome (list config))
    : outcome (list config) :=
  match o with
  | Ok l => Ok (sols ++ l)
  | Exit msg => Exit msg
  | Raise e => Raise e
  end.

(** The world [writeBenchmarkFiles] has made by line 161, when the library
    file is written: the directories are there, the static files are
    copied, the kernels are written. *)
Definition libraryWritten (problemType : param) (solutions : list config)
    (w : World) : World :=
  let g := globals w in
  let kernels := (uniqueKernels solutions).1.1 in
  let kernelHelperOjbs := (uniqueKernels solutions).2.1 in
  {| globals := g;
     files := list_to_set [join (WorkingPath g) ["library"]] ∪
              (if MergeFiles g then files w
               else list_to_set [join (WorkingPath g) ["Kernels"]] ∪
                    (list_to_set [join (WorkingPath g) ["Solutions"]] ∪ files w));
     trace := LibraryWrite (join (join (WorkingPath g) ["library"]) ["TensileLibrary"])
                (Library (written g problemType solutions).2 (getMinNaming kernels))
                (LibraryFormat g) ::
              WriteSolutionsAndKernels (WorkingPath g) [problemType] solutions
                kernels kernelHelperOjbs true ::
              CopyStaticFiles :: trace w |}.

(** The call of lines 188-192, for the problem sizes [sizes]. *)
Definition clientConfig (g : globalParameters) (problemType : param)
    (solutions : list config) (sizes : problemSizes) (name : string)
    (stepBaseDir : path) (tile : bool) : event :=
  WriteClientConfig true (written g problemType solutions).2 sizes name stepBaseDir
    (Library (written g problemType solutions).2
       (getMinNaming (uniqueKernels solutions).1.1))
    (map (λ f, relpath f (WorkingPath g)) (written g problemType solutions).1)
    tile.

(** Lines 188-195: the client configuration is written, then the solution
    list the kernel writer left is looked at. *)
Definition finished (problemType : param) (solutions : list config)
    (e : event) (w : World) : outcome (list config) * World :=
  (if bool_decide (length (written (globals w) problemType solutions).2 = 0%nat)
   then Exit [Str "write solutions and kernels results 0 valid soultion."]
   else Ok (written (globals w) problemType solutions).2,
   record e (libraryWritten problemType solutions w)).

(** The first of the two tile sizes that the solution [s] does not have
    (lines 170-171). *)
Definition missingTile (s : config) : option string :=
  match s !! "MacroTile0", s !! "MacroTile1" with
  | None, _ => Some "MacroTile0"
  | Some _, None => Some "MacroTile1"
  | Some _, Some _ => None
  end.

(** The invariant of the loops of lines 127-131 and 134-138: the names of
    the objects kept are distinct, and the set holds these names. *)
Definition named (name : config → string) (acc : list config * gset string) : Prop :=
  NoDup (name <$> acc.1) ∧ ∀ n, n ∈ acc.2 ↔ n ∈ name <$> acc.1.

(** A run of the client that returned a non-zero code. *)
Definition is_failedRun (e : event) : bool :=
  match e with RunClient _ _ _ returncode => negb (returncode =? 0) | _ => false end.

Definition is_warning (e : event) : bool :=
  match e with PrintWarning _ => true | _ => false end.

(** [resultsFileBaseFinal] after the steps [todo], all run from the working
    path [workingPath] (lines 284-287). *)
Definition finalBase (workingPath : path) (acc : option path)
    (todo : list benchmarkStep) : option path :=
  foldl (λ a step,
           if isFinal step
           then Some (resultsFileBase_of (join workingPath [stepName step])
                        (stepName step))
           else a) acc todo.

(** What [n] completed steps leave in the trace: each one entered and left
    its two directories and wrote its solutions file; the client was run at
    most once per step, every time when [force] is set, and [fails] of the
    runs returned a non-zero code, each with a warning. *)
Definition tally (force : bool) (n : nat) (fails : Z) (d : list event) : Prop :=
  count is_push d = (2 * n)%nat ∧ count is_pop d = (2 * n)%nat ∧
  count is_WriteSolutions d = n ∧
  fails = Z.of_nat (count is_failedRun d) ∧
  count is_warning d = count is_failedRun d ∧
  (count is_RunClient d ≤ n)%nat ∧
  (force = true → count is_RunClient d = n).

(** The calls of lines 201-220, before the loop over the steps, the latest
    first. *)
Definition groupHeading (benchmarkProcess : benchmarkProcess)
    (problemSizeGroupIdx : nat) : list event :=
  [ Print1 [Str HR];
    Print1 [Str "# Done Creating BenchmarkProcess Object"];
    Print1 [Str HR]; Print1 [];
    Print1 [Str "# NumBenchmarkSteps: ";
            Num (Z.of_nat (length (steps benchmarkProcess)))];
    PushWorkingPath (groupName_of (problemType benchmarkProcess) problemSizeGroupIdx);
    Print1 []; Print1 [Str HR];
    Print1 [Str "# Converting Config to BenchmarkProcess Object"];
    Print1 [Str HR]; Print1 [] ].

(** The world in which the steps of [benchmarkProblemType] start: the
    directory of the group is entered and holds a Data directory. *)
Definition groupEntered (benchmarkProcess : benchmarkProcess)
    (problemSizeGroupIdx : nat) (w : World) : World :=
  let g := globals w in
  let groupName := groupName_of (problemType benchmarkProcess) problemSizeGroupIdx in
  {| globals := set_WorkingPath (join (WorkingPath g) [groupName]) g;
     files := list_to_set [join (join (WorkingPath g) [groupName]) ["Data"]] ∪
              (list_to_set [join (WorkingPath g) [groupName]] ∪ files w);
     trace := groupHeading benchmarkProcess problemSizeGroupIdx ++ trace w |}.

(** A path component that [os.path.normpath] keeps as it is. *)
Definition plain (c : string) : Prop :=
  c ≠ EmptyString ∧ c ≠ "." ∧ c ≠ "..".

(** The global parameters agree on everything but EnableHalf. *)
Definition settled (g g' : globalParameters) : Prop :=
  set_EnableHalf false g = set_EnableHalf false g'.

(** The file with the extension [ext] that [main] keeps for the size group
    [idx] of a problem type (lines 339-346). *)
Definition promoted (dataPath : path) (g : globalParameters)
    (problemTypeConfig : yaml) (idx : nat) (ext : string) : path :=
  join dataPath
    [(ProblemType_str (ProblemType problemTypeConfig) +:+ "_" +:+ fmt02d idx +:+
      (if CSVExportWinner g then "_CSVWinner" else EmptyString)) +:+ ext].

(** The size groups of one entry of the configuration (lines 328-331). *)
Definition sizeGroups (benchmarkProblemTypeConfig : list yaml) : list yaml :=
  if bool_decide (length benchmarkProblemTypeConfig < 2)%nat
  then [YDict []] else drop 1 benchmarkProblemTypeConfig.

(** The results of every size group of every entry are kept in [fs]. *)
Definition allPromoted (dataPath : path) (g : globalParameters)
    (fs : gset path) (config : list (list yaml)) : Prop :=
  Forall (λ entry,
            ∃ problemTypeConfig, head entry = Some problemTypeConfig ∧
              is_Some (ProblemType problemTypeConfig !! "DataType") ∧
              ∀ i, (i < length (sizeGroups entry))%nat →
                   promoted dataPath g problemTypeConfig i ".csv" ∈ fs)
         config.

(** The world in which the loop of [main] starts (lines 319-325). *)
Definition mainStarted (w : World) : World :=
  let g := globals w in
  {| globals := set_WorkingPath (join (WorkingPath g) [BenchmarkProblemsPath g]) g;
     files := list_to_set [join (WorkingPath g) [BenchmarkDataPath g]] ∪
              (list_to_set [join (WorkingPath g) [BenchmarkProblemsPath g]] ∪ files w);
     trace := PushWorkingPath (BenchmarkProblemsPath g) :: GetClientExecutable ::
              trace w |}.

(** The line of lines 371-372. *)
Definition skippedLine (problemTypeConfig : yaml) (idx : nat) : event :=
  Print1 [Str "# "; Str (ProblemType_str (ProblemType problemTypeConfig)); Str "_";
          Str (fmt02d idx); Str " already benchmarked; skipping."].

(** The world in which the size group of [main] is looked at (lines
    334-336): the configuration is printed and EnableHalf is set. *)
Definition groupStarted (problemTypeConfig : yaml) (dataType : value)
    (w : World) : World :=
  {| globals := set_EnableHalf (isHalf dataType) (globals w);
     files := files w;
     trace := Print2 [Str "ProblemTypeConfig: "; Yaml problemTypeConfig] :: trace w |}.

(** Calls that neither run the client nor write a file: printed lines, the
    moves between directories, and the look-up of the client. *)
Definition is_quiet (e : event) : Prop :=
  match e with
  | Print1 _ | Print2 _ | PushWorkingPath _ | PopWorkingPath
  | GetClientExecutable => True
  | _ => False
  end.

(** The client configurations written in a trace, the latest first: the
    problem sizes and the tile-aware flag of each. *)
Definition clientConfigs (d : list event) : list (problemSizes * bool) :=
  omap (λ e, match e with
             | WriteClientConfig _ _ sizes _ _ _ _ tile => Some (sizes, tile)
             | _ => None
             end) d.


(** The line of lines 253-254. *)
Definition enumeratedLine (benchmarkStep : benchmarkStep)
    (solutions kcSolutions : list config) : event :=
  Print1 [Str "# Actual Solutions: "; Num (Z.of_nat (length solutions)); Str " / ";
          Num (Z.of_nat (length (constructForkPermutations (forkParams benchmarkStep)) +
                         length kcSolutions));
          Str (" after SolutionStructs" +:+ nl)].

(** The line of lines 278-279. *)
Definition writtenLine (solutions : list config) (prevCount : nat) : event :=
  Print1 [Str "# Actual Solutions: "; Num (Z.of_nat (length solutions)); Str " / ";
          Num (Z.of_nat prevCount); Str (" after KernelWriter" +:+ nl)].


End MoreNotions.

(** ** A small instance

    Collaborators simple enough to run the module on: a solution is invalid
    when its [ThreadTile] is 0, the kernel store holds two kernels, a
    benchmark process has one step per name listed in the size group, and
    the client fails in a step called ["Failing"]. *)

Module Demo.

Definition valid (c : config) : bool :=
  negb (bool_decide (c !! "ThreadTile" = Some (Param (Scalar (SInt 0))))).

Definition name (c : config) : string :=
  match c !! "Name" with
  | Some (Param (Scalar (SStr s))) => s
  | _ => "solution"
  end.

Fixpoint permutations (fp : list (string * list value)) : list config :=
  match fp with
  | [] => [∅]
  | (k, vs) :: rest =>
      v ← vs; p ← permutations rest; [<[ k := Param v ]> p]
  end.

Definition decodeProblemType (y : yaml) : state :=
  match y with
  | YDict d =>
      list_to_map
        (omap (λ kv, match kv.2 with
                     | YScalar s => Some (kv.1, Scalar s)
                     | _ => None
                     end) d)
  | _ => ∅
  end.

Definition gemm (tileAware : bool) : state :=
  {[ "TileAwareSelection" := Scalar (SBool tileAware);
     "Batched" := Scalar (SBool true);
     "DataType" := Scalar (SInt 0) ]}.

Definition gemmConfig (tileAware : bool) : yaml :=
  YDict [ ("TileAwareSelection", YScalar (SBool tileAware));
          ("Batched", YScalar (SBool true));
          ("DataType", YScalar (SInt 0)) ].

Definition tiles : config :=
  {[ "MacroTile0" := Param (Scalar (SInt 128));
     "MacroTile1" := Param (Scalar (SInt 64)) ]}.

Definition kernelStore (kernelName : string) : outcome config :=
  if bool_decide (kernelName = "Custom_SB") then
    Ok (<[ "ProblemType" := ProblemTypeParam (gemm false) ]> tiles)
  else if bool_decide (kernelName = "Custom_TileAware") then
    Ok (<[ "ProblemType" := ProblemTypeParam (gemm true) ]> tiles)
  else Raise (FileNotFoundError [kernelName]).

Definition step (forks : list Z) (kernels : list string) (final : bool)
    (name : string) : benchmarkStep :=
  {| forkParams := [("ThreadTile", (λ z, Scalar (SInt z)) <$> forks)];
     constantParams := tiles;
     customKernels := kernels;
     customKernelWildcard := false;
     problemSizes_of := ProblemSizes (gemm false) [Exact [1024; 1024; 1; 1024]];
     isFinal := final;
     stepName := name |}.

Definition stepNames (y : yaml) : list string :=
  match y with
  | YList l => omap (λ y, match y with YScalar (SStr s) => Some s | _ => None end) l
  | _ => []
  end.

#[export] Program Instance collaborators : Collaborators := {|
  naming := unit;
  Solution c := <[ "Valid" := Param (Scalar (SBool (valid c))) ]> c;
  Solution_str := name;
  ProblemType_str _ := "Cijk_Ailk_Bljk_SB";
  getKernels c := [c];
  getNameFull := name;
  getHelperKernelObjects _ := [];
  getKernelName := name;
  getSerialNaming _ := tt;
  getMinNaming _ := tt;
  totalProblemSizes ps := Z.of_nat (length (ps_config ps));
  ProblemType := decodeProblemType;
  isHalf _ := false;
  getCustomKernelConfig kernelName _ := kernelStore kernelName;
  checkParametersAreValid _ := Ok tt;
  constructForkPermutations := permutations;
  BenchmarkProcess ptc group :=
    Ok {| problemType := decodeProblemType ptc;
          steps := step [0; 2; 2; 4] [] true <$> stepNames group |};
  writeSolutionsAndKernels wp _ _ solutions _ _ _ _ :=
    ([wp ++ ["library"; "Kernels.so"]], solutions);
  runClient wp _ _ _ :=
    (if bool_decide (List.last wp EmptyString = "Failing") then 1 else 0,
     [add_ext (resultsFileBase_of wp (List.last wp EmptyString)) ".csv"]);
|}.
Next Obligation. intros c. cbn. rewrite lookup_insert_eq. eauto. Qed.

Definition parameters (reject force : bool) : globalParameters :=
  {| WorkingPath := ["build"];
     PrintSolutionRejectionReason := reject;
     MergeFiles := true;
     CxxCompiler := "hipcc";
     LibraryFormat := "yaml";
     PrintLevel := 1;
     ForceRedoBenchmarkProblems := force;
     CustomKernelDirectory := "CustomKernels";
     BenchmarkDataPath := "2_BenchmarkData";
     BenchmarkProblemsPath := "1_BenchmarkProblems";
     CSVExportWinner := false;
     ConfigPath := "config.yaml";
     ExitOnFails := true;
     EnableHalf := false |}.

(** A world with nothing on disk and nothing done yet. *)
Definition fresh (reject force : bool) : World :=
  {| globals := parameters reject force; files := ∅; trace := [] |}.

(** The solution object of the permutation [ThreadTile = z]. *)
Definition forked (pt : state) (z : Z) : config :=
  candidate pt tiles {[ "ThreadTile" := Param (Scalar (SInt z)) ]}.

Definition threadTiles (zs : list Z) : list config :=
  permutations [("ThreadTile", (λ z, Scalar (SInt z)) <$> zs)].

(** A process of one step for the problem type [gemm tileAware]. *)
Definition process (tileAware : bool) (s : benchmarkStep) : benchmarkProcess :=
  {| problemType := gemm tileAware; steps := [s] |}.

(** The solution object of a custom kernel of the store. *)
Definition custom (kernelName : string) (pt : state) : config :=
  Solution (<[ "CustomKernelName" := Param (Scalar (SStr kernelName)) ]>
              (<[ "KernelLanguage" := Param (Scalar (SStr "Assembly")) ]>
                 (<[ "ProblemType" := ProblemTypeParam pt ]> tiles))).

Definition groupDir : string := "Cijk_Ailk_Bljk_SB_00".



(** A solution of the tile-aware problem type with the given tiles. *)
Definition tiled (macroTile0 macroTile1 : Z) : config :=
  Solution {[ "ProblemType" := ProblemTypeParam (gemm true);
              "MacroTile0" := Param (Scalar (SInt macroTile0));
              "MacroTile1" := Param (Scalar (SInt macroTile1)) ]}.

(** The value of [TileAwareSelection] handed to the client. *)
Definition noTileSelection : value := Scalar (SBool false).

(** Steps: an ordinary one, one whose client fails, one whose permutations
    are all invalid, and one with invalid permutations and a custom kernel. *)
Definition finalStep : benchmarkStep := step [0; 2; 2; 4] [] true "Final".
Definition failingStep : benchmarkStep := step [0; 2; 2; 4] [] true "Failing".
Definition invalidStep : benchmarkStep := step [0; 0] [] true "Final".
Definition customStep : benchmarkStep := step [0] ["Custom_SB"] true "Final".

(** A world in which the results of the step ["Final"] are on disk. *)
Definition cached : World :=
  {| globals := parameters true false;
     files := {[ ["build"; "Data"; "Final.csv"] ]};
     trace := [] |}.

End Demo.

(** ** Inputs for the small instance: size groups, configurations, worlds *)

Module Cases.
Import Demo.

(** The size group with the one step [name]. *)
Definition oneStep (name : string) : yaml := YList [YScalar (SStr name)].

(** The process the small instance makes of a configuration. *)
Definition processOf (problemTypeConfig : yaml) (group : yaml) : benchmarkProcess :=
  {| problemType := decodeProblemType problemTypeConfig;
     steps := step [0; 2; 2; 4] [] true <$> stepNames group |}.

(** A problem type that asks for tile-aware selection and does not say
    whether it is batched. *)
Definition unbatched : yaml :=
  YDict [("TileAwareSelection", YScalar (SBool true)); ("DataType", YScalar (SInt 0))].

(** A world in which the results of the first size group are kept. *)
Definition kept : World :=
  {| globals := parameters true false;
     files := {[ ["build"; "2_BenchmarkData"; "Cijk_Ailk_Bljk_SB_00.csv"] ]};
     trace := [] |}.

(** A configuration with one problem type and one size group of one step. *)
Definition oneGroup (name : string) : list (list yaml) :=
  [[gemmConfig false; oneStep name]].

End Cases.

(** ** A harsher instance

    As the small instance, but the kernel store holds a kernel that is not
    valid, the kernel writer keeps no solution when there is no compiler
    (CxxCompiler is "none") and drops the solutions whose MacroTile0 is 128
    with the compiler "legacy", and the client leaves no file behind. *)

Module Harsh.

Definition kernelStore (kernelName : string) : outcome config :=
  if bool_decide (kernelName = "Custom_Invalid") then
    Ok (<[ "ThreadTile" := Param (Scalar (SInt 0)) ]>
          (<[ "ProblemType" := ProblemTypeParam (Demo.gemm false) ]> Demo.tiles))
  else Demo.kernelStore kernelName.

#[export] Program Instance harsh : Collaborators := {|
  naming := unit;
  Solution c := <[ "Valid" := Param (Scalar (SBool (Demo.valid c))) ]> c;
  Solution_str := Demo.name;
  ProblemType_str _ := "Cijk_Ailk_Bljk_SB";
  getKernels c := [c];
  getNameFull := Demo.name;
  getHelperKernelObjects _ := [];
  getKernelName := Demo.name;
  getSerialNaming _ := tt;
  getMinNaming _ := tt;
  totalProblemSizes ps := Z.of_nat (length (ps_config ps));
  ProblemType := Demo.decodeProblemType;
  isHalf _ := false;
  getCustomKernelConfig kernelName _ := kernelStore kernelName;
  checkParametersAreValid _ := Ok tt;
  constructForkPermutations := Demo.permutations;
  BenchmarkProcess ptc group :=
    Ok {| problemType := Demo.decodeProblemType ptc;
          steps := Demo.step [2; 4] [] true <$> Demo.stepNames group |};
  writeSolutionsAndKernels wp cxxCompiler _ solutions _ _ _ _ :=
    if bool_decide (cxxCompiler = "none") then ([], [])
    else if bool_decide (cxxCompiler = "legacy") then
      ([wp ++ ["library"; "Kernels.so"]],
       filter (λ s, s !! "MacroTile0" ≠ Some (Param (Scalar (SInt 128)))) solutions)
    else ([wp ++ ["library"; "Kernels.so"]], solutions);
  runClient _ _ _ _ := (0, []);
|}.
Next Obligation. intros c. cbn. rewrite lookup_insert_eq. eauto. Qed.

(** A world with nothing on disk; [compiler] is CxxCompiler. *)
Definition fresh (compiler : string) : World :=
  {| globals :=
       {| WorkingPath := ["build"];
          PrintSolutionRejectionReason := false;
          MergeFiles := true;
          CxxCompiler := compiler;
          LibraryFormat := "yaml";
          PrintLevel := 1;
          ForceRedoBenchmarkProblems := false;
          CustomKernelDirectory := "CustomKernels";
          BenchmarkDataPath := "2_BenchmarkData";
          BenchmarkProblemsPath := "1_BenchmarkProblems";
          CSVExportWinner := false;
          ConfigPath := "config.yaml";
          ExitOnFails := true;
          EnableHalf := false |};
     files := ∅; trace := [] |}.

(** The solution object of a kernel of the store. *)
Definition custom (kernelName : string) (stored : config) : config :=
  Solution (<[ "CustomKernelName" := Param (Scalar (SStr kernelName)) ]>
              (<[ "KernelLanguage" := Param (Scalar (SStr "Assembly")) ]> stored)).

Definition stored_SB : config :=
  <[ "ProblemType" := ProblemTypeParam (Demo.gemm false) ]> Demo.tiles.

Definition stored_Invalid : config :=
  <[ "ThreadTile" := Param (Scalar (SInt 0)) ]> stored_SB.

Definition stored_TileAware : config :=
  <[ "ProblemType" := ProblemTypeParam (Demo.gemm true) ]> Demo.tiles.

(** A solution for the problem type [gemm false]. *)
Definition solution : config :=
  Solution (<[ "ProblemType" := ProblemTypeParam (Demo.gemm false) ]> Demo.tiles).

End Harsh.

(** ** Running the monad *)

Section Running.
Context `{C : Collaborators}.

Lemma bind_run {A B} (m : M A) (f : A → M B) (w : World) :
  bind m f w =
  match m w with
  | (Ok a, w') => f a w'
  | (Exit msg, w') => (Exit msg, w')
  | (Raise e, w') => (Raise e, w')
  end.
Proof. reflexivity. Qed.

Lemma bind_ok {A B} (m : M A) (f : A → M B) (w w' : World) (a : A) :
  m w = (Ok a, w') → bind m f w = f a w'.
Proof. intros H. rewrite bind_run, H. reflexivity. Qed.

Lemma bind_assoc {A B D} (m : M A) (f : A → M B) (g : B → M D) (w : World) :
  bind (bind m f) g w = bind m (λ a, bind (f a) g) w.
Proof.
  rewrite !bind_run. destruct (m w) as [[a|msg|e] w']; try reflexivity.
Qed.

End Running.

(** ** generateForkedSolutions *)

Section Forked.
Context `{C : Collaborators}.

Lemma forkedSolution_run pt cp perm acc w :
  forkedSolution pt cp perm acc w =
  (Ok (accept acc (candidate pt cp perm)),
   if Valid (candidate pt cp perm) then w
   else if PrintSolutionRejectionReason (globals w)
        then record (rejectionNotice (candidate pt cp perm)) w else w).
Proof.
  unfold forkedSolution, accept, Valid. fold (candidate pt cp perm).
  destruct (Solution_has_Valid (perm ∪ cp ∪ {[ "ProblemType" := ProblemTypeParam pt ]}))
    as [v Hv].
  fold (candidate pt cp perm) in Hv.
  unfold getitem. rewrite Hv, bind_run. cbn.
  destruct (truthy v).
  - destruct (bool_decide _); reflexivity.
  - unfold bind, get_globals. destruct (PrintSolutionRejectionReason (globals w)); reflexivity.
Qed.

Lemma accept_set_of acc s : set_of acc → set_of (accept acc s).
Proof.
  intros H. unfold accept. destruct (Valid s); [|done].
  case_bool_decide; [|done].
  intros x. cbn. rewrite elem_of_union, elem_of_singleton, elem_of_app, list_elem_of_singleton.
  rewrite (H x). tauto.
Qed.

Lemma accept_cases acc s :
  set_of acc →
  (Valid s = true ∧ (s ∉ acc.1) ∧ accept acc s = (acc.1 ++ [s], {[ s ]} ∪ acc.2)) ∨
  ((Valid s = false ∨ s ∈ acc.1) ∧ accept acc s = acc).
Proof.
  intros H. unfold accept. destruct (Valid s); [|right; auto].
  case_bool_decide as Hmem.
  - left. split_and!; [done| |done]. by rewrite <- (H s).
  - right. split; [|done]. right. by apply H.
Qed.

Lemma forkedSolutions_ok pt cp perms acc w :
  ∃ sols, (forkedSolutions pt cp perms acc w).1 = Ok sols ∧
          sols = (foldl accept acc (candidates pt cp perms)).1.
Proof.
  revert acc w. induction perms as [|perm perms IH]; intros acc w; cbn.
  - eauto.
  - rewrite bind_run, forkedSolution_run. apply IH.
Qed.

(** What the loop yields from [cands] when it starts on [acc]: the members
    of [acc] followed by the new ones, each solution at the place of its
    first occurrence. *)
Lemma accept_fold cands : ∀ acc, set_of acc →
  ∃ new, (foldl accept acc cands).1 = acc.1 ++ new ∧
    NoDup new ∧
    (∀ s, s ∈ new ↔ s ∈ cands ∧ Valid s = true ∧ (s ∉ acc.1)) ∧
    (∀ l1 s l2 t, new = l1 ++ s :: l2 → t ∈ l2 →
       ∃ c1 c2, cands = c1 ++ s :: c2 ∧ (s ∉ c1) ∧ (t ∉ c1)).
Proof.
  induction cands as [|x cands IH]; intros acc Hacc; cbn.
  - exists []. rewrite app_nil_r. split_and!; [done|constructor| |].
    + intros s. split; [by intros ?%elem_of_nil|]. by intros [?%elem_of_nil _].
    + intros [|??] ???; discriminate.
  - destruct (IH (accept acc x) (accept_set_of acc x Hacc))
      as (new & Hfold & Hnd & Hin & Hord).
    destruct (accept_cases acc x Hacc) as [(Hx & Hmem & Heq)|(Hrej & Heq)];
      rewrite Heq in Hfold, Hin; cbn in Hfold, Hin.
    + (* a valid solution seen for the first time *)
      exists (x :: new).
      assert (x ∉ new) as Hxnew.
      { intros (_ & _ & Hn)%Hin. apply Hn, elem_of_app. right. by left. }
      split_and!.
      * by rewrite Heq, Hfold, <- app_assoc.
      * by constructor.
      * intros s. rewrite elem_of_cons, Hin, elem_of_app, list_elem_of_singleton, elem_of_cons.
        split.
        -- intros [->|(? & ? & ?)]; [by auto|]. split_and!; auto.
        -- intros ([->|?] & ? & ?); [by left|].
           destruct (decide (s = x)) as [->|Hne]; [by left|].
           right. split_and!; auto.
           by intros [?|?].
      * intros [|y l1] s l2 t Hnew Ht; simplify_eq/=.
        -- exists [], cands. split_and!; [done|by intros ?%elem_of_nil..].
        -- destruct (Hord l1 s l2 t eq_refl Ht) as (c1 & c2 & -> & Hs & Htc).
           exists (y :: c1), c2. split_and!; [done|..].
           ++ intros [->|?]%elem_of_cons; [|done].
              apply Hxnew, elem_of_app. right. by left.
           ++ intros [->|?]%elem_of_cons; [|done].
              apply Hxnew, elem_of_app. right. by right.
    + (* an invalid solution or a duplicate *)
      assert (x ∉ new) as Hxnew.
      { intros (_ & Hv & Hn)%Hin. destruct Hrej; [congruence|done]. }
      exists new. split_and!; [by rewrite Heq|done| |].
      * intros s. rewrite Hin, elem_of_cons. split; [intros (? & ? & ?); auto|].
        intros ([->|?] & ? & ?); [|auto]. destruct Hrej; [congruence|done].
      * intros l1 s l2 t -> Ht.
        destruct (Hord l1 s l2 t eq_refl Ht) as (c1 & c2 & -> & Hs & Htc).
        exists (x :: c1), c2. split_and!; [done|..].
        -- intros [->|?]%elem_of_cons; [|done].
           apply Hxnew, elem_of_app. right. by left.
        -- intros [->|?]%elem_of_cons; [|done].
           apply Hxnew, elem_of_app. right. by right.
Qed.

End Forked.

Section ForkedClaims.
Context `{C : Collaborators}.

Lemma bind_emit {B} (e : event) (f : unit → M B) (w : World) :
  bind (emit e) f w = f tt (record e w).
Proof. reflexivity. Qed.

(** The world after the loop: the notices for the invalid solution objects
    are added to the trace when the flag is set. *)
Lemma forkedSolutions_world pt cp perms acc w :
  (forkedSolutions pt cp perms acc w).2 =
  {| globals := globals w; files := files w;
     trace := (if PrintSolutionRejectionReason (globals w)
               then rev (map rejectionNotice
                           (filter (λ s, Valid s = false) (candidates pt cp perms)))
               else []) ++ trace w |}.
Proof.
  revert acc w. induction perms as [|perm perms IH]; intros acc w.
  - cbn. destruct w. by destruct (PrintSolutionRejectionReason _).
  - cbn [forkedSolutions]. rewrite bind_run, forkedSolution_run, IH.
    unfold candidates. cbn [map]. rewrite filter_cons.
    destruct (Valid (candidate pt cp perm)) eqn:Hv.
    + by rewrite decide_False by congruence.
    + rewrite decide_True by done.
      destruct (PrintSolutionRejectionReason (globals w)) eqn:Hflag; cbn; rewrite Hflag; [|done].
      by rewrite <- app_assoc.
Qed.

Lemma generateForkedSolutions_ok pt cp perms w :
  (generateForkedSolutions pt cp perms w).1 =
  Ok (foldl accept ([], ∅) (candidates pt cp perms)).1.
Proof.
  destruct (forkedSolutions_ok pt cp perms ([], ∅)
              (record (Print1 [Str "# Enumerating Solutions"]) w)) as (sols & H & ->).
  unfold generateForkedSolutions, print1. by rewrite bind_emit.
Qed.

Lemma count_app (f : event → bool) (d1 d2 : list event) :
  count f (d1 ++ d2) = (count f d1 + count f d2)%nat.
Proof. unfold count. by rewrite filter_app, length_app. Qed.

Lemma count_rejectionNotices (l : list config) :
  count is_rejectionNotice (rev (map rejectionNotice l)) = length l.
Proof.
  induction l as [|s l IH]; [done|]. cbn [map rev].
  rewrite count_app, IH. unfold count.
  rewrite filter_cons, decide_True by done. cbn. lia.
Qed.

(** C1: for every problem type, constant parameters and list of fork
    permutations, generateForkedSolutions returns a list of solutions; each
    of them is Valid, each comes from a permutation, no two of them are
    equal, every valid solution object of a permutation is among them, and
    they stand in the order in which the permutations first produced them:
    when [s] stands before [t] in the result, [s] is produced by a
    permutation before any permutation produces [t]. *)
Theorem generateForkedSolutions_valid_distinct_ordered
    (pt : state) (cp : config) (perms : list config) (w : World) :
  ∃ sols,
    (generateForkedSolutions pt cp perms w).1 = Ok sols ∧
    Forall (λ s, Valid s = true) sols ∧
    NoDup sols ∧
    (∀ s, s ∈ sols ↔ s ∈ candidates pt cp perms ∧ Valid s = true) ∧
    (∀ l1 s l2 t, sols = l1 ++ s :: l2 → t ∈ l2 →
       ∃ c1 c2, candidates pt cp perms = c1 ++ s :: c2 ∧ (s ∉ c1) ∧ (t ∉ c1)).
Proof.
  destruct (accept_fold (candidates pt cp perms) ([], ∅))
    as (new & Hfold & Hnd & Hin & Hord).
  { intros s. cbn. split; [by intros ?%elem_of_empty|by intros ?%elem_of_nil]. }
  cbn in Hfold, Hin.
  exists new. rewrite generateForkedSolutions_ok, Hfold. split_and!; [done| |done| |done].
  - apply Forall_forall. intros s Hs. by apply Hin in Hs as (_ & ? & _).
  - intros s. rewrite Hin. split; [intros (? & ? & _); auto|].
    intros [??]. split_and!; [done..|]. by intros ?%elem_of_nil.
Qed.

(** C7 (as the code has it): with PrintSolutionRejectionReason set,
    generateForkedSolutions prints, after its heading, exactly one rejection
    notice for every invalid solution object, in the order of the
    permutations, and nothing else (a valid solution that was seen before is
    dropped without a notice); the list it returns is the same whatever the
    flag and the rest of the world are. *)
Theorem rejection_notices_for_invalid_only
    (pt : state) (cp : config) (perms : list config) (w : World) :
  PrintSolutionRejectionReason (globals w) = true →
  history (generateForkedSolutions pt cp perms w).2 =
    history w ++ Print1 [Str "# Enumerating Solutions"] ::
      map rejectionNotice (filter (λ s, Valid s = false) (candidates pt cp perms)) ∧
  (∃ d, trace (generateForkedSolutions pt cp perms w).2 = d ++ trace w ∧
        count is_rejectionNotice d =
        length (filter (λ s, Valid s = false) (candidates pt cp perms))) ∧
  ∀ w0, (generateForkedSolutions pt cp perms w0).1 =
        (generateForkedSolutions pt cp perms w).1.
Proof.
  intros Hflag.
  assert (trace (generateForkedSolutions pt cp perms w).2 =
          rev (map rejectionNotice
                 (filter (λ s, Valid s = false) (candidates pt cp perms))) ++
          Print1 [Str "# Enumerating Solutions"] :: trace w) as Htrace.
  { unfold generateForkedSolutions, print1.
    rewrite bind_emit, forkedSolutions_world. cbn. by rewrite Hflag. }
  split_and!.
  - unfold history. rewrite Htrace, rev_app_distr. cbn.
    by rewrite rev_involutive, <- app_assoc.
  - eexists (_ ++ [_]). split.
    + rewrite Htrace, <- app_assoc. reflexivity.
    + rewrite count_app, count_rejectionNotices.
      unfold count. rewrite filter_cons, decide_False by done. cbn. lia.
  - intros w0. by rewrite !generateForkedSolutions_ok.
Qed.

End ForkedClaims.

(** ** generateCustomKernelSolutions *)

Section CustomKernels.
Context `{C : Collaborators}.

Lemma oblivious_ret {A} (a : A) : oblivious (ret a).
Proof. by split. Qed.

Lemma oblivious_raise {A} (e : exn) : oblivious (raise e : M A).
Proof. by split. Qed.

Lemma oblivious_printExit {A} (msg : message) : oblivious (printExit msg : M A).
Proof. by split. Qed.

Lemma oblivious_lift {A} (o : outcome A) : oblivious (lift o).
Proof. by split. Qed.

Lemma oblivious_emit (e : event) : oblivious (emit e).
Proof. by split. Qed.

Lemma oblivious_get_globals : oblivious get_globals.
Proof. split; [done|]. intros w1 w2 H. cbn. by rewrite H. Qed.

Lemma oblivious_bind {A B} (m : M A) (f : A → M B) :
  oblivious m → (∀ a, oblivious (f a)) → oblivious (bind m f).
Proof.
  intros [Hg Ho] Hf. split.
  - intros w. rewrite bind_run. specialize (Hg w).
    destruct (m w) as [[a|msg|e] w']; cbn in *; [|done..].
    destruct (Hf a) as [Hfg _]. by rewrite Hfg.
  - intros w1 w2 Hw. rewrite !bind_run.
    pose proof (Ho w1 w2 Hw) as Hout.
    pose proof (Hg w1) as H1. pose proof (Hg w2) as H2.
    destruct (m w1) as [o1 w1'], (m w2) as [o2 w2']; cbn in *; subst o2.
    destruct o1 as [a|msg|e]; [|done..].
    destruct (Hf a) as [_ Hfo]. apply Hfo. congruence.
Qed.

Lemma oblivious_getitem {A} (d : gmap string A) (key : string) :
  oblivious (getitem d key).
Proof. unfold getitem. destruct (d !! key); [apply oblivious_ret|apply oblivious_raise]. Qed.

Lemma oblivious_items (p : param) : oblivious (items p).
Proof. destruct p; [apply oblivious_raise|apply oblivious_ret]. Qed.

Lemma getCustomKernelSolutionObj_run (k : string) (w : World) :
  getCustomKernelSolutionObj k w = (loadedKernel (globals w) k, w).
Proof.
  unfold loadedKernel, getCustomKernelSolutionObj, lift, bind, get_globals, ret.
  cbn.
  destruct (getCustomKernelConfig k _) as [cfg|msg|e]; [|done..].
  by destruct (checkParametersAreValid _) as [[]|msg|e].
Qed.

Lemma oblivious_getCustomKernelSolutionObj (k : string) :
  oblivious (getCustomKernelSolutionObj k).
Proof.
  split; intros *; rewrite !getCustomKernelSolutionObj_run; cbn; [done|].
  by intros ->.
Qed.

Lemma loadedKernel_has_Valid (g : globalParameters) (k : string) (s : config) :
  loadedKernel g k = Ok s → is_Some (s !! "Valid").
Proof.
  unfold loadedKernel, getCustomKernelSolutionObj, lift, bind, get_globals, ret.
  cbn.
  destruct (getCustomKernelConfig k _) as [cfg|msg|e]; [|done..].
  destruct (checkParametersAreValid _) as [[]|msg|e]; [|done..].
  intros [= <-]. apply Solution_has_Valid.
Qed.

Lemma oblivious_itemSet (pt : state) : oblivious (itemSet pt).
Proof.
  unfold itemSet. destruct (mapM hashed _); [apply oblivious_ret|apply oblivious_raise].
Qed.

Lemma oblivious_customKernelSolution pt fail k sols :
  oblivious (customKernelSolution pt fail k sols).
Proof.
  unfold customKernelSolution, print1.
  apply oblivious_bind; [apply oblivious_emit|intros _].
  apply oblivious_bind; [apply oblivious_getCustomKernelSolutionObj|intros s].
  apply oblivious_bind; [apply oblivious_getitem|intros spt].
  case_bool_decide.
  - destruct fail.
    + apply oblivious_bind; [apply oblivious_itemSet|intros ?].
      apply oblivious_bind; [apply oblivious_items|intros ?].
      apply oblivious_bind; [apply oblivious_itemSet|intros ?].
      apply oblivious_printExit.
    + apply oblivious_bind; [apply oblivious_emit|intros _]. apply oblivious_ret.
  - apply oblivious_bind; [apply oblivious_emit|intros _].
    apply oblivious_bind; [apply oblivious_getitem|intros v].
    destruct (truthy v); [apply oblivious_ret|].
    apply oblivious_bind; [apply oblivious_get_globals|intros g].
    destruct (PrintSolutionRejectionReason g); [|apply oblivious_ret].
    apply oblivious_bind; [apply oblivious_emit|intros _]. apply oblivious_ret.
Qed.

Lemma oblivious_customKernelSolutions pt fail ks :
  ∀ sols, oblivious (customKernelSolutions pt fail ks sols).
Proof.
  induction ks as [|k ks IH]; intros sols; cbn.
  - apply oblivious_ret.
  - apply oblivious_bind; [apply oblivious_customKernelSolution|done].
Qed.

Lemma customKernelSolutions_app pt fail ks1 ks2 sols w :
  customKernelSolutions pt fail (ks1 ++ ks2) sols w =
  bind (customKernelSolutions pt fail ks1 sols)
       (customKernelSolutions pt fail ks2) w.
Proof.
  revert sols w. induction ks1 as [|k ks1 IH]; intros sols w; cbn; [done|].
  rewrite bind_assoc, !(bind_run (customKernelSolution _ _ _ _)).
  destruct (customKernelSolution pt fail k sols w) as [[sols'|msg|e] w']; [|done..].
  apply IH.
Qed.



(** *** The sets of items of lines 86-89 *)










#[local] Instance item_le_total : Total item_le.
Proof.
  intros [k1 v1] [k2 v2]. unfold item_le. cbn.
  destruct (String.leb_total k1 k2) as [->| ->]; [by left|by right].
Qed.


End CustomKernels.

(** ** Frames *)

Section Frames.
Context `{C : Collaborators}.

#[global] Instance advances_refl P : Reflexive (advances P).
Proof. intros w. split_and!; [done..|]. by exists []. Qed.

#[global] Instance advances_trans P : Transitive (advances P).
Proof.
  intros w1 w2 w3 (Hg1 & Hf1 & d1 & Ht1 & Hd1) (Hg2 & Hf2 & d2 & Ht2 & Hd2).
  split_and!; [congruence|set_solver|].
  exists (d2 ++ d1). split; [by rewrite Ht2, Ht1, app_assoc|by apply Forall_app].
Qed.

Lemma advances_weaken (P Q : event → Prop) w w' :
  (∀ e, P e → Q e) → advances P w w' → advances Q w w'.
Proof.
  intros HPQ (Hg & Hf & d & Ht & Hd). split_and!; [done..|].
  exists d. split; [done|]. by eapply Forall_impl.
Qed.

Lemma advances_record P e w : P e → advances P w (record e w).
Proof.
  intros He. split_and!; [done..|]. exists [e]. split; [done|]. by constructor.
Qed.

Lemma framed_weaken (P Q : event → Prop) {A} (m : M A) :
  (∀ e, P e → Q e) → framed P m → framed Q m.
Proof. intros HPQ Hm w. by eapply advances_weaken. Qed.

Lemma framed_ret P {A} (a : A) : framed P (ret a).
Proof. intros w. reflexivity. Qed.

Lemma framed_raise P {A} (e : exn) : framed P (raise e : M A).
Proof. intros w. reflexivity. Qed.

Lemma framed_printExit P {A} (msg : message) : framed P (printExit msg : M A).
Proof. intros w. reflexivity. Qed.

Lemma framed_lift P {A} (o : outcome A) : framed P (lift o).
Proof. intros w. reflexivity. Qed.

Lemma framed_get_globals P : framed P get_globals.
Proof. intros w. reflexivity. Qed.

Lemma framed_path_exists P p : framed P (path_exists p).
Proof. intros w. reflexivity. Qed.

Lemma framed_emit (P : event → Prop) e : P e → framed P (emit e).
Proof. intros He w. by apply advances_record. Qed.

Lemma framed_create P ps : framed P (create ps).
Proof.
  intros w. split_and!; [done|cbn; set_solver|]. by exists [].
Qed.

Lemma framed_bind P {A B} (m : M A) (f : A → M B) :
  framed P m → (∀ a, framed P (f a)) → framed P (bind m f).
Proof.
  intros Hm Hf w. rewrite bind_run. specialize (Hm w).
  destruct (m w) as [[a|msg|e] w']; [|done..].
  etrans; [exact Hm|apply Hf].
Qed.

Lemma framed_getitem P {A} (d : gmap string A) key : framed P (getitem d key).
Proof. unfold getitem. destruct (d !! key); [apply framed_ret|apply framed_raise]. Qed.

Lemma framed_ensurePath P p : framed P (ensurePath p).
Proof.
  apply framed_bind; [apply framed_create|intros _; apply framed_ret].
Qed.

Lemma framed_forkedSolutions pt cp perms : ∀ acc,
  framed is_print (forkedSolutions pt cp perms acc).
Proof.
  induction perms as [|perm perms IH]; intros acc; cbn; [apply framed_ret|].
  apply framed_bind; [|done]. unfold forkedSolution.
  apply framed_bind; [apply framed_getitem|intros v].
  destruct (truthy v); [case_bool_decide; apply framed_ret|].
  apply framed_bind; [apply framed_get_globals|intros g].
  destruct (PrintSolutionRejectionReason g); [|apply framed_ret].
  apply framed_bind; [by apply framed_emit|intros _; apply framed_ret].
Qed.

Lemma framed_generateForkedSolutions pt cp perms :
  framed is_print (generateForkedSolutions pt cp perms).
Proof.
  apply framed_bind; [by apply framed_emit|intros _].
  apply framed_forkedSolutions.
Qed.

Lemma framed_getCustomKernelSolutionObj P k :
  framed P (getCustomKernelSolutionObj k).
Proof. intros w. rewrite getCustomKernelSolutionObj_run. reflexivity. Qed.

Lemma framed_itemSet P (pt : state) : framed P (itemSet pt).
Proof.
  unfold itemSet. destruct (mapM hashed _); [apply framed_ret|apply framed_raise].
Qed.

Lemma framed_customKernelSolution pt fail k sols :
  framed is_print (customKernelSolution pt fail k sols).
Proof.
  unfold customKernelSolution, print1.
  apply framed_bind; [by apply framed_emit|intros _].
  apply framed_bind; [apply framed_getCustomKernelSolutionObj|intros s].
  apply framed_bind; [apply framed_getitem|intros spt].
  case_bool_decide.
  - destruct fail.
    + apply framed_bind; [apply framed_itemSet|intros ?].
      apply framed_bind; [|intros ?].
      { destruct spt; [apply framed_raise|apply framed_ret]. }
      apply framed_bind; [apply framed_itemSet|intros ?; apply framed_printExit].
    + apply framed_bind; [by apply framed_emit|intros _; apply framed_ret].
  - apply framed_bind; [by apply framed_emit|intros _].
    apply framed_bind; [apply framed_getitem|intros v].
    destruct (truthy v); [apply framed_ret|].
    apply framed_bind; [apply framed_get_globals|intros g].
    destruct (PrintSolutionRejectionReason g); [|apply framed_ret].
    apply framed_bind; [by apply framed_emit|intros _; apply framed_ret].
Qed.

Lemma framed_generateCustomKernelSolutions pt ks fail :
  framed is_print (generateCustomKernelSolutions pt ks fail).
Proof.
  unfold generateCustomKernelSolutions. generalize (@nil config).
  induction ks as [|k ks IH]; intros sols; cbn; [apply framed_ret|].
  apply framed_bind; [apply framed_customKernelSolution|done].
Qed.

Lemma framed_printForkParams fp : framed is_print (printForkParams fp).
Proof.
  induction fp as [|[k v] fp IH]; cbn; [apply framed_ret|].
  apply framed_bind; [by apply framed_emit|done].
Qed.

Lemma framed_printSolutionNames sols : framed is_print (printSolutionNames sols).
Proof.
  induction sols as [|s sols IH]; cbn; [apply framed_ret|].
  apply framed_bind; [by apply framed_emit|done].
Qed.

(** The loop of lines 169-175 does not touch the world. *)
Lemma maxMacroTiles_pure sols : ∀ max0 max1,
  ∃ o, ∀ w, maxMacroTiles sols max0 max1 w = (o, w).
Proof.
  induction sols as [|s sols IH]; intros max0 max1; cbn; [by eexists|].
  unfold getitem, as_num, bind, ret, raise.
  destruct (s !! "MacroTile0") as [p0|]; [|by eexists].
  destruct (s !! "MacroTile1") as [p1|]; [|by eexists].
  destruct p0 as [[[| | |]|]|]; try (by eexists);
    destruct p1 as [[[| | |]|]|]; try (by eexists); apply IH.
Qed.

End Frames.

(** ** writeBenchmarkFiles *)

Section WriteBenchmarkFiles.
Context `{C : Collaborators}.

Lemma framed_bind_post P {A B} (Q : A → Prop) (m : M A) (f : A → M B) :
  (∀ w a, (m w).1 = Ok a → Q a) →
  framed P m → (∀ a, Q a → framed P (f a)) → framed P (bind m f).
Proof.
  intros HQ Hm Hf w. rewrite bind_run. specialize (Hm w). specialize (HQ w).
  destruct (m w) as [[a|msg|e] w']; [|done..].
  etrans; [exact Hm|]. apply Hf. by apply HQ.
Qed.

Lemma framed_maxMacroTiles P sols max0 max1 :
  framed P (maxMacroTiles sols max0 max1).
Proof.
  intros w. destruct (maxMacroTiles_pure sols max0 max1) as [o Ho].
  rewrite Ho. reflexivity.
Qed.

Lemma framed_pt_getitem P obj key : framed P (pt_getitem obj key).
Proof. destruct obj; [apply framed_raise|apply framed_getitem]. Qed.

Lemma framed_items P obj : framed P (items obj).
Proof. destruct obj; [apply framed_raise|apply framed_ret]. Qed.

Lemma framed_contains P key obj : framed P (contains key obj).
Proof.
  destruct obj as [[[| | |]|]|]; try apply framed_ret; apply framed_raise.
Qed.

(** Lines 166: the test of the problem type. *)
Lemma tile_test_sound (problemType : param) (has : bool) (w : World) (tile : bool) :
  ((if has then
      bind (pt_getitem problemType "TileAwareSelection")
           (λ v, ret (value_truthy v))
    else ret false) w).1 = Ok tile →
  tile = true →
  ∃ pt, problemType = ProblemTypeParam pt ∧ tileAware pt.
Proof.
  destruct has; [|by intros [= <-]].
  destruct problemType as [v|pt]; [done|].
  unfold pt_getitem, getitem, bind, ret, tileAware.
  destruct (pt !! "TileAwareSelection") as [v|] eqn:Hv; [|done].
  cbn. intros [= <-] Ht. eauto.
Qed.

(** Whatever it is given, [writeBenchmarkFiles] leaves the global
    parameters alone and makes only the calls of [written_for]. *)
Lemma framed_writeBenchmarkFiles base sols ps name sizes :
  framed (written_for sizes) (writeBenchmarkFiles base sols ps name sizes).
Proof.
  unfold writeBenchmarkFiles.
  apply framed_bind; [apply framed_get_globals|intros g].
  apply framed_bind.
  { destruct (negb (MergeFiles g)); [|apply framed_ret].
    apply framed_bind; [apply framed_ensurePath|intros _].
    apply framed_bind; [apply framed_ensurePath|intros _]. apply framed_ret. }
  intros _. apply framed_bind; [by apply framed_emit|intros _].
  cbv zeta.
  apply framed_bind; [destruct sols; [apply framed_raise|apply framed_ret]|intros first].
  apply framed_bind; [apply framed_getitem|intros problemType].
  apply framed_bind; [by apply framed_emit|intros _].
  apply framed_bind; [apply framed_ensurePath|intros dir].
  apply framed_bind; [by apply framed_emit|intros _].
  apply framed_bind; [apply framed_contains|intros has].
  eapply framed_bind_post.
  { intros w tile Hrun. exact (tile_test_sound problemType has w tile Hrun). }
  { destruct has; [|apply framed_ret].
    apply framed_bind; [apply framed_pt_getitem|intros v; apply framed_ret]. }
  intros tile Htile. apply framed_bind.
  { destruct tile.
    - destruct Htile as (pt & -> & Hpt); [done|].
      apply framed_bind; [apply framed_maxMacroTiles|intros [max0 max1]].
      apply framed_bind; [apply framed_pt_getitem|intros batched].
      apply (framed_bind_post _ (λ pt', pt' = pt));
        [by intros w a [= <-]|apply framed_items|intros pt' ->].
      apply framed_emit. cbn. intros _. split; [done|by eauto].
    - by apply framed_emit. }
  intros _. case_bool_decide; [apply framed_printExit|apply framed_ret].
Qed.

(** Rewriting a run one call at a time. *)
Lemma bind_ret {A B} (a : A) (f : A → M B) (w : World) :
  bind (ret a) f w = f a w.
Proof. reflexivity. Qed.

Lemma bind_get_globals {B} (f : globalParameters → M B) (w : World) :
  bind get_globals f w = f (globals w) w.
Proof. reflexivity. Qed.

Lemma bind_ensurePath {B} (p : path) (f : path → M B) (w : World) :
  bind (ensurePath p) f w =
  f p {| globals := globals w; files := list_to_set [p] ∪ files w; trace := trace w |}.
Proof. reflexivity. Qed.

Lemma has_int_inj key z1 z2 s : has_int key z1 s → has_int key z2 s → z1 = z2.
Proof. unfold has_int. congruence. Qed.

(** The loop of lines 169-175 finds the largest tiles: when no tile is
    above [M0] (and [M1]) and one is equal to it, the maxima are [M0] and
    [M1]. *)
Lemma maxMacroTiles_bounded (M0 M1 : Z) sols : ∀ max0 max1 w,
  Forall (λ s, ∃ m0 m1, has_int "MacroTile0" m0 s ∧ has_int "MacroTile1" m1 s ∧
                        m0 ≤ M0 ∧ m1 ≤ M1) sols →
  max0 ≤ M0 → max1 ≤ M1 →
  max0 = M0 ∨ Exists (has_int "MacroTile0" M0) sols →
  max1 = M1 ∨ Exists (has_int "MacroTile1" M1) sols →
  maxMacroTiles sols max0 max1 w = (Ok (M0, M1), w).
Proof.
  induction sols as [|s sols IH]; intros max0 max1 w Hall H0 H1 E0 E1.
  - destruct E0 as [->|E0%Exists_nil], E1 as [->|E1%Exists_nil]; done.
  - apply Forall_cons in Hall as [(m0 & m1 & Hm0 & Hm1 & Hle0 & Hle1) Hall].
    cbn [maxMacroTiles]. unfold getitem. rewrite Hm0, Hm1, !bind_ret.
    cbn [as_num]. rewrite !bind_ret.
    apply IH; [done|..].
    + destruct (Z.gtb_spec m0 max0); lia.
    + destruct (Z.gtb_spec m1 max1); lia.
    + destruct E0 as [->|[E0|E0]%Exists_cons]; [| |by right].
      * left. destruct (Z.gtb_spec m0 M0); lia.
      * left. rewrite (has_int_inj _ _ _ _ Hm0 E0).
        destruct (Z.gtb_spec M0 max0); lia.
    + destruct E1 as [->|[E1|E1]%Exists_cons]; [| |by right].
      * left. destruct (Z.gtb_spec m1 M1); lia.
      * left. rewrite (has_int_inj _ _ _ _ Hm1 E1).
        destruct (Z.gtb_spec M1 max1); lia.
Qed.

(** The run of [writeBenchmarkFiles] for a problem type that asks for
    tile-aware selection, once the largest tiles are known. *)
Lemma writeBenchmarkFiles_tileAware base first rest ps name sizes w pt v batched max0 max1 :
  first !! "ProblemType" = Some (ProblemTypeParam pt) →
  pt !! "TileAwareSelection" = Some v → value_truthy v = true →
  pt !! "Batched" = Some batched →
  (∀ w', maxMacroTiles (written (globals w) (ProblemTypeParam pt) (first :: rest)).2 0 0 w' =
         (Ok (max0, max1), w')) →
  (written (globals w) (ProblemTypeParam pt) (first :: rest)).2 ≠ [] →
  ∃ lib cof pre,
    (writeBenchmarkFiles base (first :: rest) ps name sizes w).1 =
      Ok (written (globals w) (ProblemTypeParam pt) (first :: rest)).2 ∧
    trace (writeBenchmarkFiles base (first :: rest) ps name sizes w).2 =
      WriteClientConfig true
        (written (globals w) (ProblemTypeParam pt) (first :: rest)).2
        (ProblemSizes pt
           (idealSizes (value_truthy batched) (36 * max0) (36 * max1) sizes))
        name base lib cof true :: pre ++ trace w ∧
    count is_WriteClientConfig pre = 0%nat.
Proof.
  intros Hpt Hv Htile Hbatched Hmax Hne.
  destruct (writeBenchmarkFiles base (first :: rest) ps name sizes w)
    as [o w'] eqn:Hwbf.
  unfold writeBenchmarkFiles in Hwbf. cbv zeta in Hwbf.
  rewrite bind_get_globals in Hwbf.
  assert (∃ u,
    (if negb (MergeFiles (globals w)) then
       bind (ensurePath (join (WorkingPath (globals w)) ["Solutions"]))
         (λ _, bind (ensurePath (join (WorkingPath (globals w)) ["Kernels"]))
                 (λ _, ret ()))
     else ret ()) w = (Ok (), u) ∧ trace u = trace w) as (u & Hrun & Hu).
  { destruct (MergeFiles (globals w)); cbn [negb]; [by eexists|].
    rewrite !bind_ensurePath. by eexists. }
  rewrite (bind_ok _ _ _ _ _ Hrun) in Hwbf.
  rewrite bind_emit, bind_ret in Hwbf. unfold getitem at 1 in Hwbf.
  rewrite Hpt, bind_ret in Hwbf.
  rewrite bind_emit, bind_ensurePath, bind_emit in Hwbf.
  unfold contains in Hwbf. rewrite bind_ret in Hwbf.
  rewrite bool_decide_true in Hwbf by (rewrite Hv; eauto).
  cbn [pt_getitem] in Hwbf. unfold getitem in Hwbf.
  rewrite Hv, bind_assoc, !bind_ret, Htile in Hwbf.
  fold (written (globals w) (ProblemTypeParam pt) (first :: rest)) in Hwbf.
  rewrite bind_assoc, (bind_run (maxMacroTiles _ _ _)), Hmax in Hwbf.
  rewrite Hbatched, bind_assoc, bind_ret in Hwbf.
  cbn [items] in Hwbf. rewrite bind_assoc, !bind_ret, bind_emit in Hwbf.
  rewrite bool_decide_false in Hwbf by (by destruct (written _ _ _).2).
  injection Hwbf as <- <-. cbn. rewrite Hu.
  eexists _, _, [_; _; _]. split_and!; reflexivity.
Qed.

(** C5 (as the code has it): take solutions whose problem type asks for
    tile-aware selection, and let the largest MacroTile0 be 128 and the
    largest MacroTile1 be 64 among the solutions as the kernel writer leaves
    them: the loop of lines 169-175 runs over the list after
    writeSolutionsAndKernels has taken out of it what it could not
    generate, not over the list writeBenchmarkFiles was given.  Given the
    summation sizes [256, 512], writeBenchmarkFiles then writes one client
    configuration, for tile-aware selection, and its problem sizes are the
    exact sizes with M = 36*128 = 4608, N = 36*64 = 2304 and K = 256, then
    512, with a batch dimension of 1 before K when the problem type is
    batched; the caller's problem sizes [ps] are not used. *)
Theorem tile_aware_ideal_sizes
    (base : path) (first : config) (rest : list config) (ps : problemSizes)
    (name : string) (w : World) (pt : state) (v batched : value) :
  first !! "ProblemType" = Some (ProblemTypeParam pt) →
  pt !! "TileAwareSelection" = Some v → value_truthy v = true →
  pt !! "Batched" = Some batched →
  Forall (λ s, ∃ m0 m1, has_int "MacroTile0" m0 s ∧ has_int "MacroTile1" m1 s ∧
                        m0 ≤ 128 ∧ m1 ≤ 64)
         (written (globals w) (ProblemTypeParam pt) (first :: rest)).2 →
  Exists (has_int "MacroTile0" 128)
         (written (globals w) (ProblemTypeParam pt) (first :: rest)).2 →
  Exists (has_int "MacroTile1" 64)
         (written (globals w) (ProblemTypeParam pt) (first :: rest)).2 →
  ∃ lib cof pre,
    (writeBenchmarkFiles base (first :: rest) ps name [256; 512] w).1 =
      Ok (written (globals w) (ProblemTypeParam pt) (first :: rest)).2 ∧
    trace (writeBenchmarkFiles base (first :: rest) ps name [256; 512] w).2 =
      WriteClientConfig true
        (written (globals w) (ProblemTypeParam pt) (first :: rest)).2
        (ProblemSizes pt
           (if value_truthy batched
            then [Exact [4608; 2304; 1; 256]; Exact [4608; 2304; 1; 512]]
            else [Exact [4608; 2304; 256]; Exact [4608; 2304; 512]]))
        name base lib cof true :: pre ++ trace w ∧
    count is_WriteClientConfig pre = 0%nat.
Proof.
  intros Hpt Hv Htile Hbatched Hall H0 H1.
  destruct (writeBenchmarkFiles_tileAware base first rest ps name [256; 512] w
              pt v batched 128 64) as (lib & cof & pre & Hok & Htrace & Hpre);
    [done..| | |].
  - intros w'. by apply maxMacroTiles_bounded; [|lia|lia|right|right].
  - intros Hnil. rewrite Hnil in H0. by apply Exists_nil in H0.
  - exists lib, cof, pre. split_and!; [done| |done].
    rewrite Htrace. by destruct (value_truthy batched).
Qed.

End WriteBenchmarkFiles.

(** ** One step of the pipeline *)

Section Step.
Context `{C : Collaborators}.

(** The second half of a step, spelled out: [invoked] tells whether the
    client is run. *)
Lemma runAndPersist_run groupName ets step sols acc w :
  let g := globals w in
  let base := resultsFileBase_of (WorkingPath g) (stepName step) in
  let ran := runClient (WorkingPath g) None true ets in
  let invoked :=
    negb (bool_decide (add_ext base ".csv" ∈ files w)) || ForceRedoBenchmarkProblems g in
  runAndPersist groupName ets step sols acc w =
  (Ok (if isFinal step then Some base else acc.1,
       if invoked && negb (ran.1 =? 0) then acc.2 + 1 else acc.2),
   {| globals := set_WorkingPath (removelast (WorkingPath g)) g;
      files := list_to_set [add_ext base ".yaml"] ∪
               (if invoked then list_to_set ran.2 ∪ files w else files w);
      trace := endOfStep groupName (stepName step) :: PopWorkingPath ::
               WriteSolutions (add_ext base ".yaml") (problemSizes_of step) sols ::
               (if invoked then clientCalls ets ran.1
                else [Print1 [Str "# Already benchmarked; skipping."]]) ++
               trace w |}).
Proof.
  cbv zeta. unfold runAndPersist, clientCalls, endOfStep.
  unfold bind, get_globals, path_exists, emit, create, printWarning, print1,
    popWorkingPath, put_globals, ret. cbn.
  destruct (bool_decide _); cbn;
    destruct (ForceRedoBenchmarkProblems (globals w)); cbn;
    try destruct (_ =? 0); reflexivity.
Qed.

Lemma pushWorkingPath_run foldername w :
  pushWorkingPath foldername w =
  (Ok (join (WorkingPath (globals w)) [foldername]), pushed foldername w).
Proof. reflexivity. Qed.

Lemma popWorkingPath_run w : popWorkingPath w = (Ok (), popped w).
Proof. reflexivity. Qed.

Lemma printForkParams_run fp : ∀ w,
  ∃ d, printForkParams fp w =
       (Ok (), {| globals := globals w; files := files w; trace := d ++ trace w |}) ∧
       Forall is_print d.
Proof.
  induction fp as [|[k v] fp IH]; intros w; cbn [printForkParams].
  - exists []. by destruct w.
  - unfold print1. rewrite bind_emit.
    destruct (IH (record (Print1 [Str "#     "; Str k; Str ": "; Values v]) w))
      as (d & -> & Hd).
    exists (d ++ [Print1 [Str "#     "; Str k; Str ": "; Values v]]). split.
    + cbn. by rewrite <- app_assoc.
    + apply Forall_app. split; [done|]. by repeat constructor.
Qed.

Lemma is_print_written_for sizes e : is_print e → written_for sizes e.
Proof. by destruct e. Qed.

Lemma framed_enumerateSolutions bp step dir :
  framed (written_for []) (enumerateSolutions bp step dir).
Proof.
  unfold enumerateSolutions. cbv zeta.
  apply framed_bind; [|intros reg].
  { eapply framed_weaken; [apply is_print_written_for|].
    apply framed_generateForkedSolutions. }
  apply framed_bind; [|intros kc].
  { eapply framed_weaken; [apply is_print_written_for|].
    apply framed_generateCustomKernelSolutions. }
  apply framed_bind; [by apply framed_emit|intros _].
  apply framed_bind; [apply framed_get_globals|intros g].
  apply framed_bind; [case_bool_decide; [apply framed_printExit|apply framed_ret]|intros _].
  apply framed_bind; [|intros _].
  { destruct (_ >=? _); [|apply framed_ret].
    apply framed_bind; [|intros _; by apply framed_emit].
    eapply framed_weaken; [apply is_print_written_for|].
    apply framed_printSolutionNames. }
  apply framed_bind; [apply framed_writeBenchmarkFiles|intros sols].
  apply framed_bind; [by apply framed_emit|intros _]. apply framed_ret.
Qed.

Lemma enumerateAndWrite_run bp step w :
  enumerateAndWrite bp step w =
  match enumerateSolutions bp step
          (join (WorkingPath (globals w)) [stepName step])
          (pushed "source" (pushed (stepName step) w)) with
  | (Ok sols, w3) => (Ok sols, popped w3)
  | (Exit msg, w3) => (Exit msg, w3)
  | (Raise e, w3) => (Raise e, w3)
  end.
Proof.
  unfold enumerateAndWrite. cbv zeta.
  rewrite bind_run, pushWorkingPath_run, bind_get_globals.
  rewrite bind_run, pushWorkingPath_run, bind_run.
  by destruct (enumerateSolutions _ _ _ _) as [[sols|msg|e] w3].
Qed.

Lemma same_flags_set_WorkingPath p g : same_flags g (set_WorkingPath p g).
Proof. reflexivity. Qed.

(** How a step goes: it prints its heading, enters its two directories and
    enumerates; then either it has failed, or it goes on to the second half
    from the step directory. *)
Lemma step_cases bp groupName ets acc step w :
  ∃ head body w3,
    Forall is_print head ∧ Forall (written_for []) body ∧
    same_flags (globals w) (globals w3) ∧
    WorkingPath (globals w3) =
      join (join (WorkingPath (globals w)) [stepName step]) ["source"] ∧
    files w ⊆ files w3 ∧
    trace w3 = body ++ PushWorkingPath "source" ::
               PushWorkingPath (stepName step) :: head ++ trace w ∧
    ((∃ o, benchmarkStepIteration bp groupName ets acc step w = (o, w3) ∧
           ∀ r, o ≠ Ok r) ∨
     (∃ sols, benchmarkStepIteration bp groupName ets acc step w =
              runAndPersist groupName ets step sols acc (popped w3))).
Proof.
  unfold benchmarkStepIteration, print1. rewrite !bind_emit.
  match goal with |- context [bind (printForkParams _) _ ?u] =>
    destruct (printForkParams_run (forkParams step) u) as (d & Hrun & Hd);
    set (w1 := u) in * end.
  rewrite (bind_ok _ _ _ _ _ Hrun).
  match goal with |- context [bind (enumerateAndWrite _ _) _ ?u] =>
    set (wh := u) in * end.
  rewrite bind_run, enumerateAndWrite_run.
  pose proof (framed_enumerateSolutions bp step
                (join (WorkingPath (globals wh)) [stepName step])
                (pushed "source" (pushed (stepName step) wh)))
    as (Hg & Hf & body & Ht & Hbody).
  destruct (enumerateSolutions _ _ _ _) as [o w3]. cbn [snd] in Hg, Hf, Ht.
  exists (d ++ take 5 (trace w1)), body, w3.
  split_and!.
  - apply Forall_app. split; [done|]. by repeat constructor.
  - done.
  - unfold same_flags. by rewrite Hg.
  - by rewrite Hg.
  - etrans; [|exact Hf]. cbn. set_solver.
  - rewrite Ht. cbn. by rewrite <- app_assoc.
  - destruct o as [sols|msg|e]; [right; by exists sols|left..];
      eexists; (split; [reflexivity|done]).
Qed.

End Step.

Section StepClaims.
Context `{C : Collaborators}.

Lemma count_cons (f : event → bool) (e : event) (d : list event) :
  count f (e :: d) = ((if f e then 1 else 0) + count f d)%nat.
Proof.
  unfold count. rewrite filter_cons. destruct (f e); [by rewrite decide_True|].
  by rewrite decide_False.
Qed.

Ltac count_events := repeat (rewrite count_cons || rewrite count_app).

Lemma count_none (f : event → bool) (d : list event) :
  Forall (λ e, f e = false) d → count f d = 0%nat.
Proof.
  induction 1 as [|e d He _ IH]; [done|]. by rewrite count_cons, He, IH.
Qed.

Lemma count_none_inv (f : event → bool) (d : list event) (e : event) :
  count f d = 0%nat → e ∈ d → f e = false.
Proof.
  induction d as [|x d IH]; [by intros _ ?%elem_of_nil|].
  rewrite count_cons. intros Hc [->|Hin]%elem_of_cons.
  - destruct (f x); [discriminate|done].
  - apply IH; [|done]. destruct (f x); [discriminate|done].
Qed.

(** Between the heading and the second half of a step there is no push, no
    pop, no run of the client and no solutions file. *)
Lemma written_for_other (f : event → bool) sizes d :
  f = is_push ∨ f = is_pop ∨ f = is_RunClient ∨ f = is_WriteSolutions →
  Forall (written_for sizes) d → count f d = 0%nat.
Proof.
  intros Hf Hd. apply count_none. eapply Forall_impl; [exact Hd|].
  intros e He. by destruct Hf as [->|[->|[->| ->]]], e.
Qed.

Lemma is_print_other (f : event → bool) d :
  f = is_push ∨ f = is_pop ∨ f = is_RunClient ∨ f = is_WriteSolutions →
  Forall is_print d → count f d = 0%nat.
Proof.
  intros Hf Hd. apply (written_for_other f []); [done|].
  eapply Forall_impl; [exact Hd|]. apply is_print_written_for.
Qed.

Lemma count_clientCalls_other (f : event → bool) ets rc :
  f = is_push ∨ f = is_pop ∨ f = is_WriteSolutions →
  count f (clientCalls ets rc) = 0%nat.
Proof.
  intros Hf. unfold clientCalls.
  by destruct Hf as [->|[->| ->]], (negb _).
Qed.

Lemma step_trace_shape (a b c p q1 q2 : event) (calls body head t : list event) :
  a :: b :: c :: calls ++ p :: body ++ q1 :: q2 :: head ++ t =
  (a :: b :: c :: calls ++ p :: body ++ q1 :: q2 :: head) ++ t.
Proof.
  cbn. do 3 f_equal. rewrite <- app_assoc. cbn. do 2 f_equal.
  by rewrite <- app_assoc.
Qed.

(** The two ways a step goes, with the world it ends in: it fails while
    enumerating, or it completes; [invoked] tells whether the client is
    run. *)
Lemma step_outcomes bp groupName ets acc step w :
  ∃ head body w3,
    Forall is_print head ∧ Forall (written_for []) body ∧ files w ⊆ files w3 ∧
    ((∃ o, benchmarkStepIteration bp groupName ets acc step w = (o, w3) ∧
           (∀ r, o ≠ Ok r) ∧
           trace w3 = (body ++ PushWorkingPath "source" ::
                       PushWorkingPath (stepName step) :: head) ++ trace w) ∨
     (∃ sols,
        let base := resultsFileBase_of
                      (join (WorkingPath (globals w)) [stepName step])
                      (stepName step) in
        let invoked :=
          negb (bool_decide (resultsFile w step ".csv" ∈ files w3)) ||
          ForceRedoBenchmarkProblems (globals w) in
        let ran :=
          runClient (join (WorkingPath (globals w)) [stepName step]) None true ets in
        (benchmarkStepIteration bp groupName ets acc step w).1 =
          Ok (if isFinal step then Some base else acc.1,
              if invoked && negb (ran.1 =? 0) then acc.2 + 1 else acc.2) ∧
        WorkingPath (globals (benchmarkStepIteration bp groupName ets acc step w).2) =
          WorkingPath (globals w) ∧
        files (benchmarkStepIteration bp groupName ets acc step w).2 =
          list_to_set [resultsFile w step ".yaml"] ∪
          (if invoked then list_to_set ran.2 ∪ files w3 else files w3) ∧
        trace (benchmarkStepIteration bp groupName ets acc step w).2 =
          (endOfStep groupName (stepName step) :: PopWorkingPath ::
           WriteSolutions (resultsFile w step ".yaml") (problemSizes_of step) sols ::
           (if invoked then clientCalls ets ran.1
            else [Print1 [Str "# Already benchmarked; skipping."]]) ++
           PopWorkingPath :: body ++ PushWorkingPath "source" ::
           PushWorkingPath (stepName step) :: head) ++ trace w)).
Proof.
  destruct (step_cases bp groupName ets acc step w)
    as (head & body & w3 & Hhead & Hbody & Hflags & Hwp & Hfiles & Htrace & Hcase).
  exists head, body, w3. split_and!; [done..|].
  destruct Hcase as [(o & Hrun & Hfail)|(sols & Hrun)].
  { left. exists o. split_and!; [done..|]. rewrite Htrace. by rewrite <- app_assoc. }
  right. exists sols. cbv zeta.
  rewrite Hrun, runAndPersist_run.
  cbn [fst snd globals popped WorkingPath set_WorkingPath trace files
       ForceRedoBenchmarkProblems].
  rewrite Hwp. unfold join. rewrite !removelast_last.
  assert (ForceRedoBenchmarkProblems (globals w3) =
          ForceRedoBenchmarkProblems (globals w)) as ->.
  { symmetry. exact (f_equal ForceRedoBenchmarkProblems Hflags). }
  split_and!; [done..|].
  by rewrite Htrace, step_trace_shape.
Qed.

(** C9: when a step completes without a fatal abort, the working path
    after the step is the working path before it, so the stack is as deep as
    it was: the step pushed twice (its directory and the source directory
    in it) and popped twice.  This holds on every path through the step,
    whether the client is skipped, succeeds or returns a non-zero code. *)
Theorem working_path_restored
    (bp : benchmarkProcess) (groupName : string) (ets : value)
    (acc : option path * Z) (step : benchmarkStep) (w : World)
    (r : option path * Z) :
  (benchmarkStepIteration bp groupName ets acc step w).1 = Ok r →
  WorkingPath (globals (benchmarkStepIteration bp groupName ets acc step w).2) =
    WorkingPath (globals w) ∧
  length (WorkingPath (globals (benchmarkStepIteration bp groupName ets acc step w).2)) =
    length (WorkingPath (globals w)) ∧
  ∃ d, trace (benchmarkStepIteration bp groupName ets acc step w).2 = d ++ trace w ∧
       count is_push d = 2%nat ∧ count is_pop d = 2%nat.
Proof.
  intros Hok.
  destruct (step_outcomes bp groupName ets acc step w)
    as (head & body & w3 & Hhead & Hbody & Hfiles &
        [(o & Hrun & Hfail & _)|(sols & _ & Hwp & _ & Htrace)]).
  { rewrite Hrun in Hok. by destruct (Hfail r). }
  rewrite Hwp. split_and!; [done..|].
  eexists. split; [exact Htrace|].
  count_events.
  rewrite (written_for_other is_push [] body), (is_print_other is_push head) by auto.
  rewrite (written_for_other is_pop [] body), (is_print_other is_pop head) by auto.
  cbn. destruct (_ || _); [|done]. by rewrite !count_clientCalls_other by auto.
Qed.

(** C2: in every step, when the results file of the step (results base +
    ".csv") exists as the step starts and ForceRedoBenchmarkProblems is
    unset, the client is not run in the step; and whenever the step
    completes, with the client run or skipped, the solutions file (results
    base + ".yaml") has been written, once, with the problem sizes of the
    step. *)
Theorem cached_step_skips_client
    (bp : benchmarkProcess) (groupName : string) (ets : value)
    (acc : option path * Z) (step : benchmarkStep) (w : World) :
  ∃ d, trace (benchmarkStepIteration bp groupName ets acc step w).2 = d ++ trace w ∧
    (resultsFile w step ".csv" ∈ files w →
     ForceRedoBenchmarkProblems (globals w) = false →
     count is_RunClient d = 0%nat) ∧
    (∀ r, (benchmarkStepIteration bp groupName ets acc step w).1 = Ok r →
       (∃ sols, WriteSolutions (resultsFile w step ".yaml")
                  (problemSizes_of step) sols ∈ d) ∧
       count is_WriteSolutions d = 1%nat ∧
       resultsFile w step ".yaml" ∈
         files (benchmarkStepIteration bp groupName ets acc step w).2).
Proof.
  destruct (step_outcomes bp groupName ets acc step w)
    as (head & body & w3 & Hhead & Hbody & Hfiles &
        [(o & Hrun & Hfail & Htrace)|(sols & Hok & _ & Hf & Htrace)]).
  - eexists. rewrite Hrun. split; [exact Htrace|]. split.
    + intros _ _. count_events.
      by rewrite (written_for_other is_RunClient [] body),
                 (is_print_other is_RunClient head) by auto.
    + intros r [= Hr]. by destruct (Hfail r).
  - cbv zeta in Hok, Hf, Htrace. eexists. split; [exact Htrace|]. split.
    + intros Hcsv Hforce. rewrite Hforce.
      rewrite bool_decide_true by (by apply Hfiles). cbn [negb orb].
      count_events.
      by rewrite (written_for_other is_RunClient [] body),
                 (is_print_other is_RunClient head) by auto.
    + intros r _. split_and!.
      * exists sols. apply elem_of_cons. right. apply elem_of_cons. right.
        by left.
      * count_events.
        rewrite (written_for_other is_WriteSolutions [] body),
                (is_print_other is_WriteSolutions head) by auto.
        cbn. destruct (_ || _); [|done].
        by rewrite !count_clientCalls_other by auto.
      * rewrite Hf. apply elem_of_union. left. apply elem_of_list_to_set. by left.
Qed.

(** C4: in every step in which the client is run and returns a non-zero
    code, the failure counter goes up by exactly one, the step goes on to
    write its solutions file after the run and completes, and the pipeline
    goes on with the steps that follow from the world the step ends in: the
    non-zero code aborts nothing. *)
Theorem client_failure_is_counted
    (bp : benchmarkProcess) (groupName : string) (ets : value)
    (acc : option path * Z) (step : benchmarkStep) (w : World)
    (d : list event) (lp : option path) (fb : bool) (e : value) (rc : Z) :
  trace (benchmarkStepIteration bp groupName ets acc step w).2 = d ++ trace w →
  RunClient lp fb e rc ∈ d →
  rc ≠ 0 →
  ∃ final,
    (benchmarkStepIteration bp groupName ets acc step w).1 = Ok (final, acc.2 + 1) ∧
    (∃ sols d1 d2,
       d = d2 ++ WriteSolutions (resultsFile w step ".yaml")
                   (problemSizes_of step) sols :: d1 ∧
       RunClient lp fb e rc ∈ d1) ∧
    count is_RunClient d = 1%nat ∧
    ∀ rest,
      benchmarkSteps bp groupName ets (step :: rest) acc w =
      benchmarkSteps bp groupName ets rest (final, acc.2 + 1)
        (benchmarkStepIteration bp groupName ets acc step w).2.
Proof.
  intros Hd Hin Hrc.
  destruct (step_outcomes bp groupName ets acc step w)
    as (head & body & w3 & Hhead & Hbody & Hfiles &
        [(o & Hrun & Hfail & Htrace)|(sols & Hok & _ & Hf & Htrace)]).
  { exfalso. rewrite Hrun in Hd. cbn [snd] in Hd. rewrite Htrace in Hd.
    apply app_inv_tail in Hd. subst d.
    pose proof (written_for_other is_RunClient [] body) as Hb.
    pose proof (is_print_other is_RunClient head) as Hh.
    assert (count is_RunClient
              (body ++ PushWorkingPath "source" ::
               PushWorkingPath (stepName step) :: head) = 0%nat) as Hc.
    { count_events. by rewrite Hb, Hh by auto. }
    by pose proof (count_none_inv _ _ _ Hc Hin). }
  cbv zeta in Hok, Htrace.
  rewrite Htrace in Hd. apply app_inv_tail in Hd. subst d.
  pose proof (written_for_other is_RunClient [] body) as Hb.
  pose proof (is_print_other is_RunClient head) as Hh.
  destruct (negb _ || _) eqn:Hinvoked.
  - (* the client is run *)
    assert (@RunClient naming lp fb e rc =
            RunClient None true ets
              (runClient (join (WorkingPath (globals w)) [stepName step])
                 None true ets).1) as Hev.
    { apply elem_of_cons in Hin as [?|Hin]; [done|].
      apply elem_of_cons in Hin as [?|Hin]; [done|].
      apply elem_of_cons in Hin as [?|Hin]; [done|].
      apply elem_of_app in Hin as [Hin|Hin].
      - unfold clientCalls in Hin. apply elem_of_app in Hin as [Hin|Hin].
        + destruct (negb (_ =? 0)); [|by apply elem_of_nil in Hin].
          by apply list_elem_of_singleton in Hin.
        + by apply list_elem_of_singleton in Hin.
      - exfalso.
        assert (count is_RunClient
                  (PopWorkingPath :: body ++ PushWorkingPath "source" ::
                   PushWorkingPath (stepName step) :: head) = 0%nat) as Hc.
        { count_events. by rewrite Hb, Hh by auto. }
        by pose proof (count_none_inv _ _ _ Hc Hin). }
    injection Hev as -> -> -> Hran. rewrite <- Hran in *.
    assert (negb (rc =? 0) = true) as Hnz.
    { apply negb_true_iff, Z.eqb_neq, Hrc. }
    rewrite Hnz in Hok. cbn [andb] in Hok.
    eexists. split; [exact Hok|]. split_and!.
    + eexists sols, _, [_; _]. split; [reflexivity|].
      apply elem_of_app. left. unfold clientCalls. rewrite Hnz.
      apply elem_of_app. right. by apply list_elem_of_singleton.
    + count_events. rewrite Hb, Hh by auto.
      unfold clientCalls. rewrite Hnz. reflexivity.
    + intros rest. cbn [benchmarkSteps]. rewrite bind_run.
      destruct (benchmarkStepIteration bp groupName ets acc step w) as [o w'].
      cbn in Hok. by subst o.
  - (* the client is skipped: there is no run in the step *)
    exfalso.
    assert (count is_RunClient
              (endOfStep groupName (stepName step) :: PopWorkingPath ::
               WriteSolutions (resultsFile w step ".yaml") (problemSizes_of step) sols ::
               [Print1 [Str "# Already benchmarked; skipping."]] ++
               PopWorkingPath :: body ++ PushWorkingPath "source" ::
               PushWorkingPath (stepName step) :: head) = 0%nat) as Hc.
    { count_events. by rewrite Hb, Hh by auto. }
    by pose proof (count_none_inv _ _ _ Hc Hin).
Qed.

End StepClaims.

(** ** The enumeration of a step *)

Section Enumeration.
Context `{C : Collaborators}.

Lemma accept_invalid cands : ∀ acc,
  Forall (λ s, Valid s = false) cands → foldl accept acc cands = acc.
Proof.
  induction cands as [|s cands IH]; intros acc Hall; [done|].
  apply Forall_cons in Hall as [Hs Hall]. cbn.
  unfold accept at 2. rewrite Hs. by apply IH.
Qed.

Lemma generateForkedSolutions_none pt cp perms w :
  (∀ perm, perm ∈ perms → Valid (candidate pt cp perm) = false) →
  (generateForkedSolutions pt cp perms w).1 = Ok [].
Proof.
  intros Hall. rewrite generateForkedSolutions_ok, accept_invalid; [done|].
  apply Forall_forall. intros s (perm & -> & Hperm)%list_elem_of_fmap. by apply Hall.
Qed.

End Enumeration.

(** ** A process without steps *)

Section ZeroSteps.
Context `{C : Collaborators}.

Lemma bind_lift_ok {A B} (a : A) (f : A → M B) (w : World) :
  bind (lift (Ok a)) f w = f a w.
Proof. reflexivity. Qed.

Lemma bind_put_globals {B} (g : globalParameters) (f : unit → M B) (w : World) :
  bind (put_globals g) f w =
  f () {| globals := g; files := files w; trace := trace w |}.
Proof. reflexivity. Qed.

Lemma bind_path_exists {B} (p : path) (f : bool → M B) (w : World) :
  bind (path_exists p) f w = f (bool_decide (p ∈ files w)) w.
Proof. reflexivity. Qed.

(** [benchmarkProblemType] on a process without steps: it enters the
    directory of the group, makes the Data directory, and leaves. *)
Lemma benchmarkProblemType_zero_steps ptc gc idx w bp ets :
  BenchmarkProcess ptc gc = Ok bp → steps bp = [] →
  problemType bp !! "TileAwareSelection" = Some ets →
  (benchmarkProblemType ptc gc idx w).1 = Ok (None, 0) ∧
  WorkingPath (globals (benchmarkProblemType ptc gc idx w).2) = WorkingPath (globals w) ∧
  ∃ d, trace (benchmarkProblemType ptc gc idx w).2 = d ++ trace w ∧
       count is_RunClient d = 0%nat ∧ count is_WriteSolutions d = 0%nat ∧
       count is_push d = 1%nat ∧ count is_pop d = 1%nat.
Proof.
  intros Hbp Hsteps Hets.
  destruct (benchmarkProblemType ptc gc idx w) as [o w'] eqn:Hrun.
  unfold benchmarkProblemType, print1 in Hrun. cbv zeta in Hrun.
  rewrite !bind_emit, Hbp, bind_lift_ok in Hrun.
  unfold getitem in Hrun. rewrite Hets, bind_ret in Hrun.
  rewrite bind_run, pushWorkingPath_run, bind_get_globals, bind_ensurePath in Hrun.
  rewrite !bind_emit, Hsteps in Hrun. cbn [benchmarkSteps] in Hrun.
  rewrite bind_ret, bind_run, popWorkingPath_run in Hrun.
  injection Hrun as <- <-. cbn. unfold join. rewrite removelast_last.
  split_and!; [done..|].
  eexists [_; _; _; _; _; _; _; _; _; _; _; _]. split; [reflexivity|].
  by vm_compute.
Qed.

(** C8 (as the code has it): for a process without steps
    benchmarkProblemType completes and returns no results base and a zero
    failure count; it runs no client and writes no file of solutions, and
    after entering the directory of the group and making its Data directory
    it leaves the working path as it found it.  The driver then fails on
    that (problem type, size group) pair: with no final step there is no
    results base to add ".csv" to (a TypeError), unless the results of the
    pair are already there and ForceRedoBenchmarkProblems is unset, in which
    case the pair is skipped. *)
Theorem zero_step_process_stops_the_driver
    (ptc gc : yaml) (idx : nat) (w : World) (bp : benchmarkProcess)
    (ets dataType : value) (dataPath : path) (totalTestFails : Z) :
  BenchmarkProcess ptc gc = Ok bp → steps bp = [] →
  problemType bp !! "TileAwareSelection" = Some ets →
  ProblemType ptc !! "DataType" = Some dataType →
  (benchmarkProblemType ptc gc idx w).1 = Ok (None, 0) ∧
  WorkingPath (globals (benchmarkProblemType ptc gc idx w).2) = WorkingPath (globals w) ∧
  (∃ d, trace (benchmarkProblemType ptc gc idx w).2 = d ++ trace w ∧
        count is_RunClient d = 0%nat ∧ count is_WriteSolutions d = 0%nat ∧
        count is_push d = 1%nat ∧ count is_pop d = 1%nat) ∧
  (mainGroup dataPath ptc idx gc totalTestFails w).1 =
    if ForceRedoBenchmarkProblems (globals w) ||
       negb (bool_decide
               (join dataPath
                  [(ProblemType_str (ProblemType ptc) +:+ "_" +:+ fmt02d idx +:+
                    (if CSVExportWinner (globals w) then "_CSVWinner" else EmptyString)) +:+
                   ".csv"] ∈ files w))
    then Raise TypeError else Ok totalTestFails.
Proof.
  intros Hbp Hsteps Hets Hdt.
  destruct (benchmarkProblemType_zero_steps ptc gc idx w bp ets Hbp Hsteps Hets)
    as (Hok & Hwp & Hd).
  split_and!; [done..|].
  unfold mainGroup, print2. cbv zeta.
  rewrite bind_emit. unfold getitem. rewrite Hdt, bind_ret.
  rewrite bind_get_globals, bind_put_globals, bind_get_globals, bind_path_exists.
  cbn [globals files record set_EnableHalf ForceRedoBenchmarkProblems CSVExportWinner].
  destruct (_ || _); [|reflexivity].
  rewrite bind_run.
  match goal with |- context [benchmarkProblemType ptc gc idx ?u] =>
    destruct (benchmarkProblemType_zero_steps ptc gc idx u bp ets Hbp Hsteps Hets)
      as (Hok' & _);
    destruct (benchmarkProblemType ptc gc idx u) as [o u'] end.
  cbn [fst] in Hok'. subst o. reflexivity.
Qed.

End ZeroSteps.

(** ** generateForkedSolutions, further *)

Section ForkedMore.
Context `{C : Collaborators}.

Lemma foldl_accept_set_of cands : ∀ acc, set_of acc → set_of (foldl accept acc cands).
Proof.
  induction cands as [|s cands IH]; intros acc Hacc; [done|].
  cbn. by apply IH, accept_set_of.
Qed.

Lemma accept_known cands : ∀ acc,
  set_of acc →
  (∀ s, s ∈ cands → Valid s = true → s ∈ acc.1) →
  foldl accept acc cands = acc.
Proof.
  induction cands as [|s cands IH]; intros acc Hacc Hknown; [done|].
  cbn. destruct (accept_cases acc s Hacc) as [(Hv & Hnew & _)|(_ & ->)].
  - destruct Hnew. apply Hknown; [by left|done].
  - apply IH; [done|]. intros t Ht. apply Hknown. by right.
Qed.

Lemma accept_sublist cands : ∀ acc, set_of acc →
  ∃ new, (foldl accept acc cands).1 = acc.1 ++ new ∧ new `sublist_of` cands.
Proof.
  induction cands as [|s cands IH]; intros acc Hacc.
  - exists []. by rewrite app_nil_r.
  - cbn. destruct (IH (accept acc s) (accept_set_of acc s Hacc)) as (new & Hfold & Hsub).
    destruct (accept_cases acc s Hacc) as [(_ & _ & Heq)|(_ & Heq)];
      rewrite Hfold, Heq.
    + exists (s :: new). cbn. rewrite <- app_assoc.
      split; [done|]. by apply sublist_skip.
    + exists new. split; [done|]. by apply sublist_cons.
Qed.

Lemma accept_all cands : ∀ acc, set_of acc →
  Forall (λ s, Valid s = true) cands → NoDup cands →
  (∀ s, s ∈ cands → s ∉ acc.1) →
  (foldl accept acc cands).1 = acc.1 ++ cands.
Proof.
  induction cands as [|s cands IH]; intros acc Hacc Hv Hnd Hfresh.
  - by rewrite app_nil_r.
  - apply Forall_cons in Hv as [Hs Hv]. apply NoDup_cons in Hnd as [Hnotin Hnd].
    cbn. destruct (accept_cases acc s Hacc) as [(_ & _ & Heq)|([Hinv|Hin] & _)].
    + rewrite IH; [|by apply accept_set_of|done|done|].
      * rewrite Heq. cbn. by rewrite <- app_assoc.
      * rewrite Heq. cbn. intros t Ht [Hin| ->%list_elem_of_singleton]%elem_of_app.
        -- apply (Hfresh t); [by right|done].
        -- done.
    + congruence.
    + destruct (Hfresh s); [by left|done].
Qed.

Lemma sublist_full {A} (l k : list A) :
  l `sublist_of` k → length l = length k → l = k.
Proof.
  induction 1 as [|x l k Hsub IH|x l k Hsub IH]; cbn; intros Hlen.
  - done.
  - f_equal. apply IH. lia.
  - apply sublist_length in Hsub. lia.
Qed.

(** X1: with PrintSolutionRejectionReason unset, generateForkedSolutions
    does nothing to the world but print its heading: no rejection notice, no
    file, no change of a global parameter, whatever the permutations are. *)
Theorem generateForkedSolutions_quiet
    (pt : state) (cp : config) (perms : list config) (w : World) :
  PrintSolutionRejectionReason (globals w) = false →
  (generateForkedSolutions pt cp perms w).2 =
  record (Print1 [Str "# Enumerating Solutions"]) w.
Proof.
  intros Hflag. unfold generateForkedSolutions, print1.
  rewrite bind_emit, forkedSolutions_world. cbn. by rewrite Hflag.
Qed.

(** X2: permutations whose solution objects were already produced add
    nothing: when every solution object of [more] is one of [perms],
    generateForkedSolutions returns for [perms ++ more] the list it returns
    for [perms].  Listing the permutations twice changes nothing. *)
Theorem generateForkedSolutions_repeats_dropped
    (pt : state) (cp : config) (perms more : list config) (w : World) :
  (∀ perm, perm ∈ more → candidate pt cp perm ∈ candidates pt cp perms) →
  (generateForkedSolutions pt cp (perms ++ more) w).1 =
  (generateForkedSolutions pt cp perms w).1.
Proof.
  intros Hseen. rewrite !generateForkedSolutions_ok. f_equal.
  unfold candidates. rewrite map_app, foldl_app.
  fold (candidates pt cp perms). fold (candidates pt cp more).
  assert (set_of (([], ∅) : list config * gset config)) as H0.
  { intros s. cbn. split; [by intros ?%elem_of_empty|by intros ?%elem_of_nil]. }
  rewrite accept_known; [done|by apply foldl_accept_set_of|].
  intros s (perm & -> & Hperm)%list_elem_of_fmap Hv.
  destruct (accept_fold (candidates pt cp perms) ([], ∅) H0) as (new & -> & _ & Hin & _).
  cbn. apply Hin. split_and!; [by apply Hseen|done|]. by intros ?%elem_of_nil.
Qed.

(** X3: the list generateForkedSolutions returns is a subsequence of the
    solution objects of the permutations.  It is never longer than the list
    of permutations, and it is as long exactly when every solution object is
    valid and no two are equal; it is then the list of all solution objects,
    in the order of the permutations. *)
Theorem generateForkedSolutions_subsequence
    (pt : state) (cp : config) (perms : list config) (w : World) :
  ∃ sols,
    (generateForkedSolutions pt cp perms w).1 = Ok sols ∧
    sols `sublist_of` candidates pt cp perms ∧
    (length sols ≤ length perms)%nat ∧
    (length sols = length perms ↔
     Forall (λ s, Valid s = true) (candidates pt cp perms) ∧
     NoDup (candidates pt cp perms)) ∧
    (length sols = length perms → sols = candidates pt cp perms).
Proof.
  assert (set_of (([], ∅) : list config * gset config)) as H0.
  { intros s. cbn. split; [by intros ?%elem_of_empty|by intros ?%elem_of_nil]. }
  destruct (accept_sublist (candidates pt cp perms) ([], ∅) H0) as (sols & Hfold & Hsub).
  cbn in Hfold. exists sols. rewrite generateForkedSolutions_ok, Hfold.
  assert (length (candidates pt cp perms) = length perms) as Hlen.
  { unfold candidates. by rewrite length_map. }
  assert (length sols = length perms → sols = candidates pt cp perms) as Hfull.
  { intros H. apply sublist_full; [done|]. by rewrite Hlen. }
  split_and!; [done|done| | |done].
  - rewrite <- Hlen. by apply sublist_length.
  - split.
    + intros Heq. rewrite <- (Hfull Heq).
      destruct (accept_fold (candidates pt cp perms) ([], ∅) H0)
        as (new & Hnew & Hnd & Hin & _).
      cbn in Hnew. rewrite Hfold in Hnew. subst new. split; [|done].
      apply Forall_forall. intros s Hs. by apply Hin in Hs as (_ & ? & _).
    + intros [Hv Hnd]. rewrite <- Hlen. f_equal.
      rewrite <- Hfold. rewrite accept_all; [done..|]. by intros s _ ?%elem_of_nil.
Qed.

End ForkedMore.

(** ** Custom kernels, further *)

Section CustomMore.
Context `{C : Collaborators}.

(** X4: when the stored configuration of a custom kernel is found and its
    parameters, ProblemType apart, are accepted, getCustomKernelSolutionObj
    returns the Solution of that configuration with KernelLanguage set to
    "Assembly" and CustomKernelName set to the name of the kernel, whatever
    was stored under these two keys, and every other entry as stored; the
    world is left as it was. *)
Theorem getCustomKernelSolutionObj_sets_language_and_name
    (kernelName : string) (w : World) (kernelConfig : config) :
  getCustomKernelConfig kernelName (CustomKernelDirectory (globals w)) = Ok kernelConfig →
  checkParametersAreValid ((λ p : param, [p]) <$> delete "ProblemType" kernelConfig) =
    Ok () →
  ∃ c,
    getCustomKernelSolutionObj kernelName w = (Ok (Solution c), w) ∧
    c !! "KernelLanguage" = Some (Param (Scalar (SStr "Assembly"))) ∧
    c !! "CustomKernelName" = Some (Param (Scalar (SStr kernelName))) ∧
    ∀ key, key ≠ "KernelLanguage" → key ≠ "CustomKernelName" →
           c !! key = kernelConfig !! key.
Proof.
  intros Hload Hcheck. eexists. split_and!.
  - unfold getCustomKernelSolutionObj. rewrite bind_get_globals, Hload, bind_lift_ok.
    rewrite Hcheck, bind_lift_ok. reflexivity.
  - rewrite lookup_insert_ne by done. by rewrite lookup_insert_eq.
  - by rewrite lookup_insert_eq.
  - intros key H1 H2. by rewrite !lookup_insert_ne.
Qed.

Lemma customKernelSolution_acc pt fail k sols w :
  customKernelSolution pt fail k sols w =
  (prepend sols (customKernelSolution pt fail k [] w).1,
   (customKernelSolution pt fail k [] w).2).
Proof.
  unfold customKernelSolution, print1.
  rewrite !bind_emit, !(bind_run (getCustomKernelSolutionObj k)),
    getCustomKernelSolutionObj_run.
  destruct (loadedKernel _ k) as [s|msg|e]; [|done..].
  unfold getitem. destruct (s !! "ProblemType") as [spt|]; [|done].
  rewrite !bind_ret. case_bool_decide.
  - destruct fail; [|by rewrite !bind_emit; cbn; rewrite app_nil_r].
    rewrite !bind_run. destruct (itemSet pt _) as [[a|msg|e] w1]; [|done..].
    destruct spt as [v|cpt]; [done|]. cbn [items]. rewrite !bind_ret, !bind_run.
    by destruct (itemSet cpt _) as [[b|msg|e] w2].
  - rewrite !bind_emit. destruct (s !! "Valid") as [v|]; [|done].
    rewrite !bind_ret. destruct (truthy v); [done|].
    rewrite !bind_get_globals.
    destruct (PrintSolutionRejectionReason _); cbn; by rewrite app_nil_r.
Qed.

Lemma prepend_prepend sols l o :
  prepend sols (prepend l o) = prepend (sols ++ l) o.
Proof. destruct o; cbn; [|done..]. by rewrite app_assoc. Qed.

Lemma customKernelSolutions_acc pt fail ks : ∀ sols w,
  customKernelSolutions pt fail ks sols w =
  (prepend sols (customKernelSolutions pt fail ks [] w).1,
   (customKernelSolutions pt fail ks [] w).2).
Proof.
  induction ks as [|k ks IH]; intros sols w.
  - cbn. by rewrite app_nil_r.
  - cbn [customKernelSolutions]. rewrite !bind_run.
    rewrite (customKernelSolution_acc pt fail k sols w).
    destruct (customKernelSolution pt fail k [] w) as [[l|msg|e] w1]; [|done..].
    cbn [prepend fst snd].
    rewrite (IH (sols ++ l)), (IH ([] ++ l)). cbn [fst snd app].
    by rewrite prepend_prepend.
Qed.

(** X6: generateCustomKernelSolutions keeps no record of the kernels it has
    seen: the solutions for [ks1 ++ ks2] are those for [ks1] followed by
    those for [ks2].  Unlike a solution of the fork permutations, a kernel
    listed twice is kept twice. *)
Theorem generateCustomKernelSolutions_concatenates
    (pt : state) (ks1 ks2 : list string) (fail : bool) (w : World)
    (sols1 sols2 : list config) :
  (generateCustomKernelSolutions pt ks1 fail w).1 = Ok sols1 →
  (generateCustomKernelSolutions pt ks2 fail w).1 = Ok sols2 →
  (generateCustomKernelSolutions pt (ks1 ++ ks2) fail w).1 = Ok (sols1 ++ sols2).
Proof.
  unfold generateCustomKernelSolutions. intros H1 H2.
  rewrite customKernelSolutions_app, bind_run.
  destruct (oblivious_customKernelSolutions pt fail ks1 []) as [Hg _].
  specialize (Hg w).
  destruct (customKernelSolutions pt fail ks1 [] w) as [o w1].
  cbn in H1, Hg. subst o.
  rewrite customKernelSolutions_acc. cbn [fst].
  destruct (oblivious_customKernelSolutions pt fail ks2 []) as [_ Ho].
  by rewrite (Ho w1 w Hg), H2.
Qed.

Lemma customKernelSolution_failure pt fail k sols w f :
  failure (loadedKernel (globals w) k) = Some f →
  failure (customKernelSolution pt fail k sols w).1 = Some f ∧
  (customKernelSolution pt fail k sols w).2 = record (processingLine k) w.
Proof.
  intros Hf. unfold customKernelSolution, print1.
  rewrite bind_emit, bind_run, getCustomKernelSolutionObj_run. cbn [globals record].
  by destruct (loadedKernel (globals w) k) as [s|msg|e].
Qed.

(** X5: a custom kernel that cannot be loaded (its configuration is not
    found, or its parameters are refused) ends the enumeration, with
    failOnMismatch set or not: once the kernels listed before it are
    through, generateCustomKernelSolutions fails as the load did, right
    after the line "# Processing custom kernel" of that kernel; the kernels
    listed after it are not looked at. *)
Theorem custom_kernel_load_failure_ends_enumeration
    (pt : state) (ks1 ks2 : list string) (k : string) (fail : bool) (w : World)
    (sols1 : list config) (f : message + exn) :
  failure (loadedKernel (globals w) k) = Some f →
  (generateCustomKernelSolutions pt ks1 fail w).1 = Ok sols1 →
  failure (generateCustomKernelSolutions pt (ks1 ++ k :: ks2) fail w).1 = Some f ∧
  (generateCustomKernelSolutions pt (ks1 ++ k :: ks2) fail w).2 =
    record (processingLine k) (generateCustomKernelSolutions pt ks1 fail w).2.
Proof.
  unfold generateCustomKernelSolutions. intros Hf H1.
  rewrite customKernelSolutions_app, bind_run.
  destruct (oblivious_customKernelSolutions pt fail ks1 []) as [Hg _].
  specialize (Hg w).
  destruct (customKernelSolutions pt fail ks1 [] w) as [o w1].
  cbn in H1, Hg. subst o. cbn [customKernelSolutions snd]. rewrite bind_run.
  rewrite <- Hg in Hf.
  destruct (customKernelSolution_failure pt fail k sols1 w1 f Hf) as [Hfail Hw].
  destruct (customKernelSolution pt fail k sols1 w1) as [[l|msg|e] w2];
    cbn in Hfail, Hw; [done|by subst w2..].
Qed.

Lemma customKernelSolution_loaded pt fail k s sols w :
  loadedKernel (globals w) k = Ok s →
  is_Some (s !! "ProblemType") →
  (fail = true → matches pt s = true) →
  customKernelSolution pt fail k sols w =
  (Ok (if matches pt s && Valid s then sols ++ [s] else sols),
   {| globals := globals w; files := files w;
      trace := kernelLines (globals w) pt k s ++ trace w |}).
Proof.
  intros Hload [spt Hspt] Hstrict.
  destruct (loadedKernel_has_Valid _ _ _ Hload) as [v Hv].
  unfold customKernelSolution, print1, kernelLines, matches, Valid in *.
  rewrite Hspt in Hstrict.
  rewrite bind_emit, bind_run, getCustomKernelSolutionObj_run. cbn [globals record].
  rewrite Hload. unfold getitem. rewrite Hspt, bind_ret, Hv.
  destruct (decide (spt = ProblemTypeParam pt)) as [->|Hne].
  - rewrite bool_decide_false by (by intros []).
    rewrite (bool_decide_true (Some _ = Some _)) by done.
    rewrite bind_emit, bind_ret. cbn [andb].
    destruct (truthy v); [done|].
    rewrite bind_get_globals. cbn [globals record].
    by destruct (PrintSolutionRejectionReason (globals w)).
  - rewrite bool_decide_true by done.
    rewrite (bool_decide_false (Some _ = Some _)) in * by congruence.
    destruct fail; [by specialize (Hstrict eq_refl)|].
    by rewrite bind_emit.
Qed.

Lemma loaded_cons g k ks s :
  loadedKernel g k = Ok s → loaded g (k :: ks) = s :: loaded g ks.
Proof. intros H. unfold loaded. cbn. by rewrite H. Qed.

Lemma customKernelSolutions_loaded pt fail ks : ∀ sols w,
  (∀ k, k ∈ ks → ∃ s, loadedKernel (globals w) k = Ok s ∧ is_Some (s !! "ProblemType") ∧
                      (fail = true → matches pt s = true)) →
  ∃ d,
    customKernelSolutions pt fail ks sols w =
    (Ok (sols ++ filter (λ s, matches pt s && Valid s = true) (loaded (globals w) ks)),
     {| globals := globals w; files := files w; trace := d ++ trace w |}) ∧
    count is_addedLine d =
      length (filter (λ s, matches pt s = true) (loaded (globals w) ks)).
Proof.
  induction ks as [|k ks IH]; intros sols w Hks.
  - exists []. cbn. rewrite app_nil_r. by destruct w.
  - destruct (Hks k) as (s & Hload & Hspt & Hstrict); [by left|].
    cbn [customKernelSolutions]. rewrite bind_run.
    rewrite (customKernelSolution_loaded pt fail k s sols w Hload Hspt Hstrict).
    match goal with |- context [customKernelSolutions pt fail ks ?l ?u] =>
      destruct (IH l u) as (d & -> & Hcount) end.
    { intros k' Hk'. cbn [globals]. apply Hks. by right. }
    cbn [globals files trace].
    exists (d ++ kernelLines (globals w) pt k s). split.
    + rewrite (loaded_cons _ _ _ _ Hload), filter_cons, <- (app_assoc d).
      destruct (matches pt s && Valid s).
      * by rewrite decide_True, <- app_assoc.
      * by rewrite decide_False.
    + cbn [globals] in Hcount.
      rewrite count_app, Hcount, (loaded_cons _ _ _ _ Hload), filter_cons.
      unfold kernelLines.
      destruct (matches pt s).
      * rewrite decide_True by done. cbn [length].
        destruct (Valid s); [|destruct (PrintSolutionRejectionReason (globals w))];
          repeat (rewrite count_cons || rewrite count_app); cbn; lia.
      * rewrite decide_False by done.
        repeat (rewrite count_cons || rewrite count_app). cbn. lia.
Qed.

(** X7: when every listed kernel can be loaded and carries a problem type
    (and, with failOnMismatch set, that problem type is the one
    benchmarked), generateCustomKernelSolutions returns exactly the loaded
    solutions whose problem type is the one benchmarked and that are valid,
    in the order of the names. *)
Theorem generateCustomKernelSolutions_keeps_matching_valid
    (pt : state) (ks : list string) (fail : bool) (w : World) :
  (∀ k, k ∈ ks → ∃ s, loadedKernel (globals w) k = Ok s ∧ is_Some (s !! "ProblemType") ∧
                      (fail = true → matches pt s = true)) →
  (generateCustomKernelSolutions pt ks fail w).1 =
  Ok (filter (λ s, matches pt s && Valid s = true) (loaded (globals w) ks)).
Proof.
  intros Hks. unfold generateCustomKernelSolutions.
  by destruct (customKernelSolutions_loaded pt fail ks [] w Hks) as (d & -> & _).
Qed.

(** X8: the line "# Added <kernel> to solutions" is printed for every kernel
    whose problem type is the one benchmarked, before its Valid flag is
    looked at.  Under the hypothesis of X7 the number of these lines is the
    number of kernels with that problem type; the list returned is at most
    that long, and as long only when each of these kernels is valid. *)
Theorem added_line_for_every_matching_kernel
    (pt : state) (ks : list string) (fail : bool) (w : World) :
  (∀ k, k ∈ ks → ∃ s, loadedKernel (globals w) k = Ok s ∧ is_Some (s !! "ProblemType") ∧
                      (fail = true → matches pt s = true)) →
  ∃ d sols,
    generateCustomKernelSolutions pt ks fail w =
      (Ok sols, {| globals := globals w; files := files w; trace := d ++ trace w |}) ∧
    count is_addedLine d =
      length (filter (λ s, matches pt s = true) (loaded (globals w) ks)) ∧
    (length sols ≤ count is_addedLine d)%nat ∧
    (length sols = count is_addedLine d ↔
     Forall (λ s, matches pt s = true → Valid s = true) (loaded (globals w) ks)).
Proof.
  intros Hks. unfold generateCustomKernelSolutions.
  destruct (customKernelSolutions_loaded pt fail ks [] w Hks) as (d & -> & Hcount).
  exists d. eexists. split; [reflexivity|]. rewrite Hcount. cbn [app].
  split; [done|]. clear Hcount Hks.
  induction (loaded (globals w) ks) as [|s l IH]; [by split; [|split]|].
  rewrite !filter_cons, Forall_cons. destruct IH as [IHle IHeq].
  destruct (matches pt s) eqn:Hm, (Valid s) eqn:Hv; cbn [andb];
    repeat case_decide; try done; cbn [length].
  - split; [lia|]. rewrite <- IHeq. split; [intros; split; [done|lia]|].
    intros [_ ?]. lia.
  - split; [lia|]. split; [lia|]. intros [Hs _]. by specialize (Hs eq_refl).
  - split; [done|]. rewrite <- IHeq. split; [by intros; split|by intros [_ ?]].
  - split; [done|]. rewrite <- IHeq. split; [by intros; split|by intros [_ ?]].
Qed.

End CustomMore.

(** ** writeBenchmarkFiles, further *)

Section WriteMore.
Context `{C : Collaborators}.

(** Lines 113-115 *)
Lemma ensureDirectories_run {B} (g : globalParameters) (f : () → M B) (w : World) :
  bind (if negb (MergeFiles g) then
          bind (ensurePath (join (WorkingPath g) ["Solutions"]))
            (λ _, bind (ensurePath (join (WorkingPath g) ["Kernels"]))
                    (λ _, ret ()))
        else ret ()) f w =
  f () {| globals := globals w;
          files := (if MergeFiles g then files w
                    else list_to_set [join (WorkingPath g) ["Kernels"]] ∪
                         (list_to_set [join (WorkingPath g) ["Solutions"]] ∪ files w));
          trace := trace w |}.
Proof.
  destruct (MergeFiles g); cbn [negb].
  - rewrite bind_ret. by destruct w.
  - by rewrite bind_assoc, bind_ensurePath, bind_assoc, bind_ensurePath, bind_ret.
Qed.

(** [writeBenchmarkFiles] up to the library file. *)
Lemma writeBenchmarkFiles_library base first rest ps name sizes w problemType :
  first !! "ProblemType" = Some problemType →
  writeBenchmarkFiles base (first :: rest) ps name sizes w =
  bind (contains "TileAwareSelection" problemType)
    (λ has,
       bind (if has then
               bind (pt_getitem problemType "TileAwareSelection")
                    (λ v, ret (value_truthy v))
             else ret false)
         (λ tile,
            bind (if tile then
                    bind (maxMacroTiles (written (globals w) problemType (first :: rest)).2 0 0)
                      (λ '(maxMacroTile0, maxMacroTile1),
                         bind (pt_getitem problemType "Batched")
                           (λ batched,
                              bind (items problemType)
                                (λ pt,
                                   emit (clientConfig (globals w) problemType (first :: rest)
                                           (ProblemSizes pt
                                              (idealSizes (value_truthy batched)
                                                 (36 * maxMacroTile0) (36 * maxMacroTile1)
                                                 sizes))
                                           name base true))))
                  else emit (clientConfig (globals w) problemType (first :: rest)
                               ps name base false))
              (λ _, if bool_decide
                         (length (written (globals w) problemType (first :: rest)).2 = 0%nat)
                    then printExit
                           [Str "write solutions and kernels results 0 valid soultion."]
                    else ret (written (globals w) problemType (first :: rest)).2)))
    (libraryWritten problemType (first :: rest) w).
Proof.
  intros Hpt. unfold writeBenchmarkFiles. cbv zeta.
  rewrite bind_get_globals, ensureDirectories_run.
  rewrite bind_emit, bind_ret. unfold getitem at 1.
  rewrite Hpt, bind_ret.
  rewrite bind_emit, bind_ensurePath, bind_emit.
  reflexivity.
Qed.

Lemma writeBenchmarkFiles_run base first rest ps name sizes w pt :
  first !! "ProblemType" = Some (ProblemTypeParam pt) →
  writeBenchmarkFiles base (first :: rest) ps name sizes w =
  match pt !! "TileAwareSelection" with
  | Some v =>
      if value_truthy v then
        match (maxMacroTiles (written (globals w) (ProblemTypeParam pt) (first :: rest)).2
                 0 0 w).1 with
        | Ok (maxMacroTile0, maxMacroTile1) =>
            match pt !! "Batched" with
            | Some batched =>
                finished (ProblemTypeParam pt) (first :: rest)
                  (clientConfig (globals w) (ProblemTypeParam pt) (first :: rest)
                     (ProblemSizes pt
                        (idealSizes (value_truthy batched)
                           (36 * maxMacroTile0) (36 * maxMacroTile1) sizes))
                     name base true) w
            | None =>
                (Raise (KeyError "Batched"),
                 libraryWritten (ProblemTypeParam pt) (first :: rest) w)
            end
        | Exit msg =>
            (Exit msg, libraryWritten (ProblemTypeParam pt) (first :: rest) w)
        | Raise e =>
            (Raise e, libraryWritten (ProblemTypeParam pt) (first :: rest) w)
        end
      else
        finished (ProblemTypeParam pt) (first :: rest)
          (clientConfig (globals w) (ProblemTypeParam pt) (first :: rest)
             ps name base false) w
  | None =>
      finished (ProblemTypeParam pt) (first :: rest)
        (clientConfig (globals w) (ProblemTypeParam pt) (first :: rest)
           ps name base false) w
  end.
Proof.
  intros Hpt. rewrite (writeBenchmarkFiles_library _ _ _ _ _ _ _ _ Hpt).
  unfold contains, finished. rewrite bind_ret. cbn [pt_getitem]. unfold getitem.
  destruct (pt !! "TileAwareSelection") as [v|] eqn:Hv.
  - rewrite bool_decide_true by eauto.
    rewrite bind_assoc, !bind_ret.
    destruct (value_truthy v).
    + destruct (maxMacroTiles_pure
                  (written (globals w) (ProblemTypeParam pt) (first :: rest)).2 0 0)
        as [o Ho].
      rewrite bind_assoc, (bind_run (maxMacroTiles _ _ _)), !Ho. cbn [fst].
      destruct o as [[m0 m1]|msg|e]; [|done..].
      destruct (pt !! "Batched") as [batched|]; [|done].
      rewrite bind_assoc, bind_ret. cbn [items].
      rewrite bind_assoc, bind_ret, bind_emit.
      by case_bool_decide.
    + rewrite bind_emit. by case_bool_decide.
  - rewrite bool_decide_false by (by intros [? ?]).
    rewrite !bind_ret, bind_emit. by case_bool_decide.
Qed.

(** X9: given no solution, writeBenchmarkFiles fails with an IndexError at
    [solutions[0]] (line 150).  By then the static files are copied and,
    with MergeFiles unset, the Solutions and Kernels directories made;
    nothing else is written, and the abort of line 195 for an empty list is
    not reached. *)
Theorem writeBenchmarkFiles_no_solutions
    (base : path) (ps : problemSizes) (name : string) (sizes : list Z) (w : World) :
  writeBenchmarkFiles base [] ps name sizes w =
  (Raise IndexError,
   {| globals := globals w;
      files := (if MergeFiles (globals w) then files w
                else list_to_set [join (WorkingPath (globals w)) ["Kernels"]] ∪
                     (list_to_set [join (WorkingPath (globals w)) ["Solutions"]] ∪
                      files w));
      trace := CopyStaticFiles :: trace w |}).
Proof.
  unfold writeBenchmarkFiles. cbv zeta.
  by rewrite bind_get_globals, ensureDirectories_run, bind_emit.
Qed.

(** The problem type of a solution is a [ProblemType] object in Tensile;
    when it is some other value the test of line 166 fails or finds
    nothing. *)
Lemma writeBenchmarkFiles_other base first rest ps name sizes w v :
  first !! "ProblemType" = Some (Param v) →
  (∃ o, writeBenchmarkFiles base (first :: rest) ps name sizes w =
          (o, libraryWritten (Param v) (first :: rest) w) ∧ ∀ r, o ≠ Ok r) ∨
  writeBenchmarkFiles base (first :: rest) ps name sizes w =
    finished (Param v) (first :: rest)
      (clientConfig (globals w) (Param v) (first :: rest) ps name base false) w.
Proof.
  intros Hpt. rewrite (writeBenchmarkFiles_library _ _ _ _ _ _ _ _ Hpt).
  unfold finished.
  destruct v as [[| | |str]|l]; cbn [contains];
    try (left; eexists; split; [reflexivity|done]).
  - rewrite bind_ret. destruct (bool_decide _).
    + left. eexists. split; [reflexivity|done].
    + right. rewrite !bind_ret, bind_emit. by case_bool_decide.
  - rewrite bind_ret. destruct (bool_decide _).
    + left. eexists. split; [reflexivity|done].
    + right. rewrite !bind_ret, bind_emit. by case_bool_decide.
Qed.

(** How [writeBenchmarkFiles] returns, when it does. *)
Lemma writeBenchmarkFiles_ok base sols ps name sizes w sols' :
  (writeBenchmarkFiles base sols ps name sizes w).1 = Ok sols' →
  ∃ first rest problemType ps' tile,
    sols = first :: rest ∧ first !! "ProblemType" = Some problemType ∧
    sols' = (written (globals w) problemType sols).2 ∧ sols' ≠ [] ∧
    (writeBenchmarkFiles base sols ps name sizes w).2 =
      record (clientConfig (globals w) problemType sols ps' name base tile)
             (libraryWritten problemType sols w).
Proof.
  intros Hok. destruct sols as [|first rest].
  { by rewrite writeBenchmarkFiles_no_solutions in Hok. }
  destruct (first !! "ProblemType") as [problemType|] eqn:Hpt.
  2: { unfold writeBenchmarkFiles in Hok. cbv zeta in Hok.
       rewrite bind_get_globals, ensureDirectories_run, bind_emit, bind_ret in Hok.
       unfold getitem at 1 in Hok. by rewrite Hpt in Hok. }
  exists first, rest, problemType.
  assert (∀ e, (finished problemType (first :: rest) e w).1 = Ok sols' →
            sols' = (written (globals w) problemType (first :: rest)).2 ∧ sols' ≠ [])
    as Hfin.
  { intros e. unfold finished. cbn [fst]. case_bool_decide as Hlen; [done|].
    intros [= <-]. split; [done|]. intros Hnil. by rewrite Hnil in Hlen. }
  destruct problemType as [v|pt].
  - destruct (writeBenchmarkFiles_other base first rest ps name sizes w v Hpt)
      as [(o & Hrun & Hfail)|Hrun]; rewrite Hrun in Hok |- *.
    + by destruct (Hfail sols').
    + exists ps, false. destruct (Hfin _ Hok). by split_and!.
  - rewrite (writeBenchmarkFiles_run _ _ _ _ _ _ _ _ Hpt) in Hok |- *.
    destruct (pt !! "TileAwareSelection") as [v|].
    + destruct (value_truthy v).
      * destruct (maxMacroTiles _ 0 0 w).1 as [[m0 m1]|msg|e]; [|done..].
        destruct (pt !! "Batched") as [batched|]; [|done].
        eexists _, true. destruct (Hfin _ Hok). by split_and!.
      * exists ps, false. destruct (Hfin _ Hok). by split_and!.
    + exists ps, false. destruct (Hfin _ Hok). by split_and!.
Qed.

(** X10: when writeBenchmarkFiles returns, the list it leaves is not empty
    and is the list the kernel writer left for the solutions and the
    problem type of the first of them.  The global parameters are
    unchanged, the library directory exists (and the Solutions and Kernels
    directories when MergeFiles is unset), and the last call made is the one
    client configuration written, for that list and a library made of
    it. *)
Theorem writeBenchmarkFiles_returns_the_written_solutions
    (base : path) (sols : list config) (ps : problemSizes) (name : string)
    (sizes : list Z) (w : World) (sols' : list config) :
  (writeBenchmarkFiles base sols ps name sizes w).1 = Ok sols' →
  sols' ≠ [] ∧
  (∃ first rest problemType,
     sols = first :: rest ∧ first !! "ProblemType" = Some problemType ∧
     sols' = (written (globals w) problemType sols).2) ∧
  globals (writeBenchmarkFiles base sols ps name sizes w).2 = globals w ∧
  join (WorkingPath (globals w)) ["library"] ∈
    files (writeBenchmarkFiles base sols ps name sizes w).2 ∧
  (MergeFiles (globals w) = false →
   join (WorkingPath (globals w)) ["Solutions"] ∈
     files (writeBenchmarkFiles base sols ps name sizes w).2 ∧
   join (WorkingPath (globals w)) ["Kernels"] ∈
     files (writeBenchmarkFiles base sols ps name sizes w).2) ∧
  ∃ ps' lib cof tile pre,
    trace (writeBenchmarkFiles base sols ps name sizes w).2 =
      WriteClientConfig true sols' ps' name base lib cof tile :: pre ++ trace w ∧
    lib_solutions lib = sols' ∧
    count is_WriteClientConfig pre = 0%nat.
Proof.
  intros Hok.
  destruct (writeBenchmarkFiles_ok _ _ _ _ _ _ _ Hok)
    as (first & rest & problemType & ps' & tile & -> & Hpt & -> & Hne & ->).
  split_and!; [done|by exists first, rest, problemType|done|..].
  - cbn. set_solver.
  - intros Hmerge. cbn. rewrite Hmerge. set_solver.
  - eexists ps', _, _, tile, [_; _; _]. split_and!; reflexivity.
Qed.

(** X11: when the kernel writer keeps no solution, writeBenchmarkFiles aborts
    with "write solutions and kernels results 0 valid soultion.", but only
    after the library and the client configuration have been written, both
    for the empty list. *)
Theorem writeBenchmarkFiles_nothing_left
    (base : path) (first : config) (rest : list config) (ps : problemSizes)
    (name : string) (sizes : list Z) (w : World) (pt : state) :
  first !! "ProblemType" = Some (ProblemTypeParam pt) →
  (written (globals w) (ProblemTypeParam pt) (first :: rest)).2 = [] →
  (tileAware pt → is_Some (pt !! "Batched")) →
  (writeBenchmarkFiles base (first :: rest) ps name sizes w).1 =
    Exit [Str "write solutions and kernels results 0 valid soultion."] ∧
  ∃ ps' nm cof tile file fmt pre,
    trace (writeBenchmarkFiles base (first :: rest) ps name sizes w).2 =
      WriteClientConfig true [] ps' name base (Library [] nm) cof tile ::
      LibraryWrite file (Library [] nm) fmt :: pre ++ trace w.
Proof.
  intros Hpt Hnil Hbatched.
  rewrite (writeBenchmarkFiles_run _ _ _ _ _ _ _ _ Hpt).
  unfold finished, clientConfig, libraryWritten. rewrite !Hnil.
  destruct (pt !! "TileAwareSelection") as [v|] eqn:Hv.
  - destruct (value_truthy v) eqn:Htile.
    + destruct Hbatched as [batched Hb]; [by exists v|]. rewrite Hb. cbn.
      split; [done|]. by eexists _, _, _, _, _, _, [_; _].
    + cbn. split; [done|]. by eexists _, _, _, _, _, _, [_; _].
  - cbn. split; [done|]. by eexists _, _, _, _, _, _, [_; _].
Qed.

(** X13: for solutions whose problem type does not ask for tile-aware
    selection (it has no TileAwareSelection entry, or a false one),
    writeBenchmarkFiles writes one client configuration, with the problem
    sizes it was given and the tile-aware flag unset; it returns the list
    the kernel writer left, or aborts when that list is empty; the summation
    sizes play no part. *)
Theorem writeBenchmarkFiles_plain_problem_type
    (base : path) (first : config) (rest : list config) (ps : problemSizes)
    (name : string) (sizes : list Z) (w : World) (pt : state) :
  first !! "ProblemType" = Some (ProblemTypeParam pt) →
  ¬ tileAware pt →
  (∃ lib cof pre,
     trace (writeBenchmarkFiles base (first :: rest) ps name sizes w).2 =
       WriteClientConfig true
         (written (globals w) (ProblemTypeParam pt) (first :: rest)).2
         ps name base lib cof false :: pre ++ trace w ∧
     count is_WriteClientConfig pre = 0%nat) ∧
  (writeBenchmarkFiles base (first :: rest) ps name sizes w).1 =
    (if bool_decide
          ((written (globals w) (ProblemTypeParam pt) (first :: rest)).2 = [])
     then Exit [Str "write solutions and kernels results 0 valid soultion."]
     else Ok (written (globals w) (ProblemTypeParam pt) (first :: rest)).2) ∧
  ∀ sizes', writeBenchmarkFiles base (first :: rest) ps name sizes' w =
            writeBenchmarkFiles base (first :: rest) ps name sizes w.
Proof.
  intros Hpt Hplain.
  assert (∀ sizes0,
    writeBenchmarkFiles base (first :: rest) ps name sizes0 w =
    finished (ProblemTypeParam pt) (first :: rest)
      (clientConfig (globals w) (ProblemTypeParam pt) (first :: rest)
         ps name base false) w) as Hrun.
  { intros sizes0. rewrite (writeBenchmarkFiles_run _ _ _ _ _ _ _ _ Hpt).
    destruct (pt !! "TileAwareSelection") as [v|] eqn:Hv; [|done].
    destruct (value_truthy v) eqn:Htile; [|done].
    destruct Hplain. by exists v. }
  split_and!.
  - rewrite Hrun. by eexists _, _, [_; _; _].
  - rewrite Hrun. unfold finished. cbn [fst].
    destruct (written _ _ _).2; by repeat case_bool_decide.
  - intros sizes'. by rewrite !Hrun.
Qed.

Lemma maxMacroTiles_missing good bad more key :
  Forall (λ s, ∃ m0 m1, has_int "MacroTile0" m0 s ∧ has_int "MacroTile1" m1 s) good →
  missingTile bad = Some key →
  ∀ max0 max1 w,
    maxMacroTiles (good ++ bad :: more) max0 max1 w = (Raise (KeyError key), w).
Proof.
  intros Hgood Hbad. induction Hgood as [|s good (m0 & m1 & H0 & H1) _ IH];
    intros max0 max1 w; cbn [app maxMacroTiles].
  - unfold missingTile in Hbad. unfold getitem.
    destruct (bad !! "MacroTile0") as [p0|]; [|by injection Hbad as <-].
    destruct (bad !! "MacroTile1") as [p1|]; [done|]. by injection Hbad as <-.
  - unfold getitem. rewrite H0, H1, !bind_ret. cbn [as_num]. rewrite !bind_ret.
    apply IH.
Qed.

(** X14: for a problem type that asks for tile-aware selection, a solution
    left by the kernel writer that lacks MacroTile0 or MacroTile1 makes
    writeBenchmarkFiles fail with a KeyError for the first of the two that
    is missing, when the solutions before it carry both as integers.  The
    library file is written by then, the client configuration is not. *)
Theorem writeBenchmarkFiles_tile_sizes_needed
    (base : path) (first : config) (rest : list config) (ps : problemSizes)
    (name : string) (sizes : list Z) (w : World) (pt : state)
    (good : list config) (bad : config) (more : list config) (key : string) :
  first !! "ProblemType" = Some (ProblemTypeParam pt) →
  tileAware pt →
  (written (globals w) (ProblemTypeParam pt) (first :: rest)).2 = good ++ bad :: more →
  Forall (λ s, ∃ m0 m1, has_int "MacroTile0" m0 s ∧ has_int "MacroTile1" m1 s) good →
  missingTile bad = Some key →
  (writeBenchmarkFiles base (first :: rest) ps name sizes w).1 = Raise (KeyError key) ∧
  ∃ file lib fmt pre,
    trace (writeBenchmarkFiles base (first :: rest) ps name sizes w).2 =
      LibraryWrite file lib fmt :: pre ++ trace w ∧
    count is_WriteClientConfig pre = 0%nat.
Proof.
  intros Hpt (v & Hv & Htile) Hwritten Hgood Hbad.
  rewrite (writeBenchmarkFiles_run _ _ _ _ _ _ _ _ Hpt), Hv, Htile, Hwritten.
  rewrite (maxMacroTiles_missing good bad more key Hgood Hbad). cbn [fst snd].
  split; [done|]. by eexists _, _, _, [_; _].
Qed.

End WriteMore.

(** ** The kernels of the solutions *)

Section UniqueKernels.
Context `{C : Collaborators}.

Lemma addUnique_cases name acc k :
  named name acc →
  (name k ∉ name <$> acc.1) ∧ addUnique name acc k = (acc.1 ++ [k], {[ name k ]} ∪ acc.2) ∨
  (name k ∈ name <$> acc.1) ∧ addUnique name acc k = acc.
Proof.
  intros [_ Hset]. unfold addUnique. case_bool_decide as Hmem.
  - left. split; [|done]. intros Hin. apply Hmem. exact (proj2 (Hset _) Hin).
  - right. split; [|done]. exact (proj1 (Hset _) Hmem).
Qed.

Lemma addUnique_named name acc k : named name acc → named name (addUnique name acc k).
Proof.
  intros Hacc. destruct (addUnique_cases name acc k Hacc) as [[Hnew ->]|[_ ->]]; [|done].
  destruct Hacc as [Hnd Hset]. split; cbn.
  - rewrite fmap_app. apply NoDup_app. split_and!; [done| |apply NoDup_singleton].
    intros n Hn ->%list_elem_of_singleton. done.
  - intros n. rewrite fmap_app, elem_of_union, elem_of_singleton, elem_of_app, Hset.
    cbn. rewrite list_elem_of_singleton. tauto.
Qed.

(** What the loop over the objects [l] keeps, starting from [acc]. *)
Lemma addUnique_fold name l : ∀ acc, named name acc →
  ∃ new,
    (foldl (addUnique name) acc l).1 = acc.1 ++ new ∧
    named name (foldl (addUnique name) acc l) ∧
    new `sublist_of` l ∧
    (∀ k, k ∈ l → name k ∈ name <$> acc.1 ++ new) ∧
    (∀ l1 k l2, l = l1 ++ k :: l2 →
       (name k ∉ name <$> acc.1) → (name k ∉ name <$> l1) → k ∈ new).
Proof.
  induction l as [|x l IH]; intros acc Hacc.
  - exists []. rewrite app_nil_r. split_and!; [done..| |].
    + by intros k ?%elem_of_nil.
    + by intros [|??] ?? ?.
  - cbn [foldl].
    destruct (IH (addUnique name acc x) (addUnique_named name acc x Hacc))
      as (new & Hfold & Hnamed & Hsub & Hall & Hfirst).
    destruct (addUnique_cases name acc x Hacc) as [[Hnew Heq]|[Hold Heq]];
      rewrite Heq in Hfold, Hnamed, Hall, Hfirst |- *;
      cbn [fst] in Hfold, Hall, Hfirst.
    + exists (x :: new). rewrite Hfold, <- app_assoc. split_and!; [done..| | |].
      * by apply sublist_skip.
      * intros k [->|Hk]%elem_of_cons.
        -- rewrite fmap_app. apply elem_of_app. right. cbn. by left.
        -- rewrite <- app_assoc in Hall. by apply Hall.
      * intros [|y l1] k l2 Hl Hacc' Hl1; simplify_eq/=; [by left|].
        right. apply (Hfirst l1 k l2 eq_refl).
        -- rewrite fmap_app. intros [?|Hin]%elem_of_app; [done|].
           cbn in Hin. apply list_elem_of_singleton in Hin.
           apply Hl1. rewrite Hin. by left.
        -- intros Hin. apply Hl1. by right.
    + exists new. rewrite Hfold. split_and!; [done..| | |].
      * by apply sublist_cons.
      * intros k [->|Hk]%elem_of_cons; [|by apply Hall].
        rewrite fmap_app. apply elem_of_app. by left.
      * intros [|y l1] k l2 Hl Hacc' Hl1; simplify_eq/=; [done|].
        apply (Hfirst l1 k l2 eq_refl); [done|].
        intros Hin. apply Hl1. by right.
Qed.

(** The two loops of lines 125-138 run side by side: the kernels are
    collected from the kernels of all solutions, the helpers from their
    helper objects. *)
Lemma uniqueKernels_flat sols :
  uniqueKernels sols =
  (foldl (addUnique getNameFull) ([], ∅) (sols ≫= getKernels),
   foldl (addUnique getKernelName) ([], ∅) (sols ≫= getHelperKernelObjects)).
Proof.
  unfold uniqueKernels.
  generalize (([], ∅) : list config * gset string) at 1 3.
  generalize (([], ∅) : list config * gset string).
  induction sols as [|s sols IH]; intros acc2 acc1; [done|].
  cbn [foldl mbind list_bind]. rewrite IH. cbn [fst snd].
  by rewrite !foldl_app.
Qed.

Lemma named_empty name : named name ([], ∅).
Proof.
  split; cbn; [constructor|].
  intros n. split; [by intros ?%elem_of_empty|by intros ?%elem_of_nil].
Qed.

(** X12: the kernels handed to the kernel writer (lines 125-131) are the
    kernels of the solutions with the first object of each full name kept:
    their names are distinct, they stand in the order of the kernels of the
    solutions, every kernel of a solution has its name among them, and a
    kernel that shares its name with no kernel before it is kept itself.
    The same holds of the helper kernel objects and their kernel names
    (lines 133-138). *)
Theorem uniqueKernels_first_of_each_name (sols : list config) :
  NoDup (getNameFull <$> (uniqueKernels sols).1.1) ∧
  (uniqueKernels sols).1.1 `sublist_of` (sols ≫= getKernels) ∧
  (∀ k, k ∈ sols ≫= getKernels →
        getNameFull k ∈ getNameFull <$> (uniqueKernels sols).1.1) ∧
  (∀ l1 k l2, sols ≫= getKernels = l1 ++ k :: l2 →
     (getNameFull k ∉ getNameFull <$> l1) → k ∈ (uniqueKernels sols).1.1) ∧
  NoDup (getKernelName <$> (uniqueKernels sols).2.1) ∧
  (uniqueKernels sols).2.1 `sublist_of` (sols ≫= getHelperKernelObjects) ∧
  (∀ k, k ∈ sols ≫= getHelperKernelObjects →
        getKernelName k ∈ getKernelName <$> (uniqueKernels sols).2.1) ∧
  (∀ l1 k l2, sols ≫= getHelperKernelObjects = l1 ++ k :: l2 →
     (getKernelName k ∉ getKernelName <$> l1) → k ∈ (uniqueKernels sols).2.1).
Proof.
  rewrite uniqueKernels_flat. cbn [fst snd].
  destruct (addUnique_fold getNameFull (sols ≫= getKernels) _ (named_empty _))
    as (ks & Hks & [Hnd1 _] & Hsub1 & Hall1 & Hfirst1).
  destruct (addUnique_fold getKernelName (sols ≫= getHelperKernelObjects) _
              (named_empty _))
    as (hs & Hhs & [Hnd2 _] & Hsub2 & Hall2 & Hfirst2).
  cbn [fst app] in *. rewrite Hks in *. rewrite Hhs in *.
  split_and!; [done..| |done|done|done|].
  - intros l1 k l2 Hl Hl1. apply (Hfirst1 l1 k l2 Hl); [|done]. by intros ?%elem_of_nil.
  - intros l1 k l2 Hl Hl1. apply (Hfirst2 l1 k l2 Hl); [|done]. by intros ?%elem_of_nil.
Qed.

End UniqueKernels.

(** ** The loop over the steps *)

Section Steps.
Context `{C : Collaborators}.

Lemma same_flags_globals g g' :
  same_flags g g' → g' = set_WorkingPath (WorkingPath g') g.
Proof.
  destruct g, g'. unfold same_flags, set_WorkingPath. cbn.
  intros [= -> -> -> -> -> -> -> -> -> -> -> -> ->]. reflexivity.
Qed.

Lemma set_WorkingPath_twice p q g :
  set_WorkingPath p (set_WorkingPath q g) = set_WorkingPath p g.
Proof. reflexivity. Qed.

Lemma set_WorkingPath_same g : set_WorkingPath (WorkingPath g) g = g.
Proof. by destruct g. Qed.

Lemma count_nil (f : event → bool) : count f [] = 0%nat.
Proof. reflexivity. Qed.

Lemma count_absent (P : event → Prop) (f : event → bool) (d : list event) :
  (∀ e, P e → f e = false) → Forall P d → count f d = 0%nat.
Proof.
  intros HP Hd. apply count_none. eapply Forall_impl; [exact Hd|done].
Qed.

Ltac tally_events :=
  repeat (rewrite count_cons || rewrite count_app || rewrite count_nil).

Lemma tally_nil force : tally force 0 0 [].
Proof. by repeat split. Qed.

Lemma tally_app force n1 n2 a b d1 d2 :
  tally force n1 a d1 → tally force n2 b d2 → tally force (n1 + n2) (a + b) (d2 ++ d1).
Proof.
  intros (H1 & H2 & H3 & H4 & H5 & H6 & H7) (K1 & K2 & K3 & K4 & K5 & K6 & K7).
  unfold tally. rewrite !count_app. split_and!; try lia.
  intros Hf. rewrite H7, K7 by done. lia.
Qed.

(** One pass of the loop over the steps, with what it leaves behind. *)
Lemma step_summary bp groupName ets acc step w :
  (∃ o w', benchmarkStepIteration bp groupName ets acc step w = (o, w') ∧
     (∀ r, o ≠ Ok r) ∧
     globals w' =
       set_WorkingPath (join (join (WorkingPath (globals w)) [stepName step]) ["source"])
         (globals w) ∧
     files w ⊆ files w' ∧
     ∃ d, trace w' = d ++ trace w ∧
          count is_push d = 2%nat ∧ count is_pop d = 0%nat ∧
          count is_RunClient d = 0%nat ∧ count is_WriteSolutions d = 0%nat ∧
          count is_failedRun d = 0%nat ∧ count is_warning d = 0%nat) ∨
  (∃ r w', benchmarkStepIteration bp groupName ets acc step w = (Ok r, w') ∧
     globals w' = globals w ∧ files w ⊆ files w' ∧
     r.1 = (if isFinal step
            then Some (resultsFileBase_of
                         (join (WorkingPath (globals w)) [stepName step])
                         (stepName step))
            else acc.1) ∧
     resultsFile w step ".yaml" ∈ files w' ∧
     ∃ d, trace w' = d ++ trace w ∧
          tally (ForceRedoBenchmarkProblems (globals w)) 1 (r.2 - acc.2) d).
Proof.
  destruct (step_cases bp groupName ets acc step w)
    as (head & body & w3 & Hhead & Hbody & Hflags & Hwp & Hfiles & Htrace & Hcase).
  assert (∀ f, (∀ e, written_for [] e → f e = false) →
               count f head = 0%nat ∧ count f body = 0%nat) as Hnone.
  { intros f Hf. split; [|by apply (count_absent (written_for []))].
    apply (count_absent is_print); [|done].
    intros e He. by apply Hf, is_print_written_for. }
  destruct (Hnone is_push) as [Hp1 Hp2]; [by intros []|].
  destruct (Hnone is_pop) as [Hq1 Hq2]; [by intros []|].
  destruct (Hnone is_RunClient) as [Hr1 Hr2]; [by intros []|].
  destruct (Hnone is_WriteSolutions) as [Hs1 Hs2]; [by intros []|].
  destruct (Hnone is_failedRun) as [Hf1 Hf2]; [by intros []|].
  destruct (Hnone is_warning) as [Hw1 Hw2]; [by intros []|].
  clear Hnone.
  destruct Hcase as [(o & Hrun & Hfail)|(sols & Hrun)].
  - left. exists o, w3. split_and!; [done..| | |].
    + rewrite (same_flags_globals _ _ Hflags). by rewrite Hwp.
    + done.
    + exists (body ++ PushWorkingPath "source" :: PushWorkingPath (stepName step) :: head).
      split; [by rewrite Htrace, <- app_assoc|].
      tally_events. rewrite Hp1, Hp2, Hq1, Hq2, Hr1, Hr2, Hs1, Hs2, Hf1, Hf2, Hw1, Hw2.
      by split_and!.
  - right. rewrite Hrun, runAndPersist_run. cbv zeta.
    cbn [fst snd globals popped WorkingPath set_WorkingPath trace files
         ForceRedoBenchmarkProblems].
    rewrite Hwp. unfold join. rewrite !removelast_last.
    assert (ForceRedoBenchmarkProblems (globals w3) =
            ForceRedoBenchmarkProblems (globals w)) as ->.
    { symmetry. exact (f_equal ForceRedoBenchmarkProblems Hflags). }
    eexists _, _. split; [reflexivity|]. cbn [fst snd globals files trace].
    split_and!.
    + rewrite (same_flags_globals _ _ Hflags). cbn. by destruct (globals w).
    + etrans; [exact Hfiles|]. clear. destruct (_ || _); set_solver.
    + done.
    + unfold resultsFile, join. apply elem_of_union_l, elem_of_list_to_set. by left.
    + eexists. split; [by rewrite Htrace, step_trace_shape|].
      unfold tally. tally_events.
      rewrite Hp1, Hp2, Hq1, Hq2, Hr1, Hr2, Hs1, Hs2, Hf1, Hf2, Hw1, Hw2.
      destruct (negb _ || ForceRedoBenchmarkProblems (globals w)) eqn:Hinv;
        cbn [andb]; unfold clientCalls.
      * destruct (negb (_ =? 0)) eqn:Hrc; tally_events; cbn; rewrite ?Hrc; cbn;
          split_and!; (lia || done).
      * tally_events. cbn. split_and!; try (lia || done).
        intros Hforce. rewrite Hforce, orb_true_r in Hinv. done.
Qed.

Lemma finalBase_last wp todo : ∀ acc,
  finalBase wp acc todo =
  match last (filter (λ step, isFinal step = true) todo) with
  | Some step => Some (resultsFileBase_of (join wp [stepName step]) (stepName step))
  | None => acc
  end.
Proof.
  induction todo as [|step todo IH]; intros acc; [done|].
  unfold finalBase in *. cbn [foldl]. rewrite IH, filter_cons.
  destruct (isFinal step) eqn:Hfinal.
  - rewrite decide_True by done. rewrite last_cons.
    by destruct (last (filter _ todo)).
  - by rewrite decide_False by done.
Qed.

(** The loop over the steps, when it runs to its end. *)
Lemma benchmarkSteps_ok bp groupName ets todo : ∀ acc w r w',
  benchmarkSteps bp groupName ets todo acc w = (Ok r, w') →
  globals w' = globals w ∧ files w ⊆ files w' ∧
  r.1 = finalBase (WorkingPath (globals w)) acc.1 todo ∧
  (∀ step, step ∈ todo → resultsFile w step ".yaml" ∈ files w') ∧
  ∃ d, trace w' = d ++ trace w ∧
       tally (ForceRedoBenchmarkProblems (globals w)) (length todo) (r.2 - acc.2) d.
Proof.
  induction todo as [|step todo IH]; intros acc w r w' Hrun.
  - cbn in Hrun. injection Hrun as <- <-. split_and!; [done..| |].
    + by intros step ?%elem_of_nil.
    + exists []. split; [done|]. rewrite Z.sub_diag. apply tally_nil.
  - cbn [benchmarkSteps] in Hrun. rewrite bind_run in Hrun.
    destruct (step_summary bp groupName ets acc step w)
      as [(o & w1 & Hstep & Hfail & _)|(r1 & w1 & Hstep & Hg & Hf & Hbase & Hyaml & d1 & Ht1 & Htally1)];
      rewrite Hstep in Hrun.
    { destruct o; [by destruct (Hfail a)|done..]. }
    destruct (IH r1 w1 r w' Hrun) as (Hg' & Hf' & Hbase' & Hyaml' & d2 & Ht2 & Htally2).
    split_and!.
    + congruence.
    + by etrans.
    + rewrite Hbase', Hg. unfold finalBase. cbn [foldl]. by rewrite Hbase.
    + intros s [->|Hs]%elem_of_cons; [by apply Hf'|].
      specialize (Hyaml' s Hs). unfold resultsFile in *. by rewrite <- Hg.
    + exists (d2 ++ d1). split; [by rewrite Ht2, Ht1, app_assoc|].
      rewrite Hg in Htally2.
      replace (r.2 - acc.2) with ((r1.2 - acc.2) + (r.2 - r1.2)) by lia.
      apply (tally_app _ 1 (length todo)); done.
Qed.

(** The loop over the steps, when a step fails: the steps before it are
    complete, and the working path stays in the source directory of the one
    that failed. *)
Lemma benchmarkSteps_failed bp groupName ets todo : ∀ acc w o w',
  benchmarkSteps bp groupName ets todo acc w = (o, w') →
  (∀ r, o ≠ Ok r) →
  ∃ before step after,
    todo = before ++ step :: after ∧
    globals w' =
      set_WorkingPath (join (join (WorkingPath (globals w)) [stepName step]) ["source"])
        (globals w) ∧
    files w ⊆ files w' ∧
    ∃ d, trace w' = d ++ trace w ∧
         count is_push d = (2 * length before + 2)%nat ∧
         count is_pop d = (2 * length before)%nat ∧
         count is_WriteSolutions d = length before ∧
         (count is_RunClient d ≤ length before)%nat.
Proof.
  induction todo as [|step todo IH]; intros acc w o w' Hrun Hfail.
  - cbn in Hrun. injection Hrun as <- <-. by destruct (Hfail acc).
  - cbn [benchmarkSteps] in Hrun. rewrite bind_run in Hrun.
    destruct (step_summary bp groupName ets acc step w)
      as [(o1 & w1 & Hstep & Hfail1 & Hg & Hf & d & Ht & Hpush & Hpop & Hrc & Hws & _)|
          (r1 & w1 & Hstep & Hg & Hf & _ & _ & d1 & Ht1 & Htally1)];
      rewrite Hstep in Hrun.
    + assert (w' = w1) as ->.
      { destruct o1; [by destruct (Hfail1 a)|by injection Hrun..]. }
      exists [], step, todo. split_and!; [done..|].
      exists d. cbn [length]. split_and!; [done|lia..].
    + destruct (IH r1 w1 o w' Hrun Hfail)
        as (before & s & after & -> & Hg' & Hf' & d2 & Ht2 & Hpush & Hpop & Hws & Hrc).
      exists (step :: before), s, after. split_and!; [done| | |].
      * by rewrite Hg', Hg.
      * by etrans.
      * exists (d2 ++ d1). split; [by rewrite Ht2, Ht1, app_assoc|].
        destruct Htally1 as (K1 & K2 & K3 & _ & _ & K6 & _).
        rewrite !count_app. cbn [length]. split_and!; lia.
Qed.

(** [benchmarkProblemType] around the loop over the steps. *)
Lemma benchmarkProblemType_run ptc gc idx w bp ets :
  BenchmarkProcess ptc gc = Ok bp →
  problemType bp !! "TileAwareSelection" = Some ets →
  benchmarkProblemType ptc gc idx w =
  match benchmarkSteps bp (groupName_of (problemType bp) idx) ets (steps bp)
          (None, 0) (groupEntered bp idx w) with
  | (Ok r, w') => (Ok r, popped w')
  | (Exit msg, w') => (Exit msg, w')
  | (Raise e, w') => (Raise e, w')
  end.
Proof.
  intros Hbp Hets. unfold benchmarkProblemType, print1. cbv zeta.
  rewrite !bind_emit, Hbp, bind_lift_ok.
  unfold getitem. rewrite Hets, bind_ret.
  rewrite bind_run, pushWorkingPath_run, bind_get_globals, bind_ensurePath.
  rewrite !bind_emit, bind_run. unfold groupEntered. cbn.
  by destruct (benchmarkSteps _ _ _ _ _ _) as [[r|msg|e] w'].
Qed.

Lemma count_failedRun_le (d : list event) :
  (count is_failedRun d ≤ count is_RunClient d)%nat.
Proof.
  induction d as [|e d IH]; [done|]. rewrite !count_cons.
  destruct e; cbn; try lia. destruct (negb _); lia.
Qed.

Lemma benchmarkProblemType_early ptc gc idx w f :
  failure (BenchmarkProcess ptc gc) = Some f ∨
  (∃ bp, BenchmarkProcess ptc gc = Ok bp ∧
         problemType bp !! "TileAwareSelection" = None ∧
         f = inr (KeyError "TileAwareSelection")) →
  failure (benchmarkProblemType ptc gc idx w).1 = Some f ∧
  (benchmarkProblemType ptc gc idx w).2 =
    {| globals := globals w; files := files w;
       trace := Print1 [] :: Print1 [Str HR] ::
                Print1 [Str "# Converting Config to BenchmarkProcess Object"] ::
                Print1 [Str HR] :: Print1 [] :: trace w |}.
Proof.
  unfold benchmarkProblemType, print1. cbv zeta. rewrite !bind_emit.
  intros [Hf|(bp & Hbp & Hets & ->)].
  - rewrite bind_run. unfold lift.
    by destruct (BenchmarkProcess ptc gc) as [bp|msg|e].
  - rewrite Hbp, bind_lift_ok. unfold getitem. by rewrite Hets.
Qed.

(** [benchmarkProblemType], when it returns. *)
Lemma benchmarkProblemType_ok ptc gc idx w bp r :
  BenchmarkProcess ptc gc = Ok bp →
  (benchmarkProblemType ptc gc idx w).1 = Ok r →
  globals (benchmarkProblemType ptc gc idx w).2 = globals w ∧
  files (groupEntered bp idx w) ⊆ files (benchmarkProblemType ptc gc idx w).2 ∧
  r.1 = finalBase (join (WorkingPath (globals w))
                     [groupName_of (problemType bp) idx]) None (steps bp) ∧
  (∀ step, step ∈ steps bp →
     resultsFile (groupEntered bp idx w) step ".yaml" ∈
       files (benchmarkProblemType ptc gc idx w).2) ∧
  ∃ d, trace (benchmarkProblemType ptc gc idx w).2 =
         (PopWorkingPath :: d ++ groupHeading bp idx) ++ trace w ∧
       tally (ForceRedoBenchmarkProblems (globals w)) (length (steps bp)) r.2 d.
Proof.
  intros Hbp Hok.
  destruct (problemType bp !! "TileAwareSelection") as [ets|] eqn:Hets.
  2: { destruct (benchmarkProblemType_early ptc gc idx w (inr (KeyError "TileAwareSelection")))
         as [Hf _]; [right; by exists bp|]. by rewrite Hok in Hf. }
  rewrite (benchmarkProblemType_run _ _ _ _ _ _ Hbp Hets) in Hok |- *.
  destruct (benchmarkSteps _ _ _ _ _ _) as [[r'|msg|e] w'] eqn:Hsteps; [|done..].
  injection Hok as ->.
  destruct (benchmarkSteps_ok _ _ _ _ _ _ _ _ Hsteps)
    as (Hg & Hf & Hbase & Hyaml & d & Ht & Htally).
  cbn [snd popped globals files trace]. split_and!.
  - rewrite Hg. cbn. unfold join. rewrite removelast_last. by destruct (globals w).
  - done.
  - done.
  - done.
  - exists d. split.
    + rewrite Ht. cbn. by rewrite <- app_assoc.
    + by rewrite Z.sub_0_r in Htally.
Qed.

Lemma count_groupHeading bp idx :
  count is_push (groupHeading bp idx) = 1%nat ∧
  count is_pop (groupHeading bp idx) = 0%nat ∧
  count is_RunClient (groupHeading bp idx) = 0%nat ∧
  count is_WriteSolutions (groupHeading bp idx) = 0%nat ∧
  count is_failedRun (groupHeading bp idx) = 0%nat ∧
  count is_warning (groupHeading bp idx) = 0%nat.
Proof. unfold groupHeading. tally_events. by cbn. Qed.

(** X15: when benchmarkProblemType returns, the global parameters are what
    they were, the working path included; no file is gone and the Data
    directory of the group exists; the directory stack was pushed and popped
    1 + 2n times for the n steps of the process, and n solutions files were
    written. *)
Theorem benchmarkProblemType_restores_parameters
    (ptc gc : yaml) (idx : nat) (w : World) (bp : benchmarkProcess)
    (r : option path * Z) :
  BenchmarkProcess ptc gc = Ok bp →
  (benchmarkProblemType ptc gc idx w).1 = Ok r →
  globals (benchmarkProblemType ptc gc idx w).2 = globals w ∧
  files w ⊆ files (benchmarkProblemType ptc gc idx w).2 ∧
  join (join (WorkingPath (globals w)) [groupName_of (problemType bp) idx]) ["Data"] ∈
    files (benchmarkProblemType ptc gc idx w).2 ∧
  ∃ d, trace (benchmarkProblemType ptc gc idx w).2 = d ++ trace w ∧
       count is_push d = (1 + 2 * length (steps bp))%nat ∧
       count is_pop d = (1 + 2 * length (steps bp))%nat ∧
       count is_WriteSolutions d = length (steps bp).
Proof.
  intros Hbp Hok.
  destruct (benchmarkProblemType_ok ptc gc idx w bp r Hbp Hok)
    as (Hg & Hf & _ & _ & d & Ht & Hp & Hq & Hs & _).
  destruct (count_groupHeading bp idx) as (G1 & G2 & _ & G4 & _).
  split_and!; [done|..].
  - etrans; [|exact Hf]. cbn [groupEntered files]. clear. set_solver.
  - apply Hf. cbn [groupEntered files].
    apply elem_of_union_l, elem_of_list_to_set. by left.
  - eexists. split; [exact Ht|]. tally_events. rewrite Hp, Hq, Hs, G1, G2, G4.
    cbn. split_and!; lia.
Qed.

(** X16: benchmarkProblemType does not restore the working path when a step
    fails.  If the process was made, its problem type has a
    TileAwareSelection entry and the call does not return, then a step of
    the process failed, and the working path is left in the source
    directory of that step, three levels below where it was: three more
    pushes than pops.  The other global parameters are unchanged. *)
Theorem benchmarkProblemType_abort_stays_inside
    (ptc gc : yaml) (idx : nat) (w : World) (bp : benchmarkProcess) :
  BenchmarkProcess ptc gc = Ok bp →
  is_Some (problemType bp !! "TileAwareSelection") →
  (∀ r, (benchmarkProblemType ptc gc idx w).1 ≠ Ok r) →
  ∃ step,
    step ∈ steps bp ∧
    globals (benchmarkProblemType ptc gc idx w).2 =
      set_WorkingPath
        (WorkingPath (globals w) ++
         [groupName_of (problemType bp) idx; stepName step; "source"])
        (globals w) ∧
    ∃ d, trace (benchmarkProblemType ptc gc idx w).2 = d ++ trace w ∧
         count is_push d = (count is_pop d + 3)%nat.
Proof.
  intros Hbp [ets Hets] Hfail.
  rewrite (benchmarkProblemType_run _ _ _ _ _ _ Hbp Hets) in Hfail |- *.
  destruct (benchmarkSteps _ _ _ _ _ _) as [o w'] eqn:Hsteps.
  assert (∀ r, o ≠ Ok r) as Hfail'.
  { intros r ->. by destruct (Hfail r). }
  destruct (benchmarkSteps_failed _ _ _ _ _ _ _ _ Hsteps Hfail')
    as (before & step & after & Hsplit & Hg & _ & d & Ht & Hp & Hq & _).
  exists step. split; [rewrite Hsplit, elem_of_app; right; by left|].
  assert ((match o with
           | Ok r => (Ok r, popped w')
           | Exit msg => (Exit msg, w')
           | Raise e => (Raise e, w')
           end).2 = w') as ->.
  { destruct o; [by destruct (Hfail' a)|done..]. }
  split.
  - rewrite Hg. cbn. unfold join. by rewrite <- !app_assoc.
  - exists (d ++ groupHeading bp idx). split.
    + rewrite Ht. cbn [groupEntered trace]. by rewrite app_assoc.
    + destruct (count_groupHeading bp idx) as (G1 & G2 & _).
      rewrite !count_app, G1, G2, Hp, Hq. lia.
Qed.

(** X17: the failure count benchmarkProblemType returns is the number of runs
    of the client that returned a non-zero code, each of them warned about
    once; the client is run at most once per step, so the count lies between
    0 and the number of steps. *)
Theorem benchmarkProblemType_counts_failed_runs
    (ptc gc : yaml) (idx : nat) (w : World) (bp : benchmarkProcess)
    (r : option path * Z) :
  BenchmarkProcess ptc gc = Ok bp →
  (benchmarkProblemType ptc gc idx w).1 = Ok r →
  0 ≤ r.2 ≤ Z.of_nat (length (steps bp)) ∧
  ∃ d, trace (benchmarkProblemType ptc gc idx w).2 = d ++ trace w ∧
       r.2 = Z.of_nat (count is_failedRun d) ∧
       count is_warning d = count is_failedRun d ∧
       (count is_RunClient d ≤ length (steps bp))%nat.
Proof.
  intros Hbp Hok.
  destruct (benchmarkProblemType_ok ptc gc idx w bp r Hbp Hok)
    as (_ & _ & _ & _ & d & Ht & _ & _ & _ & Hfails & Hwarn & Hruns & _).
  destruct (count_groupHeading bp idx) as (_ & _ & G3 & _ & G5 & G6).
  pose proof (count_failedRun_le d) as Hle.
  split; [lia|].
  eexists. split; [exact Ht|]. tally_events. rewrite G3, G5, G6. cbn.
  split_and!; lia.
Qed.

(** X18: the results base benchmarkProblemType returns is that of the last
    final step of the process: the path of lines 284-285 in the directory
    of the last step whose isFinal() holds.  It is None exactly when no step
    is final. *)
Theorem benchmarkProblemType_returns_last_final_base
    (ptc gc : yaml) (idx : nat) (w : World) (bp : benchmarkProcess)
    (r : option path * Z) :
  BenchmarkProcess ptc gc = Ok bp →
  (benchmarkProblemType ptc gc idx w).1 = Ok r →
  r.1 =
    (λ step,
       resultsFileBase_of
         (WorkingPath (globals w) ++
          [groupName_of (problemType bp) idx; stepName step])
         (stepName step)) <$>
    last (filter (λ step, isFinal step = true) (steps bp)) ∧
  (r.1 = None ↔ Forall (λ step, isFinal step = false) (steps bp)).
Proof.
  intros Hbp Hok.
  destruct (benchmarkProblemType_ok ptc gc idx w bp r Hbp Hok)
    as (_ & _ & Hbase & _).
  rewrite finalBase_last in Hbase. rewrite Hbase. unfold join. split.
  - destruct (last _); cbn; [|done]. by rewrite <- app_assoc.
  - destruct (last (filter _ (steps bp))) as [step|] eqn:Hlast.
    + split; [done|]. intros Hall.
      apply last_Some_elem_of, list_elem_of_filter in Hlast as [Hfinal Hin].
      apply (proj1 (Forall_forall _ _) Hall) in Hin. congruence.
    + split; [|done]. intros _. apply last_None in Hlast.
      apply Forall_forall. intros step Hin.
      destruct (isFinal step) eqn:Hfinal; [|done].
      assert (step ∈ filter (λ step, isFinal step = true) (steps bp)) as Hmem.
      { by apply list_elem_of_filter. }
      rewrite Hlast in Hmem. by apply elem_of_nil in Hmem.
Qed.

(** X20: with ForceRedoBenchmarkProblems set the client is run in every step,
    results on disk or not: when benchmarkProblemType returns, the client
    was run as many times as the process has steps. *)
Theorem forced_redo_runs_the_client_in_every_step
    (ptc gc : yaml) (idx : nat) (w : World) (bp : benchmarkProcess)
    (r : option path * Z) :
  ForceRedoBenchmarkProblems (globals w) = true →
  BenchmarkProcess ptc gc = Ok bp →
  (benchmarkProblemType ptc gc idx w).1 = Ok r →
  ∃ d, trace (benchmarkProblemType ptc gc idx w).2 = d ++ trace w ∧
       count is_RunClient d = length (steps bp).
Proof.
  intros Hforce Hbp Hok.
  destruct (benchmarkProblemType_ok ptc gc idx w bp r Hbp Hok)
    as (_ & _ & _ & _ & d & Ht & _ & _ & _ & _ & _ & _ & Hruns).
  destruct (count_groupHeading bp idx) as (_ & _ & G3 & _).
  eexists. split; [exact Ht|]. tally_events. rewrite G3, (Hruns Hforce). cbn. lia.
Qed.

(** X19: when BenchmarkProcess fails, and when the problem type of the
    process has no TileAwareSelection entry (a KeyError), benchmarkProblemType
    fails accordingly before it enters a directory: the five lines of its
    heading are printed, and the global parameters and the files are as
    before. *)
Theorem benchmarkProblemType_needs_a_process
    (ptc gc : yaml) (idx : nat) (w : World) (f : message + exn) :
  failure (BenchmarkProcess ptc gc) = Some f ∨
  (∃ bp, BenchmarkProcess ptc gc = Ok bp ∧
         problemType bp !! "TileAwareSelection" = None ∧
         f = inr (KeyError "TileAwareSelection")) →
  failure (benchmarkProblemType ptc gc idx w).1 = Some f ∧
  globals (benchmarkProblemType ptc gc idx w).2 = globals w ∧
  files (benchmarkProblemType ptc gc idx w).2 = files w ∧
  ∃ d, trace (benchmarkProblemType ptc gc idx w).2 = d ++ trace w ∧
       Forall is_print d ∧ length d = 5%nat.
Proof.
  intros Hcase.
  destruct (benchmarkProblemType_early ptc gc idx w f Hcase) as [Hf ->].
  split_and!; [done..|].
  eexists [_; _; _; _; _]. split_and!; [reflexivity| |done].
  by repeat constructor.
Qed.

End Steps.

(** ** The enumeration and the client configuration of a step *)

Section StepConfigurations.
Context `{C : Collaborators}.




Lemma printSolutionNames_run sols : ∀ w,
  ∃ d, printSolutionNames sols w =
       (Ok (), {| globals := globals w; files := files w; trace := d ++ trace w |}) ∧
       Forall is_print d.
Proof.
  induction sols as [|s sols IH]; intros w; cbn [printSolutionNames].
  - exists []. by destruct w.
  - unfold print2. rewrite bind_emit.
    match goal with |- context [record ?e w] =>
      destruct (IH (record e w)) as (d & -> & Hd); exists (d ++ [e]) end.
    split.
    + cbn. by rewrite <- app_assoc.
    + apply Forall_app. split; [done|]. by repeat constructor.
Qed.




(** Lines 267-279: the names are printed, the benchmark files written. *)
Lemma writeStep_run (dir : path) (step : benchmarkStep) (sols : list config) (w : World) :
  ∃ d,
    Forall is_print d ∧
    bind (if PrintLevel (globals w) >=? 1
          then bind (printSolutionNames sols) (λ _, print2 [Str HR])
          else ret ())
      (λ _, bind (writeBenchmarkFiles dir sols (problemSizes_of step) (stepName step) [])
              (λ sols', bind (emit (writtenLine sols' (length sols)))
                          (λ _, ret sols'))) w =
    match writeBenchmarkFiles dir sols (problemSizes_of step) (stepName step) []
            {| globals := globals w; files := files w; trace := d ++ trace w |} with
    | (Ok sols', w') => (Ok sols', record (writtenLine sols' (length sols)) w')
    | (Exit msg, w') => (Exit msg, w')
    | (Raise e, w') => (Raise e, w')
    end.
Proof.
  destruct (PrintLevel (globals w) >=? 1).
  - destruct (printSolutionNames_run sols w) as (d & Hrun & Hd).
    exists (Print2 [Str HR] :: d). split; [constructor; [done|exact Hd]|].
    rewrite bind_assoc, (bind_ok _ _ _ _ _ Hrun). unfold print2.
    rewrite bind_emit, bind_run. cbn [record globals files trace app].
    by destruct (writeBenchmarkFiles _ _ _ _ _ _) as [[sols'|msg|e] w'].
  - exists []. split; [constructor|]. rewrite bind_ret, bind_run.
    destruct w as [g f t]. cbn [globals files trace app].
    by destruct (writeBenchmarkFiles _ _ _ _ _ _) as [[sols'|msg|e] w'].
Qed.

(** The enumeration of a step (lines 241-279), by what the custom kernels
    give: the step ends there when they fail or when there is no solution
    at all, and goes on to write the benchmark files otherwise. *)
Lemma enumerateSolutions_run (bp : benchmarkProcess) (step : benchmarkStep)
    (dir : path) (w : World) :
  let regSolutions :=
    (foldl accept ([], ∅)
       (candidates (problemType bp) (constantParams step)
          (constructForkPermutations (forkParams step)))).1 in
  let kc :=
    generateCustomKernelSolutions (problemType bp) (customKernels step)
      (negb (customKernelWildcard step))
      (generateForkedSolutions (problemType bp) (constantParams step)
         (constructForkPermutations (forkParams step)) w).2 in
  enumerateSolutions bp step dir w =
  match kc.1 with
  | Ok kcSolutions =>
      let solutions := regSolutions ++ kcSolutions in
      let w1 := record (enumeratedLine step solutions kcSolutions) kc.2 in
      if bool_decide (length solutions = 0%nat)
      then (Exit (noSolutionsMessage (globals w1)), w1)
      else
        bind (if PrintLevel (globals w1) >=? 1
              then bind (printSolutionNames solutions) (λ _, print2 [Str HR])
              else ret ())
          (λ _, bind (writeBenchmarkFiles dir solutions (problemSizes_of step)
                        (stepName step) [])
                  (λ sols', bind (emit (writtenLine sols' (length solutions)))
                              (λ _, ret sols'))) w1
  | Exit msg => (Exit msg, kc.2)
  | Raise e => (Raise e, kc.2)
  end.
Proof.
  cbv zeta. unfold enumerateSolutions. cbv zeta.
  rewrite bind_run.
  pose proof (generateForkedSolutions_ok (problemType bp) (constantParams step)
                (constructForkPermutations (forkParams step)) w) as Hreg.
  destruct (generateForkedSolutions _ _ _ w) as [o1 w1]. cbn [fst snd] in *. subst o1.
  rewrite bind_run.
  destruct (generateCustomKernelSolutions _ _ _ w1) as [[kcs|msg|e] w2]; [|done..].
  cbn [fst snd]. unfold print1. rewrite bind_emit, bind_get_globals.
  unfold enumeratedLine, writtenLine. rewrite length_app.
  case_bool_decide; [done|]. by rewrite bind_ret.
Qed.





Lemma maxMacroTiles_no_exit sols : ∀ max0 max1 w msg,
  (maxMacroTiles sols max0 max1 w).1 ≠ Exit msg.
Proof.
  induction sols as [|s sols IH]; intros max0 max1 w msg; cbn; [done|].
  unfold getitem, as_num, bind, ret, raise.
  destruct (s !! "MacroTile0") as [p0|]; [|done].
  destruct (s !! "MacroTile1") as [p1|]; [|done].
  destruct p0 as [[[| | |]|]|]; try done;
    destruct p1 as [[[| | |]|]|]; try done; apply IH.
Qed.

(** The one fatal abort of [writeBenchmarkFiles] is that of line 195. *)
Lemma writeBenchmarkFiles_exit base sols ps name sizes w msg :
  (writeBenchmarkFiles base sols ps name sizes w).1 = Exit msg →
  msg = [Str "write solutions and kernels results 0 valid soultion."].
Proof.
  destruct sols as [|first rest].
  { by rewrite writeBenchmarkFiles_no_solutions. }
  destruct (first !! "ProblemType") as [problemType|] eqn:Hpt.
  2: { unfold writeBenchmarkFiles. cbv zeta.
       rewrite bind_get_globals, ensureDirectories_run, bind_emit, bind_ret.
       unfold getitem at 1. by rewrite Hpt. }
  assert (∀ e, (finished problemType (first :: rest) e w).1 = Exit msg →
               msg = [Str "write solutions and kernels results 0 valid soultion."])
    as Hfin.
  { intros e. unfold finished. cbn [fst]. case_bool_decide; [|done]. by intros [= <-]. }
  destruct problemType as [v|pt].
  - rewrite (writeBenchmarkFiles_library _ _ _ _ _ _ _ _ Hpt).
    destruct v as [[| | |str]|l]; cbn [contains]; try done.
    + rewrite bind_ret. destruct (bool_decide _); [done|].
      rewrite !bind_ret, bind_emit. case_bool_decide; [|done]. by intros [= <-].
    + rewrite bind_ret. destruct (bool_decide _); [done|].
      rewrite !bind_ret, bind_emit. case_bool_decide; [|done]. by intros [= <-].
  - rewrite (writeBenchmarkFiles_run _ _ _ _ _ _ _ _ Hpt).
    destruct (pt !! "TileAwareSelection") as [v|]; [|apply Hfin].
    destruct (value_truthy v); [|apply Hfin].
    pose proof (maxMacroTiles_no_exit
                  (written (globals w) (ProblemTypeParam pt) (first :: rest)).2 0 0 w)
      as Hmax.
    destruct (maxMacroTiles _ 0 0 w).1 as [[m0 m1]|msg'|e]; [| |done].
    + destruct (pt !! "Batched") as [batched|]; [apply Hfin|done].
    + by destruct (Hmax msg').
Qed.

(** One pass of the loop over the steps, around the enumeration: the
    heading is printed, the two directories are entered, and the second
    half follows when the enumeration returns. *)
Lemma step_run bp groupName ets acc step w :
  ∃ head,
    Forall is_print head ∧
    benchmarkStepIteration bp groupName ets acc step w =
    match enumerateSolutions bp step
            (join (WorkingPath (globals w)) [stepName step])
            (pushed "source"
               (pushed (stepName step)
                  {| globals := globals w; files := files w;
                     trace := head ++ trace w |})) with
    | (Ok sols, w3) => runAndPersist groupName ets step sols acc (popped w3)
    | (Exit msg, w3) => (Exit msg, w3)
    | (Raise e, w3) => (Raise e, w3)
    end.
Proof.
  unfold benchmarkStepIteration, print1. rewrite !bind_emit.
  match goal with |- context [bind (printForkParams _) _ ?u] =>
    destruct (printForkParams_run (forkParams step) u) as (d & Hrun & Hd);
    exists (d ++ take 5 (trace u)) end.
  split.
  { apply Forall_app. split; [done|]. by repeat constructor. }
  rewrite (bind_ok _ _ _ _ _ Hrun), bind_run, enumerateAndWrite_run.
  cbn [record globals files trace take]. rewrite <- app_assoc. cbn [app].
  by destruct (enumerateSolutions _ _ _ _) as [[sols|msg|e] w3].
Qed.

(** C6: in every step, when every fork permutation yields an invalid
    solution, generateForkedSolutions returns the empty list; and the step
    then aborts fatally, with the diagnostic of lines 258-265 spelled out
    below, exactly when the list of regular solutions followed by the
    custom-kernel solutions is empty, that is when the custom kernels of the
    step, which give the list [kcSolutions], contribute no solution
    either. *)
Theorem no_valid_solution_aborts
    (bp : benchmarkProcess) (groupName : string) (ets : value)
    (acc : option path * Z) (step : benchmarkStep) (w : World)
    (kcSolutions : list config) :
  (∀ perm, perm ∈ constructForkPermutations (forkParams step) →
           Valid (candidate (problemType bp) (constantParams step) perm) = false) →
  (∀ w0, same_flags (globals w) (globals w0) →
         (generateCustomKernelSolutions (problemType bp) (customKernels step)
            (negb (customKernelWildcard step)) w0).1 = Ok kcSolutions) →
  (∀ w0, (generateForkedSolutions (problemType bp) (constantParams step)
            (constructForkPermutations (forkParams step)) w0).1 = Ok []) ∧
  ((benchmarkStepIteration bp groupName ets acc step w).1 =
     Exit (Str "Your parameters resulted in 0 valid solutions." ::
           (if PrintSolutionRejectionReason (globals w) then
              [Str (nl +:+ "Examine reject and backtrace messages above to see why" +:+
                    "and where solutions were rejected.")]
            else
              [Str (nl +:+ "You should re-run with " +:+ dquote +:+
                    "PrintSolutionRejectionReason: True" +:+ dquote +:+
                    "to see why each parameter combination was rejected.")])) ↔
   kcSolutions = []).
Proof.
  intros Hinvalid Hkc.
  assert (∀ w0, (generateForkedSolutions (problemType bp) (constantParams step)
            (constructForkPermutations (forkParams step)) w0).1 = Ok []) as Hreg.
  { intros w0. by apply generateForkedSolutions_none. }
  split; [done|].
  destruct (step_run bp groupName ets acc step w) as (head & _ & ->).
  rewrite enumerateSolutions_run. cbv zeta.
  match goal with |- context [generateForkedSolutions ?pt ?cp ?perms ?u] =>
    pose proof (Hreg u) as Hnone;
    rewrite generateForkedSolutions_ok in Hnone; injection Hnone as ->;
    destruct (framed_generateForkedSolutions pt cp perms u) as (Hg1 & _);
    set (w1 := (generateForkedSolutions pt cp perms u).2) in * end.
  match goal with |- context [generateCustomKernelSolutions ?pt ?ks ?fail w1] =>
    destruct (framed_generateCustomKernelSolutions pt ks fail w1) as (Hg2 & _) end.
  assert (same_flags (globals w) (globals w1)) as Hflags.
  { unfold same_flags. by rewrite Hg1. }
  specialize (Hkc w1 Hflags).
  destruct (generateCustomKernelSolutions _ _ _ w1) as [o w2]. cbn [fst snd] in *.
  subst o. cbn [app].
  assert (PrintSolutionRejectionReason (globals w2) =
          PrintSolutionRejectionReason (globals w)) as Hflag.
  { rewrite Hg2. exact (eq_sym (f_equal PrintSolutionRejectionReason Hflags)). }
  case_bool_decide as Hlen.
  - cbn [fst]. unfold noSolutionsMessage. cbn [globals record]. rewrite Hflag.
    split; [|done]. intros _. by destruct kcSolutions.
  - split; [|by intros ->].
    match goal with |- context [bind _ _ ?u] =>
      destruct (writeStep_run (join (WorkingPath (globals w)) [stepName step])
                  step kcSolutions u) as (d & _ & Hrun) end.
    rewrite Hrun. clear Hrun.
    destruct (writeBenchmarkFiles _ _ _ _ _ _) as [[sols'|msg|e] w4] eqn:Hwrite.
    + by rewrite runAndPersist_run.
    + cbn [fst]. intros [= ->].
      pose proof (writeBenchmarkFiles_exit _ _ _ _ _ _ _ (f_equal fst Hwrite)) as Hmsg.
      discriminate Hmsg.
    + done.
Qed.






End StepConfigurations.

(** ** Where the files go *)

Section Paths.
Context `{C : Collaborators}.

Lemma normpath_go_plain p : Forall plain p →
  ∀ acc q, normpath_go acc (p ++ q) = normpath_go (rev p ++ acc) q.
Proof.
  induction 1 as [|c p (H1 & H2 & H3) _ IH]; intros acc q; [done|].
  cbn [app normpath_go].
  rewrite bool_decide_false by (by intros [?|?]).
  rewrite bool_decide_false by done.
  rewrite IH. cbn [rev]. by rewrite <- app_assoc.
Qed.

Lemma add_ext_last (p : path) (c ext : string) :
  add_ext (p ++ [c]) ext = p ++ [c +:+ ext].
Proof.
  unfold add_ext. destruct (p ++ [c]) eqn:Heq.
  - by destruct p.
  - rewrite <- Heq. by rewrite removelast_last, last_last.
Qed.

(** X21: the result files of a step lie in the Data directory of the group,
    the directory made at line 211.  For a group directory [wp] and a step
    called [shortName], all of them ordinary names (single components, not
    empty, not "." and not ".."), the results base computed in the directory
    of the step is wp/Data/shortName, and the file with the extension [ext]
    is wp/Data/shortName followed by [ext]. *)
Theorem results_files_are_in_the_Data_directory
    (wp : path) (shortName ext : string) :
  Forall plain wp → plain shortName →
  resultsFileBase_of (join wp [shortName]) shortName = join (join wp ["Data"]) [shortName] ∧
  add_ext (resultsFileBase_of (join wp [shortName]) shortName) ext =
    join (join wp ["Data"]) [shortName +:+ ext].
Proof.
  intros Hwp Hname.
  assert (resultsFileBase_of (join wp [shortName]) shortName =
          join (join wp ["Data"]) [shortName]) as Hbase.
  { unfold resultsFileBase_of, normpath, join.
    rewrite <- app_assoc, (normpath_go_plain wp Hwp). cbn [app normpath_go].
    destruct Hname as (H1 & H2 & H3).
    rewrite !(bool_decide_false (shortName = "." ∨ _)) by (by intros [?|?]).
    rewrite !(bool_decide_false (shortName = "..")) by done.
    rewrite (bool_decide_false ("Data" = "." ∨ _)) by (by intros [?|?]).
    rewrite (bool_decide_false ("Data" = "..")) by done.
    rewrite (bool_decide_false (".." = "." ∨ _)) by (by intros [?|?]).
    rewrite (bool_decide_true (".." = "..")) by done.
    cbn [rev]. rewrite app_nil_r, rev_involutive. by destruct wp. }
  split; [done|]. rewrite Hbase. unfold join. apply add_ext_last.
Qed.

End Paths.

Section Names.
Context `{C : Collaborators}.

(** The decimal digits of a positive number do not start with a zero. *)
Lemma pretty_N_go_head (x : N) : ∀ s s',
  (0 < x)%N → pretty_N_go x s ≠ "0" +:+ s'.
Proof.
  induction (N.lt_wf_0 x) as [x _ IH]. intros s s' Hx.
  rewrite pretty_N_go_step by done.
  destruct (decide (x / 10 = 0)%N) as [Hsmall|Hbig].
  - rewrite Hsmall, pretty_N_go_0.
    apply N.div_small_iff in Hsmall; [|done].
    rewrite N.mod_small by done.
    assert (x = 1 ∨ x = 2 ∨ x = 3 ∨ x = 4 ∨ x = 5 ∨ x = 6 ∨ x = 7 ∨ x = 8 ∨ x = 9)%N
      as Hdigit by lia.
    by destruct Hdigit as [->|[->|[->|[->|[->|[->|[->|[->| ->]]]]]]]].
  - apply IH; [apply N.div_lt; lia|by apply N.neq_0_lt_0].
Qed.

Lemma pretty_nat_head (n : nat) (s' : string) :
  (10 ≤ n)%nat → pretty n ≠ "0" +:+ s'.
Proof.
  intros Hn. unfold pretty, pretty_nat, pretty, pretty_N.
  rewrite decide_False by lia. apply pretty_N_go_head. lia.
Qed.

Lemma fmt02d_inj (i j : nat) : fmt02d i = fmt02d j → i = j.
Proof.
  unfold fmt02d. do 2 case_bool_decide.
  - intros Heq. apply String.app_inj in Heq. by apply (inj pretty) in Heq.
  - intros Heq. symmetry in Heq. by apply pretty_nat_head in Heq; [|lia].
  - intros Heq. by apply pretty_nat_head in Heq; [|lia].
  - intros Heq. by apply (inj pretty) in Heq.
Qed.

(** X22: two size groups of one problem type get different directories: the
    group names of line 209 differ when the indices do. *)
Theorem group_directories_are_distinct (pt : state) (i j : nat) :
  i ≠ j → groupName_of pt i ≠ groupName_of pt j.
Proof.
  unfold groupName_of. intros Hne Heq. apply Hne.
  apply String.app_inj in Heq. apply String.app_inj in Heq. by apply fmt02d_inj.
Qed.

End Names.

(** ** The driver *)

Section Driver.
Context `{C : Collaborators}.

Ltac tally_events :=
  repeat (rewrite count_cons || rewrite count_app || rewrite count_nil).

#[local] Instance settled_refl : Reflexive settled.
Proof. by intros g. Qed.

#[local] Instance settled_trans : Transitive settled.
Proof. unfold settled. intros g1 g2 g3 H1 H2. congruence. Qed.

#[local] Instance settled_sym : Symmetric settled.
Proof. unfold settled. by intros g1 g2 H. Qed.

Lemma settled_set_EnableHalf b g : settled g (set_EnableHalf b g).
Proof. reflexivity. Qed.

Lemma settled_fields g g' :
  settled g g' →
  WorkingPath g' = WorkingPath g ∧
  ForceRedoBenchmarkProblems g' = ForceRedoBenchmarkProblems g ∧
  CSVExportWinner g' = CSVExportWinner g ∧
  ExitOnFails g' = ExitOnFails g ∧
  BenchmarkDataPath g' = BenchmarkDataPath g ∧
  BenchmarkProblemsPath g' = BenchmarkProblemsPath g ∧
  ConfigPath g' = ConfigPath g.
Proof.
  destruct g, g'. unfold settled, set_EnableHalf. cbn.
  intros [= -> -> -> -> -> -> -> -> -> -> -> -> ->]. by split_and!.
Qed.

Lemma promoted_settled dataPath g g' ptc idx ext :
  settled g g' → promoted dataPath g' ptc idx ext = promoted dataPath g ptc idx ext.
Proof.
  intros (_ & _ & H & _)%settled_fields. unfold promoted. by rewrite H.
Qed.

Lemma bind_copy {B} (src dst : path) (f : () → M B) (w : World) :
  bind (copy src dst) f w =
  if bool_decide (src ∈ files w)
  then f () {| globals := globals w; files := list_to_set [dst] ∪ files w;
               trace := Copy src dst :: trace w |}
  else (Raise (FileNotFoundError src), w).
Proof.
  unfold copy. rewrite bind_assoc, bind_path_exists.
  destruct (bool_decide _); [|done].
  by rewrite bind_assoc, bind_emit.
Qed.

Lemma benchmarkProblemType_process ptc gc idx w r :
  (benchmarkProblemType ptc gc idx w).1 = Ok r →
  ∃ bp, BenchmarkProcess ptc gc = Ok bp.
Proof.
  intros Hok. destruct (BenchmarkProcess ptc gc) as [bp|msg|e] eqn:Hbp; [by exists bp|..].
  - destruct (benchmarkProblemType_early ptc gc idx w (inl msg)) as [Hf _].
    { left. by rewrite Hbp. }
    by rewrite Hok in Hf.
  - destruct (benchmarkProblemType_early ptc gc idx w (inr e)) as [Hf _].
    { left. by rewrite Hbp. }
    by rewrite Hok in Hf.
Qed.

(** A size group whose results are kept is passed over. *)
Lemma mainGroup_skip dataPath ptc idx gc n w dt :
  ProblemType ptc !! "DataType" = Some dt →
  ForceRedoBenchmarkProblems (globals w) = false →
  promoted dataPath (globals w) ptc idx ".csv" ∈ files w →
  mainGroup dataPath ptc idx gc n w =
  (Ok n, record (skippedLine ptc idx) (groupStarted ptc dt w)).
Proof.
  intros Hdt Hforce Hkept. unfold mainGroup, print2, print1. cbv zeta.
  rewrite bind_emit. unfold getitem. rewrite Hdt, bind_ret.
  rewrite bind_get_globals, bind_put_globals, bind_get_globals, bind_path_exists.
  cbn [globals files record set_EnableHalf ForceRedoBenchmarkProblems CSVExportWinner].
  unfold promoted, join in Hkept. unfold join.
  rewrite Hforce, bool_decide_true by done. cbn [negb orb].
  by rewrite bind_emit.
Qed.

Lemma trace_shape (pre mid : list event) (e : event) (t : list event) :
  pre ++ mid ++ e :: t = (pre ++ mid ++ [e]) ++ t.
Proof. by rewrite <- !app_assoc. Qed.

(** A size group that [main] gets through. *)
Lemma mainGroup_ok dataPath ptc idx gc n w n' w' :
  mainGroup dataPath ptc idx gc n w = (Ok n', w') →
  is_Some (ProblemType ptc !! "DataType") ∧
  settled (globals w) (globals w') ∧
  files w ⊆ files w' ∧
  promoted dataPath (globals w) ptc idx ".csv" ∈ files w' ∧
  ∃ d, trace w' = d ++ trace w ∧
       n' = n + Z.of_nat (count is_failedRun d) ∧
       count is_push d = count is_pop d.
Proof.
  intros Hrun.
  destruct (ProblemType ptc !! "DataType") as [dt|] eqn:Hdt.
  2: { unfold mainGroup, print2 in Hrun. cbv zeta in Hrun.
       rewrite bind_emit in Hrun. unfold getitem in Hrun. by rewrite Hdt in Hrun. }
  split; [done|].
  destruct (ForceRedoBenchmarkProblems (globals w) ||
            negb (bool_decide (promoted dataPath (globals w) ptc idx ".csv" ∈ files w)))
    eqn:Hgo.
  2: { apply orb_false_elim in Hgo as [Hforce Hkept].
       apply negb_false_iff, bool_decide_eq_true in Hkept.
       rewrite (mainGroup_skip _ _ _ _ _ _ _ Hdt Hforce Hkept) in Hrun.
       injection Hrun as <- <-. cbn [record groupStarted globals files trace].
       split_and!; [apply settled_set_EnableHalf|reflexivity|exact Hkept|].
       eexists [_; _]. split; [reflexivity|]. tally_events. cbn. split; [lia|done]. }
  unfold mainGroup, print2 in Hrun. cbv zeta in Hrun.
  rewrite bind_emit in Hrun. unfold getitem in Hrun. rewrite Hdt, bind_ret in Hrun.
  rewrite bind_get_globals, bind_put_globals, bind_get_globals, bind_path_exists in Hrun.
  cbn [globals files trace record set_EnableHalf ForceRedoBenchmarkProblems
       CSVExportWinner] in Hrun.
  unfold promoted, join in Hgo. unfold join in Hrun. rewrite Hgo in Hrun.
  rewrite bind_run in Hrun.
  fold (groupStarted ptc dt w) in Hrun.
  destruct (benchmarkProblemType ptc gc idx (groupStarted ptc dt w))
    as [o w1] eqn:Hbpt.
  destruct o as [[base errs]|msg|e]; [|done..].
  assert ((benchmarkProblemType ptc gc idx (groupStarted ptc dt w)).1 = Ok (base, errs))
    as Hok by (by rewrite Hbpt).
  destruct (benchmarkProblemType_process _ _ _ _ _ Hok) as [bp Hbp].
  destruct (benchmarkProblemType_ok _ _ _ _ _ _ Hbp Hok)
    as (Hg & Hf & _ & _ & d & Ht & Hp & Hq & _ & Hfails & _).
  rewrite Hbpt in Hg, Hf, Ht. cbn [snd fst] in Hg, Hf, Ht, Hfails.
  rewrite bind_emit in Hrun. destruct base as [base|]; [|done].
  rewrite bind_ret, bind_copy in Hrun. cbn [record files globals trace] in Hrun.
  destruct (bool_decide (add_ext base ".csv" ∈ files w1)); [|done].
  rewrite bind_copy in Hrun. cbn [files globals trace] in Hrun.
  destruct (bool_decide (add_ext base ".yaml" ∈ _)); [|done].
  rewrite bind_path_exists in Hrun. cbn [files globals trace] in Hrun.
  destruct (count_groupHeading bp idx) as (G1 & G2 & _ & _ & G5 & _).
  assert (files w ⊆ files w1) as Hfw.
  { etrans; [|exact Hf]. cbn [groupEntered groupStarted files]. clear. set_solver. }
  assert (promoted dataPath (globals w) ptc idx ".csv" ∈
            list_to_set [promoted dataPath (globals w) ptc idx ".yaml"] ∪
            (list_to_set [promoted dataPath (globals w) ptc idx ".csv"] ∪ files w1))
    as Hkept.
  { apply elem_of_union_r, elem_of_union_l, elem_of_list_to_set. by left. }
  assert (count is_push (PopWorkingPath :: d ++ groupHeading bp idx) =
          count is_pop (PopWorkingPath :: d ++ groupHeading bp idx)) as Hbalance.
  { tally_events. rewrite Hp, Hq, G1, G2. cbn. lia. }
  assert (count is_failedRun (PopWorkingPath :: d ++ groupHeading bp idx) =
          count is_failedRun d) as Hfailed.
  { tally_events. rewrite G5. cbn. lia. }
  destruct (bool_decide (add_ext base "_Granularity.csv" ∈ _)) eqn:Hgran.
  - rewrite bind_copy in Hrun. cbn [files globals trace] in Hrun.
    rewrite Hgran in Hrun. injection Hrun as <- <-. cbn [globals files trace].
    split_and!.
    + rewrite Hg. apply settled_set_EnableHalf.
    + etrans; [exact Hfw|]. clear. set_solver.
    + by apply elem_of_union_r.
    + eexists. split.
      * rewrite Ht. cbn [groupStarted trace]. exact (trace_shape [_; _; _; _] _ _ _).
      * rewrite !count_app, Hbalance, Hfailed. tally_events. cbn. lia.
  - injection Hrun as <- <-. cbn [globals files trace].
    split_and!.
    + rewrite Hg. apply settled_set_EnableHalf.
    + etrans; [exact Hfw|]. clear. set_solver.
    + done.
    + eexists. split.
      * rewrite Ht. cbn [groupStarted trace]. exact (trace_shape [_; _; _] _ _ _).
      * rewrite !count_app, Hbalance, Hfailed. tally_events. cbn. lia.
Qed.


Lemma mainGroups_ok dataPath ptc groups : ∀ idx n w n' w',
  mainGroups dataPath ptc idx groups n w = (Ok n', w') →
  (groups ≠ [] → is_Some (ProblemType ptc !! "DataType")) ∧
  settled (globals w) (globals w') ∧
  files w ⊆ files w' ∧
  (∀ i, (i < length groups)%nat →
        promoted dataPath (globals w) ptc (idx + i) ".csv" ∈ files w') ∧
  ∃ d, trace w' = d ++ trace w ∧
       n' = n + Z.of_nat (count is_failedRun d) ∧
       count is_push d = count is_pop d.
Proof.
  induction groups as [|gc groups IH]; intros idx n w n' w' Hrun.
  - cbn in Hrun. injection Hrun as <- <-. split_and!; [done|done|done| |].
    + intros i Hi. cbn in Hi. lia.
    + exists []. split; [done|]. cbn. split; [lia|done].
  - cbn [mainGroups] in Hrun. rewrite bind_run in Hrun.
    destruct (mainGroup dataPath ptc idx gc n w) as [[n1|msg|e] w1] eqn:Hgroup; [|done..].
    destruct (mainGroup_ok _ _ _ _ _ _ _ _ Hgroup)
      as (Hdt & Hs1 & Hf1 & Hkept & d1 & Ht1 & Hn1 & Hb1).
    destruct (IH _ _ _ _ _ Hrun) as (_ & Hs2 & Hf2 & Hrest & d2 & Ht2 & Hn2 & Hb2).
    split_and!; [done|by etrans|by etrans| |].
    + intros [|i] Hi.
      * rewrite Nat.add_0_r. by apply Hf2.
      * rewrite <- (promoted_settled _ _ _ _ _ _ Hs1).
        replace (idx + S i)%nat with (S idx + i)%nat by lia.
        apply Hrest. cbn in Hi. lia.
    + exists (d2 ++ d1). split; [by rewrite Ht2, Ht1, app_assoc|].
      rewrite !count_app. split; lia.
Qed.

Lemma is_print_quiet e : is_print e → is_quiet e.
Proof. by destruct e. Qed.

Lemma mainGroups_skip dataPath ptc groups : ∀ idx n w,
  is_Some (ProblemType ptc !! "DataType") →
  ForceRedoBenchmarkProblems (globals w) = false →
  (∀ i, (i < length groups)%nat →
        promoted dataPath (globals w) ptc (idx + i) ".csv" ∈ files w) →
  ∃ w', mainGroups dataPath ptc idx groups n w = (Ok n, w') ∧
        settled (globals w) (globals w') ∧ files w' = files w ∧
        ∃ d, trace w' = d ++ trace w ∧ Forall is_print d.
Proof.
  induction groups as [|gc groups IH]; intros idx n w [dt Hdt] Hforce Hkept.
  - exists w. split_and!; [done..|]. by exists [].
  - cbn [mainGroups]. rewrite bind_run.
    rewrite (mainGroup_skip _ _ _ _ _ _ _ Hdt Hforce).
    2: { specialize (Hkept 0%nat). rewrite Nat.add_0_r in Hkept. apply Hkept. cbn. lia. }
    destruct (IH (S idx) n (record (skippedLine ptc idx) (groupStarted ptc dt w)))
      as (w' & Hrun & Hs & Hf & d & Ht & Hd).
    + by exists dt.
    + done.
    + intros i Hi. cbn [record groupStarted globals files].
      rewrite (promoted_settled _ _ _ _ _ _ (settled_set_EnableHalf _ _)).
      replace (S idx + i)%nat with (idx + S i)%nat by lia.
      apply Hkept. cbn. lia.
    + exists w'. split_and!; [done| |done|].
      * etrans; [|exact Hs]. apply settled_set_EnableHalf.
      * exists (d ++ [skippedLine ptc idx;
                      Print2 [Str "ProblemTypeConfig: "; Yaml ptc]]).
        split; [by rewrite Ht, <- app_assoc|].
        apply Forall_app. split; [done|]. by repeat constructor.
Qed.

Lemma mainEntry_run dataPath entry n w :
  mainEntry dataPath entry n w =
  match head entry with
  | Some ptc => mainGroups dataPath ptc 0 (sizeGroups entry) n w
  | None => (Raise IndexError, w)
  end.
Proof.
  destruct entry as [|ptc groups]; [done|].
  unfold mainEntry, sizeGroups. cbv zeta. cbn [head drop]. by rewrite drop_0.
Qed.

Lemma allPromoted_mono dataPath g g' fs fs' config :
  settled g g' → fs ⊆ fs' →
  allPromoted dataPath g fs config → allPromoted dataPath g' fs' config.
Proof.
  intros Hs Hfs Hall. unfold allPromoted. eapply Forall_impl; [exact Hall|].
  intros entry (ptc & Hhead & Hdt & Hkept). exists ptc. split_and!; [done..|].
  intros i Hi. rewrite (promoted_settled _ _ _ _ _ _ Hs). by apply Hfs, Hkept.
Qed.

Lemma mainEntries_ok dataPath config : ∀ n w n' w',
  mainEntries dataPath config n w = (Ok n', w') →
  allPromoted dataPath (globals w) (files w') config ∧
  settled (globals w) (globals w') ∧
  files w ⊆ files w' ∧
  ∃ d, trace w' = d ++ trace w ∧
       n' = n + Z.of_nat (count is_failedRun d) ∧
       count is_push d = count is_pop d.
Proof.
  induction config as [|entry config IH]; intros n w n' w' Hrun.
  - cbn in Hrun. injection Hrun as <- <-. split_and!; [constructor|done|done|].
    exists []. split; [done|]. cbn. split; [lia|done].
  - cbn [mainEntries] in Hrun. rewrite bind_run, mainEntry_run in Hrun.
    destruct (head entry) as [ptc|] eqn:Hhead; [|done].
    destruct (mainGroups dataPath ptc 0 (sizeGroups entry) n w)
      as [[n1|msg|e] w1] eqn:Hgroups; [|done..].
    destruct (mainGroups_ok _ _ _ _ _ _ _ _ Hgroups)
      as (Hdt & Hs1 & Hf1 & Hkept & d1 & Ht1 & Hn1 & Hb1).
    destruct (IH _ _ _ _ Hrun) as (Hall & Hs2 & Hf2 & d2 & Ht2 & Hn2 & Hb2).
    split_and!; [|by etrans|by etrans|].
    + constructor.
      * exists ptc. split_and!; [done| |].
        -- apply Hdt. unfold sizeGroups. case_bool_decide; [done|].
           destruct entry as [|? [|??]]; cbn in *; [lia..|done].
        -- intros i Hi. apply Hf2. by apply (Hkept i).
      * eapply allPromoted_mono; [symmetry; exact Hs1|reflexivity|exact Hall].
    + exists (d2 ++ d1). split; [by rewrite Ht2, Ht1, app_assoc|].
      rewrite !count_app. split; lia.
Qed.

Lemma mainEntries_skip dataPath config : ∀ n w,
  allPromoted dataPath (globals w) (files w) config →
  ForceRedoBenchmarkProblems (globals w) = false →
  ∃ w', mainEntries dataPath config n w = (Ok n, w') ∧
        settled (globals w) (globals w') ∧ files w' = files w ∧
        ∃ d, trace w' = d ++ trace w ∧ Forall is_print d.
Proof.
  induction config as [|entry config IH]; intros n w Hall Hforce.
  - exists w. split_and!; [done..|]. by exists [].
  - apply Forall_cons in Hall as [(ptc & Hhead & Hdt & Hkept) Hall].
    cbn [mainEntries]. rewrite bind_run, mainEntry_run, Hhead.
    destruct (mainGroups_skip dataPath ptc (sizeGroups entry) 0 n w Hdt Hforce)
      as (w1 & -> & Hs1 & Hf1 & d1 & Ht1 & Hd1).
    { intros i Hi. by apply Hkept. }
    destruct (IH n w1) as (w' & Hrun & Hs2 & Hf2 & d2 & Ht2 & Hd2).
    + eapply allPromoted_mono; [exact Hs1|by rewrite Hf1|exact Hall].
    + destruct (settled_fields _ _ Hs1) as (_ & -> & _). done.
    + exists w'. split_and!; [done|by etrans|congruence|].
      exists (d2 ++ d1). split; [by rewrite Ht2, Ht1, app_assoc|].
      by apply Forall_app.
Qed.

(** [main] around the loop over the entries of the configuration. *)
Lemma main_run config w :
  main config w =
  match mainEntries (join (WorkingPath (globals w)) [BenchmarkDataPath (globals w)])
          config 0 (mainStarted w) with
  | (Ok n, w1) =>
      (if ExitOnFails (globals (popped w1)) && negb (n =? 0)
       then Raise (SystemExit 1) else Ok (), popped w1)
  | (Exit msg, w1) => (Exit msg, w1)
  | (Raise e, w1) => (Raise e, w1)
  end.
Proof.
  unfold main. cbv zeta.
  rewrite bind_emit, bind_get_globals, bind_run, pushWorkingPath_run, bind_ensurePath.
  cbn [record globals]. rewrite bind_run.
  change {| globals := globals (pushed _ _); files := _; trace := _ |}
    with (mainStarted w).
  destruct (mainEntries _ config 0 (mainStarted w)) as [[n|msg|e] w1]; [|done..].
  rewrite bind_run, popWorkingPath_run, bind_get_globals.
  by destruct (_ && _).
Qed.

Lemma popped_mainStarted w1 w :
  settled (globals (mainStarted w)) (globals w1) →
  settled (globals w) (globals (popped w1)) ∧
  WorkingPath (globals (popped w1)) = WorkingPath (globals w).
Proof.
  intros Hs. destruct (settled_fields _ _ Hs) as (Hwp & _).
  unfold popped. cbn [globals]. rewrite Hwp. cbn [mainStarted globals WorkingPath
    set_WorkingPath]. unfold join. rewrite removelast_last.
  split; [|done]. unfold settled in *. cbn in Hs.
  destruct (globals w), (globals w1). cbn in *.
  injection Hs as _ <- <- <- <- <- <- <- <- <- <- <- <-. reflexivity.
Qed.

Lemma settled_mainStarted w w' :
  settled (globals w) (globals w') →
  settled (globals (mainStarted w)) (globals (mainStarted w')).
Proof.
  unfold settled. cbn [mainStarted globals].
  destruct (globals w), (globals w'). cbn.
  intros [= -> -> -> -> -> -> -> -> -> -> -> -> ->]. reflexivity.
Qed.

Lemma count_quiet (f : event → bool) (d : list event) :
  (∀ e, is_quiet e → f e = false) → Forall is_quiet d → count f d = 0%nat.
Proof. apply count_absent. Qed.

(** X23: a size group whose results are kept (its .csv file is in the data
    path) is skipped when ForceRedoBenchmarkProblems is unset: main prints
    the configuration and the line that says so, adds nothing to the failure
    total and touches no file.  EnableHalf has been set for the problem type
    all the same. *)
Theorem kept_results_skip_the_size_group
    (dataPath : path) (ptc gc : yaml) (idx : nat) (n : Z) (w : World) (dt : value) :
  ProblemType ptc !! "DataType" = Some dt →
  ForceRedoBenchmarkProblems (globals w) = false →
  promoted dataPath (globals w) ptc idx ".csv" ∈ files w →
  (mainGroup dataPath ptc idx gc n w).1 = Ok n ∧
  globals (mainGroup dataPath ptc idx gc n w).2 =
    set_EnableHalf (isHalf dt) (globals w) ∧
  files (mainGroup dataPath ptc idx gc n w).2 = files w ∧
  trace (mainGroup dataPath ptc idx gc n w).2 =
    skippedLine ptc idx :: Print2 [Str "ProblemTypeConfig: "; Yaml ptc] :: trace w.
Proof.
  intros Hdt Hforce Hkept.
  by rewrite (mainGroup_skip dataPath ptc idx gc n w dt Hdt Hforce Hkept).
Qed.

(** X25: when main returns, the global parameters are as before, EnableHalf
    apart; in particular the working path is restored.  No file is gone, the
    directory stack was pushed as often as popped, and, with ExitOnFails
    set, no run of the client returned a non-zero code. *)
Theorem main_returns_only_without_failed_runs (config : list (list yaml)) (w : World) :
  (main config w).1 = Ok () →
  settled (globals w) (globals (main config w).2) ∧
  WorkingPath (globals (main config w).2) = WorkingPath (globals w) ∧
  files w ⊆ files (main config w).2 ∧
  ∃ d, trace (main config w).2 = d ++ trace w ∧
       count is_push d = count is_pop d ∧
       (ExitOnFails (globals w) = true → count is_failedRun d = 0%nat).
Proof.
  rewrite main_run.
  destruct (mainEntries _ config 0 (mainStarted w)) as [[n|msg|e] w1] eqn:Hrun; [|done..].
  destruct (mainEntries_ok _ _ _ _ _ _ Hrun) as (_ & Hs & Hf & d & Ht & Hn & Hb).
  destruct (popped_mainStarted w1 w Hs) as [Hs' Hwp].
  destruct (settled_fields _ _ Hs') as (_ & _ & _ & Hexit & _).
  cbn [fst snd]. intros Hok. split_and!; [done|done| |].
  - etrans; [|exact Hf]. cbn [mainStarted files]. clear. set_solver.
  - exists (PopWorkingPath :: d ++ [PushWorkingPath (BenchmarkProblemsPath (globals w));
                                     GetClientExecutable]).
    split; [cbn [popped trace]; rewrite Ht; cbn; by rewrite <- app_assoc|].
    tally_events. cbn. split; [lia|]. intros Hflag.
    rewrite Hexit, Hflag in Hok. cbn [andb] in Hok.
    destruct (n =? 0) eqn:Hzero; [|done]. apply Z.eqb_eq in Hzero. lia.
Qed.

(** X26: when the loop over the configuration comes to its end with [n]
    failed runs of the client, main first leaves the directory of the
    benchmark problems and then, if ExitOnFails is set and [n] is not 0,
    leaves the process with exit code 1; otherwise it returns.  Either way
    the working path is restored. *)
Theorem main_exits_after_the_last_entry
    (config : list (list yaml)) (w w1 : World) (n : Z) :
  mainEntries (join (WorkingPath (globals w)) [BenchmarkDataPath (globals w)])
    config 0 (mainStarted w) = (Ok n, w1) →
  (main config w).1 =
    (if ExitOnFails (globals w) && negb (n =? 0) then Raise (SystemExit 1) else Ok ()) ∧
  (main config w).2 = popped w1 ∧
  WorkingPath (globals (main config w).2) = WorkingPath (globals w) ∧
  ∃ d, trace w1 = d ++ trace (mainStarted w) ∧ n = Z.of_nat (count is_failedRun d).
Proof.
  intros Hrun. rewrite main_run, Hrun.
  destruct (mainEntries_ok _ _ _ _ _ _ Hrun) as (_ & Hs & _ & d & Ht & Hn & _).
  destruct (popped_mainStarted w1 w Hs) as [Hs' Hwp].
  destruct (settled_fields _ _ Hs') as (_ & _ & _ & Hexit & _).
  cbn [fst snd]. rewrite Hexit. split_and!; [done..|].
  exists d. split; [done|lia].
Qed.

(** X27: main is idempotent through the results it keeps: when it has
    returned, with ForceRedoBenchmarkProblems unset, running it again on the
    same configuration returns too, and only prints and moves between
    directories: no client is run, no client configuration and no solutions
    file is written, and the files are left as they are. *)
Theorem main_again_runs_nothing (config : list (list yaml)) (w : World) :
  ForceRedoBenchmarkProblems (globals w) = false →
  (main config w).1 = Ok () →
  (main config (main config w).2).1 = Ok () ∧
  files (main config (main config w).2).2 = files (main config w).2 ∧
  ∃ d, trace (main config (main config w).2).2 = d ++ trace (main config w).2 ∧
       Forall is_quiet d ∧
       count is_RunClient d = 0%nat ∧ count is_WriteSolutions d = 0%nat ∧
       count is_WriteClientConfig d = 0%nat.
Proof.
  intros Hforce. rewrite (main_run config w).
  destruct (mainEntries _ config 0 (mainStarted w)) as [[n|msg|e] w1] eqn:Hrun; [|done..].
  destruct (mainEntries_ok _ _ _ _ _ _ Hrun) as (Hall & Hs & Hf & _).
  destruct (popped_mainStarted w1 w Hs) as [Hs' Hwp].
  destruct (settled_fields _ _ Hs')
    as (_ & Hforce' & _ & _ & Hdata & Hproblems & _).
  cbn [fst snd]. intros _. set (w2 := popped w1) in *.
  rewrite (main_run config w2). rewrite Hwp, Hdata.
  destruct (mainEntries_skip
              (join (WorkingPath (globals w)) [BenchmarkDataPath (globals w)])
              config 0 (mainStarted w2))
    as (w3 & -> & Hs3 & Hf3 & d & Ht3 & Hd3).
  { eapply allPromoted_mono; [|reflexivity|].
    2: { eapply allPromoted_mono; [reflexivity| |exact Hall].
         cbn [mainStarted files popped w2]. clear. set_solver. }
    by apply settled_mainStarted. }
  { cbn [mainStarted globals set_WorkingPath ForceRedoBenchmarkProblems].
    by rewrite Hforce'. }
  cbn [fst snd]. rewrite andb_false_r.
  split_and!; [done| |].
  - cbn [popped files]. rewrite Hf3. cbn [mainStarted files w2 popped].
    rewrite Hwp, Hdata, Hproblems.
    assert (join (WorkingPath (globals w)) [BenchmarkDataPath (globals w)] ∈ files w1)
      as H1.
    { apply Hf. cbn [mainStarted files]. apply elem_of_union_l, elem_of_list_to_set.
      by left. }
    assert (join (WorkingPath (globals w)) [BenchmarkProblemsPath (globals w)] ∈ files w1)
      as H2.
    { apply Hf. cbn [mainStarted files].
      apply elem_of_union_r, elem_of_union_l, elem_of_list_to_set. by left. }
    apply set_eq. intros x. rewrite !elem_of_union, !elem_of_list_to_set.
    rewrite !list_elem_of_singleton. split; [|by auto].
    by intros [->|[->|?]].
  - exists (PopWorkingPath :: d ++
            [PushWorkingPath (BenchmarkProblemsPath (globals w2)); GetClientExecutable]).
    assert (Forall is_quiet
              (PopWorkingPath :: d ++
               [PushWorkingPath (BenchmarkProblemsPath (globals w2));
                GetClientExecutable])) as Hquiet.
    { constructor; [done|]. apply Forall_app. split; [|by repeat constructor].
      eapply Forall_impl; [exact Hd3|]. apply is_print_quiet. }
    split_and!.
    + cbn [popped trace]. rewrite Ht3. cbn. by rewrite <- app_assoc.
    + done.
    + apply count_quiet; [|done]. by intros [].
    + apply count_quiet; [|done]. by intros [].
    + apply count_quiet; [|done]. by intros [].
Qed.

(** X24: when a size group has been benchmarked and the results file of its
    final step is not there (the client left none), main fails with a
    FileNotFoundError at the first copy (line 366), after the clientExit
    line; nothing is copied into the data path. *)
Theorem missing_results_file_stops_the_size_group
    (dataPath : path) (ptc gc : yaml) (idx : nat) (n : Z) (w : World)
    (dt : value) (base : path) (errs : Z) (w1 : World) :
  ProblemType ptc !! "DataType" = Some dt →
  ForceRedoBenchmarkProblems (globals w) = true ∨
    promoted dataPath (globals w) ptc idx ".csv" ∉ files w →
  benchmarkProblemType ptc gc idx (groupStarted ptc dt w) = (Ok (Some base, errs), w1) →
  add_ext base ".csv" ∉ files w1 →
  (mainGroup dataPath ptc idx gc n w).1 =
    Raise (FileNotFoundError (add_ext base ".csv")) ∧
  files (mainGroup dataPath ptc idx gc n w).2 = files w1 ∧
  ∃ m, trace (mainGroup dataPath ptc idx gc n w).2 = Print m :: trace w1.
Proof.
  intros Hdt Hgo Hbpt Hmissing.
  unfold mainGroup, print2. cbv zeta.
  rewrite bind_emit. unfold getitem. rewrite Hdt, bind_ret.
  rewrite bind_get_globals, bind_put_globals, bind_get_globals, bind_path_exists.
  cbn [globals files trace record set_EnableHalf ForceRedoBenchmarkProblems
       CSVExportWinner].
  assert (ForceRedoBenchmarkProblems (globals w) ||
          negb (bool_decide (promoted dataPath (globals w) ptc idx ".csv" ∈ files w)) =
          true) as Hrun.
  { destruct Hgo as [->|Hno]; [done|]. rewrite bool_decide_false by done.
    apply orb_true_r. }
  unfold promoted, join in Hrun. unfold join. rewrite Hrun, bind_run.
  change {| globals := _; files := files w; trace := _ |} with (groupStarted ptc dt w).
  rewrite Hbpt, bind_emit, bind_ret, bind_copy. cbn [record files].
  rewrite bool_decide_false by done. cbn. split_and!; [done..|]. by eexists.
Qed.

Lemma allPromoted_flag dataPath g g' fs config :
  CSVExportWinner g' = CSVExportWinner g →
  allPromoted dataPath g fs config → allPromoted dataPath g' fs config.
Proof.
  intros Hflag Hall. unfold allPromoted, promoted in *. by rewrite Hflag.
Qed.

(** X28: when main returns, the results of every size group of every entry
    are kept: each entry has a problem type with a DataType, and for each
    index of its size groups (one group when the entry lists none) the .csv
    file of the group is in the data path. *)
Theorem main_keeps_the_results_of_every_size_group
    (config : list (list yaml)) (w : World) :
  (main config w).1 = Ok () →
  allPromoted (join (WorkingPath (globals w)) [BenchmarkDataPath (globals w)])
    (globals w) (files (main config w).2) config.
Proof.
  rewrite main_run.
  destruct (mainEntries _ config 0 (mainStarted w)) as [[n|msg|e] w1] eqn:Hrun; [|done..].
  destruct (mainEntries_ok _ _ _ _ _ _ Hrun) as (Hall & _).
  intros _. cbn [snd popped files].
  by apply (allPromoted_flag _ (globals (mainStarted w))).
Qed.

End Driver.

(** ** The properties on the small instance *)

Section Instances.
Import Demo.

Lemma generateForkedSolutions_valid_distinct_ordered_witness :
  ∃ sols,
    (generateForkedSolutions (gemm false) tiles (threadTiles [0; 2; 2; 4])
       (fresh true false)).1 = Ok sols ∧
    Forall (λ s, Valid s = true) sols ∧ NoDup sols ∧
    (∀ s, s ∈ sols ↔
          s ∈ candidates (gemm false) tiles (threadTiles [0; 2; 2; 4]) ∧
          Valid s = true) ∧
    (∀ l1 s l2 t, sols = l1 ++ s :: l2 → t ∈ l2 →
       ∃ c1 c2, candidates (gemm false) tiles (threadTiles [0; 2; 2; 4]) =
                c1 ++ s :: c2 ∧ (s ∉ c1) ∧ (t ∉ c1)).
Proof.
  exact (generateForkedSolutions_valid_distinct_ordered (gemm false) tiles
           (threadTiles [0; 2; 2; 4]) (fresh true false)).
Defined.

Example generateForkedSolutions_run :
  (generateForkedSolutions (gemm false) tiles (threadTiles [0; 2; 2; 4])
     (fresh true false)).1 =
  Ok [forked (gemm false) 2; forked (gemm false) 4].
Proof. reflexivity. Qed.

Lemma rejection_notices_for_invalid_only_witness :
  history (generateForkedSolutions (gemm false) tiles (threadTiles [0; 2; 2; 4])
             (fresh true false)).2 =
  [Print1 [Str "# Enumerating Solutions"];
   rejectionNotice (forked (gemm false) 0)].
Proof.
  destruct (rejection_notices_for_invalid_only (gemm false) tiles
              (threadTiles [0; 2; 2; 4]) (fresh true false) eq_refl)
    as (Hhistory & _).
  rewrite Hhistory. reflexivity.
Defined.

Lemma rejection_notices_counterexample :
  candidates (gemm false) tiles (threadTiles [2; 2]) =
    [forked (gemm false) 2; forked (gemm false) 2] ∧
  Valid (forked (gemm false) 2) = true ∧
  PrintSolutionRejectionReason (globals (fresh true false)) = true ∧
  (generateForkedSolutions (gemm false) tiles (threadTiles [2; 2])
     (fresh true false)).1 = Ok [forked (gemm false) 2] ∧
  count is_rejectionNotice
    (trace (generateForkedSolutions (gemm false) tiles (threadTiles [2; 2])
              (fresh true false)).2) = 0%nat.
Proof. split_and!; reflexivity. Qed.



Lemma tile_aware_ideal_sizes_witness :
  ∃ lib cof pre,
    trace (writeBenchmarkFiles ["build"; "Final"] [tiled 128 32; tiled 64 64; tiled 32 16]
             (ProblemSizes (gemm true) [Exact [1024; 1024; 1; 1024]]) "Final"
             [256; 512] (fresh true false)).2 =
    WriteClientConfig true [tiled 128 32; tiled 64 64; tiled 32 16]
      (ProblemSizes (gemm true)
         [Exact [4608; 2304; 1; 256]; Exact [4608; 2304; 1; 512]])
      "Final" ["build"; "Final"] lib cof true :: pre.
Proof.
  destruct (tile_aware_ideal_sizes ["build"; "Final"] (tiled 128 32)
              [tiled 64 64; tiled 32 16]
              (ProblemSizes (gemm true) [Exact [1024; 1024; 1; 1024]]) "Final"
              (fresh true false) (gemm true) (Scalar (SBool true))
              (Scalar (SBool true)))
    as (lib & cof & pre & _ & Htrace & _).
  - reflexivity.
  - reflexivity.
  - reflexivity.
  - reflexivity.
  - change (Forall (λ s, ∃ m0 m1, has_int "MacroTile0" m0 s ∧
                                   has_int "MacroTile1" m1 s ∧ m0 ≤ 128 ∧ m1 ≤ 64)
              [tiled 128 32; tiled 64 64; tiled 32 16]).
    constructor; [|constructor; [|constructor; [|constructor]]].
    + exists 128, 32. split_and!; [reflexivity..|lia|lia].
    + exists 64, 64. split_and!; [reflexivity..|lia|lia].
    + exists 32, 16. split_and!; [reflexivity..|lia|lia].
  - change (Exists (has_int "MacroTile0" 128) [tiled 128 32; tiled 64 64; tiled 32 16]).
    apply Exists_cons_hd. reflexivity.
  - change (Exists (has_int "MacroTile1" 64) [tiled 128 32; tiled 64 64; tiled 32 16]).
    apply Exists_cons_tl, Exists_cons_hd. reflexivity.
  - exists lib, cof, pre. rewrite Htrace. by rewrite app_nil_r.
Defined.

Lemma cached_step_skips_client_witness :
  count is_RunClient
    (trace (benchmarkStepIteration (process false finalStep) groupDir
              noTileSelection (None, 0) finalStep cached).2) = 0%nat ∧
  count is_WriteSolutions
    (trace (benchmarkStepIteration (process false finalStep) groupDir
              noTileSelection (None, 0) finalStep cached).2) = 1%nat ∧
  count is_RunClient
    (trace (benchmarkStepIteration (process false finalStep) groupDir
              noTileSelection (None, 0) finalStep (fresh true false)).2) = 1%nat ∧
  count is_WriteSolutions
    (trace (benchmarkStepIteration (process false finalStep) groupDir
              noTileSelection (None, 0) finalStep (fresh true false)).2) = 1%nat.
Proof.
  destruct (cached_step_skips_client (process false finalStep) groupDir
              noTileSelection (None, 0) finalStep cached)
    as (d & Hd & Hskip & Hpersist).
  destruct (cached_step_skips_client (process false finalStep) groupDir
              noTileSelection (None, 0) finalStep (fresh true false))
    as (d' & Hd' & _ & Hpersist').
  rewrite Hd, Hd'. change (trace cached) with (@nil event).
  change (trace (fresh true false)) with (@nil event). rewrite !app_nil_r.
  split_and!.
  - apply Hskip; [|reflexivity]. apply elem_of_singleton. reflexivity.
  - by apply (Hpersist (Some ["build"; "Data"; "Final"], 0)).
  - rewrite app_nil_r in Hd'. rewrite <- Hd'. reflexivity.
  - by apply (Hpersist' (Some ["build"; "Data"; "Final"], 0)).
Defined.

Lemma client_failure_is_counted_witness :
  ∃ final,
    (benchmarkStepIteration (process false failingStep) groupDir noTileSelection
       (None, 0) failingStep (fresh true false)).1 = Ok (final, 1) ∧
    ∀ rest,
      benchmarkSteps (process false failingStep) groupDir noTileSelection
        (failingStep :: rest) (None, 0) (fresh true false) =
      benchmarkSteps (process false failingStep) groupDir noTileSelection
        rest (final, 1)
        (benchmarkStepIteration (process false failingStep) groupDir
           noTileSelection (None, 0) failingStep (fresh true false)).2.
Proof.
  destruct (client_failure_is_counted (process false failingStep) groupDir
              noTileSelection (None, 0) failingStep (fresh true false)
              (trace (benchmarkStepIteration (process false failingStep) groupDir
                        noTileSelection (None, 0) failingStep (fresh true false)).2)
              None true noTileSelection 1)
    as (final & Hok & _ & _ & Hnext).
  - symmetry. apply app_nil_r.
  - apply list_elem_of_lookup. exists 4%nat. reflexivity.
  - discriminate.
  - exists final. split; [exact Hok|exact Hnext].
Defined.

Lemma working_path_restored_witness :
  WorkingPath
    (globals (benchmarkStepIteration (process false failingStep) groupDir
                noTileSelection (None, 0) failingStep (fresh true false)).2) =
    ["build"] ∧
  WorkingPath
    (globals (benchmarkStepIteration (process false finalStep) groupDir
                noTileSelection (None, 0) finalStep cached).2) =
    ["build"].
Proof.
  split.
  - by destruct (working_path_restored (process false failingStep) groupDir
                   noTileSelection (None, 0) failingStep (fresh true false)
                   (Some ["build"; "Data"; "Failing"], 1) eq_refl) as (-> & _).
  - by destruct (working_path_restored (process false finalStep) groupDir
                   noTileSelection (None, 0) finalStep cached
                   (Some ["build"; "Data"; "Final"], 0) eq_refl) as (-> & _).
Defined.

Lemma no_valid_solution_aborts_witness :
  (benchmarkStepIteration (process false invalidStep) groupDir noTileSelection
     (None, 0) invalidStep (fresh true false)).1 =
    Exit [Str "Your parameters resulted in 0 valid solutions.";
          Str (nl +:+ "Examine reject and backtrace messages above to see why" +:+
               "and where solutions were rejected.")] ∧
  (generateForkedSolutions (gemm false) tiles
     (constructForkPermutations (forkParams customStep)) (fresh true false)).1 = Ok [] ∧
  (benchmarkStepIteration (process false customStep) groupDir noTileSelection
     (None, 0) customStep (fresh true false)).1 =
    Ok (Some ["build"; "Data"; "Final"], 0).
Proof.
  split_and!.
  - destruct (no_valid_solution_aborts (process false invalidStep) groupDir
                noTileSelection (None, 0) invalidStep (fresh true false) [])
      as [_ Habort].
    + apply Forall_forall. repeat constructor.
    + intros w0 _. reflexivity.
    + by apply Habort.
  - destruct (no_valid_solution_aborts (process false customStep) groupDir
                noTileSelection (None, 0) customStep (fresh true false)
                [custom "Custom_SB" (gemm false)])
      as [Hnone _].
    + apply Forall_forall. repeat constructor.
    + intros w0 _. reflexivity.
    + apply Hnone.
  - reflexivity.
Defined.

Lemma zero_step_process_stops_the_driver_witness :
  (benchmarkProblemType (gemmConfig false) (YDict []) 0 (fresh true false)).1 =
    Ok (None, 0) ∧
  (mainGroup ["build"; "2_BenchmarkData"] (gemmConfig false) 0 (YDict []) 0
     (fresh true false)).1 = Raise TypeError.
Proof.
  destruct (zero_step_process_stops_the_driver (gemmConfig false) (YDict []) 0
              (fresh true false)
              {| problemType := decodeProblemType (gemmConfig false); steps := [] |}
              (Scalar (SBool false)) (Scalar (SInt 0))
              ["build"; "2_BenchmarkData"] 0 eq_refl eq_refl eq_refl eq_refl)
    as (Hok & _ & _ & Hdriver).
  split; [exact Hok|]. rewrite Hdriver. reflexivity.
Defined.

Lemma zero_step_process_counterexample :
  BenchmarkProcess (gemmConfig false) (YDict []) =
    Ok {| problemType := gemm false; steps := [] |} ∧
  (benchmarkProblemType (gemmConfig false) (YDict []) 0 (fresh true false)).1 =
    Ok (None, 0) ∧
  (main [[gemmConfig false]] (fresh true false)).1 = Raise TypeError ∧
  (main [[gemmConfig false; YDict []]] (fresh true false)).1 = Raise TypeError.
Proof. split_and!; reflexivity. Qed.


End Instances.

(** ** The further properties on the small instances *)

Section MoreInstances.
Import Demo.

Lemma generateForkedSolutions_quiet_witness :
  (generateForkedSolutions (gemm false) tiles (threadTiles [0; 2; 2; 4])
     (fresh false false)).2 =
  record (Print1 [Str "# Enumerating Solutions"]) (fresh false false).
Proof.
  exact (generateForkedSolutions_quiet (gemm false) tiles (threadTiles [0; 2; 2; 4])
           (fresh false false) eq_refl).
Defined.

Lemma generateForkedSolutions_repeats_dropped_witness :
  (generateForkedSolutions (gemm false) tiles
     (threadTiles [0; 2; 4] ++ threadTiles [0; 2; 4]) (fresh true false)).1 =
  (generateForkedSolutions (gemm false) tiles (threadTiles [0; 2; 4])
     (fresh true false)).1.
Proof.
  apply generateForkedSolutions_repeats_dropped.
  intros perm Hperm. apply list_elem_of_fmap. by exists perm.
Defined.

Lemma getCustomKernelSolutionObj_sets_language_and_name_witness :
  ∃ c,
    getCustomKernelSolutionObj "Custom_SB" (fresh true false) =
      (Ok (Solution c), fresh true false) ∧
    c !! "KernelLanguage" = Some (Param (Scalar (SStr "Assembly"))) ∧
    c !! "CustomKernelName" = Some (Param (Scalar (SStr "Custom_SB"))) ∧
    ∀ key, key ≠ "KernelLanguage" → key ≠ "CustomKernelName" →
           c !! key = (<[ "ProblemType" := ProblemTypeParam (gemm false) ]> tiles) !! key.
Proof.
  exact (getCustomKernelSolutionObj_sets_language_and_name "Custom_SB"
           (fresh true false)
           (<[ "ProblemType" := ProblemTypeParam (gemm false) ]> tiles)
           eq_refl eq_refl).
Defined.

Lemma custom_kernel_load_failure_ends_enumeration_witness :
  failure (generateCustomKernelSolutions (gemm false)
             (["Custom_SB"] ++ "Custom_Missing" :: ["Custom_SB"]) false
             (fresh true false)).1 =
  Some (inr (FileNotFoundError ["Custom_Missing"])).
Proof.
  exact (proj1 (custom_kernel_load_failure_ends_enumeration (gemm false)
                  ["Custom_SB"] ["Custom_SB"] "Custom_Missing" false (fresh true false)
                  [custom "Custom_SB" (gemm false)]
                  (inr (FileNotFoundError ["Custom_Missing"])) eq_refl eq_refl)).
Defined.

Lemma generateCustomKernelSolutions_concatenates_witness :
  (generateCustomKernelSolutions (gemm false) (["Custom_SB"] ++ ["Custom_SB"]) false
     (fresh true false)).1 =
  Ok ([custom "Custom_SB" (gemm false)] ++ [custom "Custom_SB" (gemm false)]).
Proof.
  exact (generateCustomKernelSolutions_concatenates (gemm false)
           ["Custom_SB"] ["Custom_SB"] false (fresh true false)
           [custom "Custom_SB" (gemm false)] [custom "Custom_SB" (gemm false)]
           eq_refl eq_refl).
Defined.

Lemma store_loads k :
  k ∈ ["Custom_SB"; "Custom_TileAware"; "Custom_SB"] →
  ∃ s, loadedKernel (globals (fresh true false)) k = Ok s ∧
       is_Some (s !! "ProblemType") ∧
       (false = true → matches (gemm false) s = true).
Proof.
  intros Hk.
  assert (k = "Custom_SB" ∨ k = "Custom_TileAware") as [-> | ->].
  { repeat (apply elem_of_cons in Hk as [->|Hk]; [by auto|]).
    by apply elem_of_nil in Hk. }
  - exists (custom "Custom_SB" (gemm false)).
    split_and!; [reflexivity|by eexists|discriminate].
  - exists (custom "Custom_TileAware" (gemm true)).
    split_and!; [reflexivity|by eexists|discriminate].
Qed.

Lemma generateCustomKernelSolutions_keeps_matching_valid_witness :
  (generateCustomKernelSolutions (gemm false)
     ["Custom_SB"; "Custom_TileAware"; "Custom_SB"] false (fresh true false)).1 =
  Ok (filter (λ s, matches (gemm false) s && Valid s = true)
        (loaded (globals (fresh true false))
           ["Custom_SB"; "Custom_TileAware"; "Custom_SB"])).
Proof.
  exact (generateCustomKernelSolutions_keeps_matching_valid (gemm false)
           ["Custom_SB"; "Custom_TileAware"; "Custom_SB"] false (fresh true false)
           store_loads).
Defined.

Example generateCustomKernelSolutions_run :
  (generateCustomKernelSolutions (gemm false)
     ["Custom_SB"; "Custom_TileAware"; "Custom_SB"] false (fresh true false)).1 =
  Ok [custom "Custom_SB" (gemm false); custom "Custom_SB" (gemm false)].
Proof. reflexivity. Qed.

Lemma writeBenchmarkFiles_returns_the_written_solutions_witness :
  [forked (gemm false) 2; forked (gemm false) 4] ≠ [] ∧
  (∃ first rest problemType,
     [forked (gemm false) 2; forked (gemm false) 4] = first :: rest ∧
     first !! "ProblemType" = Some problemType ∧
     [forked (gemm false) 2; forked (gemm false) 4] =
       (written (globals (fresh true false)) problemType
          [forked (gemm false) 2; forked (gemm false) 4]).2).
Proof.
  destruct (writeBenchmarkFiles_returns_the_written_solutions ["build"; "Final"]
              [forked (gemm false) 2; forked (gemm false) 4]
              (ProblemSizes (gemm false) [Exact [1024; 1024; 1; 1024]]) "Final" []
              (fresh true false) [forked (gemm false) 2; forked (gemm false) 4]
              eq_refl) as (Hne & Hwritten & _).
  by split.
Defined.

Lemma not_tileAware_gemm : ¬ tileAware (gemm false).
Proof.
  intros (v & Hv & Htile).
  assert (gemm false !! "TileAwareSelection" = Some (Scalar (SBool false)))
    as Hfalse by reflexivity.
  rewrite Hfalse in Hv. injection Hv as <-. discriminate Htile.
Qed.

Lemma writeBenchmarkFiles_plain_problem_type_witness :
  (writeBenchmarkFiles ["build"; "Final"] [forked (gemm false) 2]
     (ProblemSizes (gemm false) [Exact [1024; 1024; 1; 1024]]) "Final" [256; 512]
     (fresh true false)).1 =
  (if bool_decide
        ((written (globals (fresh true false)) (ProblemTypeParam (gemm false))
            [forked (gemm false) 2]).2 = [])
   then Exit [Str "write solutions and kernels results 0 valid soultion."]
   else Ok (written (globals (fresh true false)) (ProblemTypeParam (gemm false))
              [forked (gemm false) 2]).2).
Proof.
  exact (proj1 (proj2 (writeBenchmarkFiles_plain_problem_type ["build"; "Final"]
                  (forked (gemm false) 2) []
                  (ProblemSizes (gemm false) [Exact [1024; 1024; 1; 1024]]) "Final"
                  [256; 512] (fresh true false) (gemm false) eq_refl
                  not_tileAware_gemm))).
Defined.

Lemma writeBenchmarkFiles_tile_sizes_needed_witness :
  (writeBenchmarkFiles ["build"; "Final"]
     [ {[ "ProblemType" := ProblemTypeParam (gemm true) ]} ]
     (ProblemSizes (gemm true) []) "Final" [] (fresh true false)).1 =
  Raise (KeyError "MacroTile0").
Proof.
  refine (proj1 (writeBenchmarkFiles_tile_sizes_needed ["build"; "Final"]
                   {[ "ProblemType" := ProblemTypeParam (gemm true) ]} []
                   (ProblemSizes (gemm true) []) "Final" [] (fresh true false)
                   (gemm true) [] {[ "ProblemType" := ProblemTypeParam (gemm true) ]} []
                   "MacroTile0" eq_refl _ eq_refl (Forall_nil_2 _) eq_refl)).
  exists (Scalar (SBool true)). by split.
Defined.

End MoreInstances.

Section PipelineInstances.
Import Demo Cases.

Lemma benchmarkProblemType_restores_parameters_witness :
  globals (benchmarkProblemType (gemmConfig false) (oneStep "Final") 0
             (fresh true false)).2 = globals (fresh true false) ∧
  ["build"; "Cijk_Ailk_Bljk_SB_00"; "Data"] ∈
    files (benchmarkProblemType (gemmConfig false) (oneStep "Final") 0
             (fresh true false)).2.
Proof.
  destruct (benchmarkProblemType_restores_parameters (gemmConfig false)
              (oneStep "Final") 0 (fresh true false)
              (processOf (gemmConfig false) (oneStep "Final"))
              (Some ["build"; "Cijk_Ailk_Bljk_SB_00"; "Data"; "Final"], 0)
              eq_refl eq_refl) as (Hg & _ & Hdata & _).
  split; [exact Hg|exact Hdata].
Defined.

Lemma benchmarkProblemType_abort_stays_inside_witness :
  ∃ step,
    step ∈ steps (processOf unbatched (oneStep "Final")) ∧
    globals (benchmarkProblemType unbatched (oneStep "Final") 0 (fresh true false)).2 =
      set_WorkingPath
        (WorkingPath (globals (fresh true false)) ++
         [groupName_of (problemType (processOf unbatched (oneStep "Final"))) 0;
          stepName step; "source"])
        (globals (fresh true false)) ∧
    ∃ d, trace (benchmarkProblemType unbatched (oneStep "Final") 0
                  (fresh true false)).2 = d ++ trace (fresh true false) ∧
         count is_push d = (count is_pop d + 3)%nat.
Proof.
  apply (benchmarkProblemType_abort_stays_inside unbatched (oneStep "Final") 0
           (fresh true false) (processOf unbatched (oneStep "Final")) eq_refl).
  - by exists (Scalar (SBool true)).
  - intros r Hr.
    assert ((benchmarkProblemType unbatched (oneStep "Final") 0 (fresh true false)).1 =
            Raise (KeyError "Batched")) as Hraise by reflexivity.
    rewrite Hraise in Hr. discriminate Hr.
Defined.

Lemma benchmarkProblemType_counts_failed_runs_witness :
  0 ≤ 1 ≤ Z.of_nat (length (steps (processOf (gemmConfig false) (oneStep "Failing")))) ∧
  ∃ d, trace (benchmarkProblemType (gemmConfig false) (oneStep "Failing") 0
                (fresh true false)).2 = d ++ trace (fresh true false) ∧
       1 = Z.of_nat (count is_failedRun d) ∧
       count is_warning d = count is_failedRun d ∧
       (count is_RunClient d ≤
        length (steps (processOf (gemmConfig false) (oneStep "Failing"))))%nat.
Proof.
  exact (benchmarkProblemType_counts_failed_runs (gemmConfig false)
           (oneStep "Failing") 0 (fresh true false)
           (processOf (gemmConfig false) (oneStep "Failing"))
           (Some ["build"; "Cijk_Ailk_Bljk_SB_00"; "Data"; "Failing"], 1)
           eq_refl eq_refl).
Defined.

Lemma benchmarkProblemType_returns_last_final_base_witness :
  Some ["build"; "Cijk_Ailk_Bljk_SB_00"; "Data"; "Second"] =
    (λ step,
       resultsFileBase_of
         (WorkingPath (globals (fresh true false)) ++
          [groupName_of (gemm false) 0; stepName step])
         (stepName step)) <$>
    last (filter (λ step, isFinal step = true)
            (steps (processOf (gemmConfig false)
                      (YList [YScalar (SStr "First"); YScalar (SStr "Second")])))).
Proof.
  exact (proj1 (benchmarkProblemType_returns_last_final_base (gemmConfig false)
                  (YList [YScalar (SStr "First"); YScalar (SStr "Second")]) 0
                  (fresh true false)
                  (processOf (gemmConfig false)
                     (YList [YScalar (SStr "First"); YScalar (SStr "Second")]))
                  (Some ["build"; "Cijk_Ailk_Bljk_SB_00"; "Data"; "Second"], 0)
                  eq_refl eq_refl)).
Defined.

Lemma forced_redo_runs_the_client_in_every_step_witness :
  ∃ d, trace (benchmarkProblemType (gemmConfig false) (oneStep "Final") 0
                {| globals := parameters true true;
                   files := {[ ["build"; "Cijk_Ailk_Bljk_SB_00"; "Data"; "Final.csv"] ]};
                   trace := [] |}).2 = d ++ [] ∧
       count is_RunClient d = 1%nat.
Proof.
  exact (forced_redo_runs_the_client_in_every_step (gemmConfig false)
           (oneStep "Final") 0
           {| globals := parameters true true;
              files := {[ ["build"; "Cijk_Ailk_Bljk_SB_00"; "Data"; "Final.csv"] ]};
              trace := [] |}
           (processOf (gemmConfig false) (oneStep "Final"))
           (Some ["build"; "Cijk_Ailk_Bljk_SB_00"; "Data"; "Final"], 0)
           eq_refl eq_refl eq_refl).
Defined.

Lemma benchmarkProblemType_needs_a_process_witness :
  failure (benchmarkProblemType (YDict []) (oneStep "Final") 0 (fresh true false)).1 =
    Some (inr (KeyError "TileAwareSelection")) ∧
  files (benchmarkProblemType (YDict []) (oneStep "Final") 0 (fresh true false)).2 =
    files (fresh true false).
Proof.
  destruct (benchmarkProblemType_needs_a_process (YDict []) (oneStep "Final") 0
              (fresh true false) (inr (KeyError "TileAwareSelection")))
    as (Hf & _ & Hfiles & _).
  - right. exists (processOf (YDict []) (oneStep "Final")). by split_and!.
  - split; [exact Hf|exact Hfiles].
Defined.

Lemma plain_names : Forall plain ["build"; "Cijk_Ailk_Bljk_SB_00"] ∧ plain "Final".
Proof. split; [constructor; [|constructor; [|constructor]]|]; by split_and!. Qed.

Lemma results_files_are_in_the_Data_directory_witness :
  resultsFileBase_of (join ["build"; "Cijk_Ailk_Bljk_SB_00"] ["Final"]) "Final" =
    join (join ["build"; "Cijk_Ailk_Bljk_SB_00"] ["Data"]) ["Final"] ∧
  add_ext (resultsFileBase_of (join ["build"; "Cijk_Ailk_Bljk_SB_00"] ["Final"]) "Final")
    ".csv" =
    join (join ["build"; "Cijk_Ailk_Bljk_SB_00"] ["Data"]) ["Final" +:+ ".csv"].
Proof.
  exact (results_files_are_in_the_Data_directory ["build"; "Cijk_Ailk_Bljk_SB_00"]
           "Final" ".csv" (proj1 plain_names) (proj2 plain_names)).
Defined.

Lemma kept_results_skip_the_size_group_witness :
  (mainGroup ["build"; "2_BenchmarkData"] (gemmConfig false) 0 (oneStep "Final") 0
     kept).1 = Ok 0 ∧
  files (mainGroup ["build"; "2_BenchmarkData"] (gemmConfig false) 0 (oneStep "Final") 0
           kept).2 = files kept.
Proof.
  destruct (kept_results_skip_the_size_group ["build"; "2_BenchmarkData"]
              (gemmConfig false) (oneStep "Final") 0 0 kept (Scalar (SInt 0))
              eq_refl eq_refl) as (Hok & _ & Hfiles & _).
  - apply elem_of_singleton. reflexivity.
  - split; [exact Hok|exact Hfiles].
Defined.

Lemma main_again_runs_nothing_witness :
  (main (oneGroup "Final") (main (oneGroup "Final") (fresh true false)).2).1 = Ok () ∧
  files (main (oneGroup "Final") (main (oneGroup "Final") (fresh true false)).2).2 =
    files (main (oneGroup "Final") (fresh true false)).2.
Proof.
  destruct (main_again_runs_nothing (oneGroup "Final") (fresh true false)
              eq_refl eq_refl) as (Hok & Hfiles & _).
  split; [exact Hok|exact Hfiles].
Defined.

Lemma main_returns_only_without_failed_runs_witness :
  WorkingPath (globals (main (oneGroup "Final") (fresh true false)).2) =
    WorkingPath (globals (fresh true false)).
Proof.
  exact (proj1 (proj2 (main_returns_only_without_failed_runs (oneGroup "Final")
                         (fresh true false) eq_refl))).
Defined.

Lemma pair_eta {A B} (p : A * B) (a : A) : p.1 = a → p = (a, p.2).
Proof. destruct p. by intros <-. Qed.

Lemma main_exits_after_the_last_entry_witness :
  (main (oneGroup "Failing") (fresh true false)).1 = Raise (SystemExit 1) ∧
  WorkingPath (globals (main (oneGroup "Failing") (fresh true false)).2) = ["build"].
Proof.
  destruct (main_exits_after_the_last_entry (oneGroup "Failing") (fresh true false)
              (mainEntries ["build"; "2_BenchmarkData"] (oneGroup "Failing") 0
                 (mainStarted (fresh true false))).2 1
              (pair_eta _ _ eq_refl)) as (Hexit & _ & Hwp & _).
  split; [exact Hexit|exact Hwp].
Defined.

Lemma group_directories_are_distinct_witness :
  (0 ≠ 12)%nat ∧ groupName_of (gemm false) 0 ≠ groupName_of (gemm false) 12.
Proof.
  split; [lia|]. apply group_directories_are_distinct. lia.
Defined.

Lemma main_keeps_the_results_of_every_size_group_witness :
  allPromoted ["build"; "2_BenchmarkData"] (parameters true false)
    (files (main (oneGroup "Final") (fresh true false)).2) (oneGroup "Final").
Proof.
  exact (main_keeps_the_results_of_every_size_group (oneGroup "Final")
           (fresh true false) eq_refl).
Defined.

End PipelineInstances.

Section HarshInstances.
Import Harsh.

Example harsh_custom_kernels :
  generateCustomKernelSolutions (Demo.gemm false)
    ["Custom_SB"; "Custom_Invalid"; "Custom_TileAware"] false (fresh "hipcc") =
  (Ok [custom "Custom_SB" stored_SB],
   {| globals := globals (fresh "hipcc"); files := ∅;
      trace := [ rejectedLine "Custom_TileAware"; processingLine "Custom_TileAware";
                 addedLine "Custom_Invalid"; processingLine "Custom_Invalid";
                 addedLine "Custom_SB"; processingLine "Custom_SB" ] |}).
Proof. reflexivity. Qed.

Lemma harsh_store_loads k :
  k ∈ ["Custom_SB"; "Custom_Invalid"; "Custom_TileAware"] →
  ∃ s, loadedKernel (globals (fresh "hipcc")) k = Ok s ∧
       is_Some (s !! "ProblemType") ∧
       (false = true → matches (Demo.gemm false) s = true).
Proof.
  intros Hk.
  apply elem_of_cons in Hk as [->|Hk];
    [exists (custom "Custom_SB" stored_SB);
     split_and!; [reflexivity|by eexists|discriminate]|].
  apply elem_of_cons in Hk as [->|Hk];
    [exists (custom "Custom_Invalid" stored_Invalid);
     split_and!; [reflexivity|by eexists|discriminate]|].
  apply elem_of_cons in Hk as [->|Hk];
    [exists (custom "Custom_TileAware" stored_TileAware);
     split_and!; [reflexivity|by eexists|discriminate]|].
  by apply elem_of_nil in Hk.
Defined.

Lemma added_line_for_every_matching_kernel_witness :
  ∃ d sols,
    generateCustomKernelSolutions (Demo.gemm false)
      ["Custom_SB"; "Custom_Invalid"; "Custom_TileAware"] false (fresh "hipcc") =
      (Ok sols, {| globals := globals (fresh "hipcc"); files := files (fresh "hipcc");
                   trace := d ++ trace (fresh "hipcc") |}) ∧
    count is_addedLine d =
      length (filter (λ s, matches (Demo.gemm false) s = true)
                (loaded (globals (fresh "hipcc"))
                   ["Custom_SB"; "Custom_Invalid"; "Custom_TileAware"])) ∧
    (length sols ≤ count is_addedLine d)%nat ∧
    (length sols = count is_addedLine d ↔
     Forall (λ s, matches (Demo.gemm false) s = true → Valid s = true)
       (loaded (globals (fresh "hipcc"))
          ["Custom_SB"; "Custom_Invalid"; "Custom_TileAware"])).
Proof.
  exact (added_line_for_every_matching_kernel (Demo.gemm false)
           ["Custom_SB"; "Custom_Invalid"; "Custom_TileAware"] false (fresh "hipcc")
           harsh_store_loads).
Defined.

Lemma writeBenchmarkFiles_nothing_left_witness :
  (writeBenchmarkFiles ["build"; "Final"] [solution]
     (ProblemSizes (Demo.gemm false) [Exact [1024; 1024; 1; 1024]]) "Final" []
     (fresh "none")).1 =
  Exit [Str "write solutions and kernels results 0 valid soultion."].
Proof.
  refine (proj1 (writeBenchmarkFiles_nothing_left ["build"; "Final"] solution []
                   (ProblemSizes (Demo.gemm false) [Exact [1024; 1024; 1; 1024]])
                   "Final" [] (fresh "none") (Demo.gemm false) eq_refl eq_refl _)).
  intros (v & Hv & Htile). exfalso.
  assert (Demo.gemm false !! "TileAwareSelection" = Some (Scalar (SBool false)))
    as Hfalse by reflexivity.
  rewrite Hfalse in Hv. injection Hv as <-. discriminate Htile.
Defined.

Lemma harsh_pair_eta {A B} (p : A * B) (a : A) : p.1 = a → p = (a, p.2).
Proof. destruct p. by intros <-. Qed.

Lemma missing_results_file_stops_the_size_group_witness :
  (mainGroup ["build"; "2_BenchmarkData"] (Demo.gemmConfig false) 0
     (YList [YScalar (SStr "Final")]) 0 (fresh "hipcc")).1 =
  Raise (FileNotFoundError ["build"; "Cijk_Ailk_Bljk_SB_00"; "Data"; "Final.csv"]).
Proof.
  refine (proj1 (missing_results_file_stops_the_size_group
                   ["build"; "2_BenchmarkData"] (Demo.gemmConfig false)
                   (YList [YScalar (SStr "Final")]) 0 0 (fresh "hipcc")
                   (Scalar (SInt 0)) ["build"; "Cijk_Ailk_Bljk_SB_00"; "Data"; "Final"] 0
                   (benchmarkProblemType (Demo.gemmConfig false)
                      (YList [YScalar (SStr "Final")]) 0
                      (groupStarted (Demo.gemmConfig false) (Scalar (SInt 0))
                         (fresh "hipcc"))).2
                   eq_refl _ (harsh_pair_eta _ _ eq_refl) _)).
  - right. apply not_elem_of_empty.
  - apply (bool_decide_eq_false_1 _). reflexivity.
Defined.

Lemma tile_aware_ideal_sizes_counterexample :
  tileAware (Demo.gemm true) ∧
  Forall (λ s, s !! "ProblemType" = Some (ProblemTypeParam (Demo.gemm true)))
    [Demo.tiled 128 64; Demo.tiled 64 32] ∧
  has_int "MacroTile0" 128 (Demo.tiled 128 64) ∧
  has_int "MacroTile1" 64 (Demo.tiled 128 64) ∧
  has_int "MacroTile0" 64 (Demo.tiled 64 32) ∧
  has_int "MacroTile1" 32 (Demo.tiled 64 32) ∧
  (writeBenchmarkFiles ["build"; "Final"] [Demo.tiled 128 64; Demo.tiled 64 32]
     (ProblemSizes (Demo.gemm true) [Exact [1024; 1024; 1; 1024]]) "Final"
     [256; 512] (fresh "legacy")).1 = Ok [Demo.tiled 64 32] ∧
  clientConfigs
    (trace (writeBenchmarkFiles ["build"; "Final"] [Demo.tiled 128 64; Demo.tiled 64 32]
              (ProblemSizes (Demo.gemm true) [Exact [1024; 1024; 1; 1024]]) "Final"
              [256; 512] (fresh "legacy")).2) =
    [(ProblemSizes (Demo.gemm true)
        [Exact [2304; 1152; 1; 256]; Exact [2304; 1152; 1; 512]], true)].
Proof.
  split_and!; [|repeat constructor|reflexivity..].
  exists (Scalar (SBool true)). split; reflexivity.
Qed.

End HarshInstances.
